(** * Air quality monitoring system: AQI engine and prediction pipeline

    A shallow embedding of
    - [src/backend/utils/aqiCalculator.js] (the direct-reading AQI path) and
    - the prediction controller ([makePrediction], [normalizeData],
      [denormalizeData], [addWeatherFeatures], [generateFallbackPrediction],
      [extractDailyPatterns], [calculateAQIFromPollutants] and its private
      copies of the per-pollutant index functions),
    followed by the properties of the specification that concern them.

    JavaScript numbers are modelled by the type [number]: exact rationals
    together with the three special values [Infinity], [-Infinity] and [NaN].
    Arithmetic on finite values is exact (no binary64 rounding, no overflow,
    no negative zero); on the special values it follows IEEE 754 as
    JavaScript does. *)

From Stdlib Require Import QArith Qround Qabs Qpower Qminmax ZArith Lia Lqa Bool.
From stdpp Require Import list strings gmap.

Open Scope Q_scope.

(** ** JavaScript numbers *)

Module JS.

Inductive number : Type :=
  | Num (q : Q)
  | Infinity
  | NegInfinity
  | NaN.

(** Sign of a rational, used by multiplication and division. *)
Definition Qsign (q : Q) : comparison := q ?= 0.

Definition neg (a : number) : number :=
  match a with
  | Num q => Num (- q)
  | Infinity => NegInfinity
  | NegInfinity => Infinity
  | NaN => NaN
  end.

Definition add (a b : number) : number :=
  match a, b with
  | NaN, _ | _, NaN => NaN
  | Num p, Num q => Num (p + q)
  | Infinity, NegInfinity | NegInfinity, Infinity => NaN
  | Infinity, _ | _, Infinity => Infinity
  | NegInfinity, _ | _, NegInfinity => NegInfinity
  end.

Definition sub (a b : number) : number := add a (neg b).

(** An infinity scaled by a finite factor: the sign of the factor decides,
    and a zero factor gives [NaN]. *)
Definition scale_inf (inf : number) (q : Q) : number :=
  match Qsign q with
  | Gt => inf
  | Lt => neg inf
  | Eq => NaN
  end.

Definition mul (a b : number) : number :=
  match a, b with
  | NaN, _ | _, NaN => NaN
  | Num p, Num q => Num (p * q)
  | Num p, inf => scale_inf inf p
  | inf, Num q => scale_inf inf q
  | Infinity, Infinity | NegInfinity, NegInfinity => Infinity
  | Infinity, NegInfinity | NegInfinity, Infinity => NegInfinity
  end.

(** Division; a zero divisor is the positive zero. *)
Definition div (a b : number) : number :=
  match a, b with
  | NaN, _ | _, NaN => NaN
  | Num p, Num q =>
      match Qsign q with
      | Eq => match Qsign p with
              | Gt => Infinity
              | Lt => NegInfinity
              | Eq => NaN
              end
      | _ => Num (p / q)
      end
  | Num _, _ => Num 0
  | inf, Num q => match Qsign q with Lt => neg inf | _ => inf end
  | _, _ => NaN
  end.

(** [a <= b]; every comparison with [NaN] is false. *)
Definition le (a b : number) : bool :=
  match a, b with
  | NaN, _ | _, NaN => false
  | Num p, Num q => Qle_bool p q
  | NegInfinity, _ | _, Infinity => true
  | _, _ => false
  end.

(** [a < b]. *)
Definition lt (a b : number) : bool :=
  match a, b with
  | NaN, _ | _, NaN => false
  | Num p, Num q => negb (Qle_bool q p)
  | Infinity, _ | _, NegInfinity => false
  | _, _ => true
  end.

(** [a > b] and [a >= b]. *)
Definition gt (a b : number) : bool := lt b a.
Definition ge (a b : number) : bool := le b a.

(** [a === b] on numbers. *)
Definition strict_eq (a b : number) : bool :=
  match a, b with
  | Num p, Num q => Qeq_bool p q
  | Infinity, Infinity | NegInfinity, NegInfinity => true
  | _, _ => false
  end.

(** [Math.min(a, b)] and [Math.max(a, b)]. *)
Definition Math_min (a b : number) : number :=
  match a, b with
  | NaN, _ | _, NaN => NaN
  | _, _ => if le a b then a else b
  end.

Definition Math_max (a b : number) : number :=
  match a, b with
  | NaN, _ | _, NaN => NaN
  | _, _ => if le a b then b else a
  end.

(** [Math.max(...l)]: the maximum of no argument at all is [-Infinity]. *)
Definition Math_max_spread (l : list number) : number :=
  fold_left Math_max l NegInfinity.

(** [Math.round]: the nearest integer, ties towards [+Infinity]. *)
Definition Math_round (a : number) : number :=
  match a with
  | Num q => Num (inject_Z (Qfloor (q + 1 / 2)))
  | other => other
  end.

(** A natural number (an index, a length, a loop counter) as a number. *)
Definition of_nat (n : nat) : number := Num (inject_Z (Z.of_nat n)).

(** Equality of numbers up to the representation of the rational; [NaN] is
    related to itself so that the relation is an equivalence on results. *)
Definition same (a b : number) : Prop :=
  match a, b with
  | Num p, Num q => p == q
  | Infinity, Infinity | NegInfinity, NegInfinity | NaN, NaN => True
  | _, _ => False
  end.

Definition is_NaN (a : number) : bool :=
  match a with NaN => true | _ => false end.

End JS.

Import JS.

Declare Scope js_scope.
Delimit Scope js_scope with js.
Infix "+" := add : js_scope.
Infix "-" := sub : js_scope.
Infix "*" := mul : js_scope.
Infix "/" := div : js_scope.
Infix "<=?" := le : js_scope.
Infix ">?" := gt : js_scope.
Infix ">=?" := ge : js_scope.
Infix "===" := strict_eq (at level 70) : js_scope.
Coercion Num : Q >-> number.

(** ** Exceptions

    A function body that may throw returns an [outcome]. *)

Inductive error : Type :=
  | TypeError
  | Error (message : string).

Inductive outcome (A : Type) : Type :=
  | Returns (a : A)
  | Throws (e : error).
Arguments Returns {A} a.
Arguments Throws {A} e.

#[export] Instance outcome_ret : MRet outcome := fun A a => Returns a.
#[export] Instance outcome_bind : MBind outcome := fun A B f m =>
  match m with
  | Returns a => f a
  | Throws e => Throws e
  end.

Definition throws {A} (m : outcome A) : bool :=
  match m with Throws _ => true | Returns _ => false end.

(** ** Readings and forecast points *)

(** The object [{pm25, pm10, o3, no2, so2, co}]; a field that is [undefined]
    or [null] is [None]. *)
Record Pollutants : Type := mkPollutants {
  pm25 : option number;
  pm10 : option number;
  o3 : option number;
  no2 : option number;
  so2 : option number;
  co : option number
}.

(** One element of the array returned by [makePrediction]. *)
Record ForecastPoint : Type := mkForecastPoint {
  aqi : number;
  pollutants : Pollutants
}.

(** [indices.push(index(value))] under the guard of one [if] statement of
    the aggregation functions: nothing is pushed for an absent field or when
    the guard on the value fails. *)
Definition push_index (guard : number -> bool) (index : number -> number)
    (field : option number) (indices : list number) : list number :=
  match field with
  | Some value => if guard value then indices ++ [index value] else indices
  | None => indices
  end.

(** ** src/backend/utils/aqiCalculator.js: the direct-reading path *)

Module AqiCalculator.

Definition linearScale (concentration minConc maxConc minAQI maxAQI : number)
    : number :=
  Math_round
    (((maxAQI - minAQI) / (maxConc - minConc)) * (concentration - minConc)
     + minAQI)%js.

Definition calculatePM25Index (pm25 : number) : number :=
  if (pm25 <=? 12.0)%js then linearScale pm25 0 12.0 0 50
  else if (pm25 <=? 35.4)%js then linearScale pm25 12.1 35.4 51 100
  else if (pm25 <=? 55.4)%js then linearScale pm25 35.5 55.4 101 150
  else if (pm25 <=? 150.4)%js then linearScale pm25 55.5 150.4 151 200
  else if (pm25 <=? 250.4)%js then linearScale pm25 150.5 250.4 201 300
  else if (pm25 <=? 350.4)%js then linearScale pm25 250.5 350.4 301 400
  else linearScale pm25 350.5 500.4 401 500.

Definition calculatePM10Index (pm10 : number) : number :=
  if (pm10 <=? 54)%js then linearScale pm10 0 54 0 50
  else if (pm10 <=? 154)%js then linearScale pm10 55 154 51 100
  else if (pm10 <=? 254)%js then linearScale pm10 155 254 101 150
  else if (pm10 <=? 354)%js then linearScale pm10 255 354 151 200
  else if (pm10 <=? 424)%js then linearScale pm10 355 424 201 300
  else if (pm10 <=? 504)%js then linearScale pm10 425 504 301 400
  else linearScale pm10 505 604 401 500.

Definition calculateO3Index (o3 : number) : number :=
  if (o3 <=? 54)%js then linearScale o3 0 54 0 50
  else if (o3 <=? 70)%js then linearScale o3 55 70 51 100
  else if (o3 <=? 85)%js then linearScale o3 71 85 101 150
  else if (o3 <=? 105)%js then linearScale o3 86 105 151 200
  else if (o3 <=? 200)%js then linearScale o3 106 200 201 300
  else linearScale o3 201 504 301 500.

Definition calculateCOIndex (co : number) : number :=
  if (co <=? 1.0)%js then linearScale co 0 1.0 0 50
  else if (co <=? 2.0)%js then linearScale co 1.1 2.0 51 100
  else if (co <=? 4.4)%js then linearScale co 2.1 4.4 101 150
  else if (co <=? 9.4)%js then linearScale co 4.5 9.4 151 200
  else if (co <=? 12.4)%js then linearScale co 9.5 12.4 201 300
  else linearScale co 12.5 15.4 301 500.

Definition calculateSO2Index (so2 : number) : number :=
  if (so2 <=? 35)%js then linearScale so2 0 35 0 50
  else if (so2 <=? 75)%js then linearScale so2 36 75 51 100
  else if (so2 <=? 185)%js then linearScale so2 76 185 101 150
  else if (so2 <=? 304)%js then linearScale so2 186 304 151 200
  else if (so2 <=? 604)%js then linearScale so2 305 604 201 300
  else if (so2 <=? 804)%js then linearScale so2 605 804 301 400
  else linearScale so2 805 1004 401 500.

Definition calculateNO2Index (no2 : number) : number :=
  if (no2 <=? 53)%js then linearScale no2 0 53 0 50
  else if (no2 <=? 100)%js then linearScale no2 54 100 51 100
  else if (no2 <=? 360)%js then linearScale no2 101 360 101 150
  else if (no2 <=? 649)%js then linearScale no2 361 649 151 200
  else if (no2 <=? 1249)%js then linearScale no2 650 1249 201 300
  else if (no2 <=? 1649)%js then linearScale no2 1250 1649 301 400
  else linearScale no2 1650 2049 401 500.

(** The guard [pollutants.x !== undefined && pollutants.x > 0]. *)
Definition measured (value : number) : bool := (value >? 0)%js.

(** The list [indices] when the six [if] statements have run, in the order
    of the source: pm25, pm10, o3, co, so2, no2. *)
Definition indices (pollutants : Pollutants) : list number :=
  let indices := [] in
  let indices := push_index measured calculatePM25Index (pm25 pollutants) indices in
  let indices := push_index measured calculatePM10Index (pm10 pollutants) indices in
  let indices := push_index measured calculateO3Index (o3 pollutants) indices in
  let indices := push_index measured calculateCOIndex (co pollutants) indices in
  let indices := push_index measured calculateSO2Index (so2 pollutants) indices in
  let indices := push_index measured calculateNO2Index (no2 pollutants) indices in
  indices.

Definition calculateAQI (pollutants : Pollutants) : number :=
  let indices := indices pollutants in
  if (0 <? length indices)%nat then Math_max_spread indices else 0.

End AqiCalculator.

(** ** JSON values received from the prediction service

    A string carries, next to its characters, the number JavaScript reads it
    as (the result of [Number(s)]), so that the implicit conversion of a
    response element to a number needs no parser. After [JSON.parse] the
    keys of an object are distinct. *)

#[local] Set Warnings "-register-all".
Inductive json : Type :=
  | JNull
  | JBool (b : bool)
  | JNum (n : number)
  | JStr (s : string) (asNumber : number)
  | JArr (items : list json)
  | JObj (fields : list (string * json)).

(** [obj.key]; [None] is [undefined]. *)
Fixpoint get_field (key : string) (fields : list (string * json))
    : option json :=
  match fields with
  | [] => None
  | (k, v) :: rest => if String.eqb k key then Some v else get_field key rest
  end.

(** [ToString] of a value parsed from JSON throws a [TypeError] in one case
    only: an object with an own property [toString], which hides
    [Object.prototype.toString] and, coming from JSON, is not callable (an
    own [valueOf] is skipped for the same reason, and the inherited one
    returns the object itself). An array is printed by [join], which prints
    every element. *)
Fixpoint ToString_throws (v : json) : bool :=
  match v with
  | JObj fields =>
      match get_field "toString" fields with
      | Some _ => true
      | None => false
      end
  | JArr items => existsb ToString_throws items
  | _ => false
  end.

(** The number a JSON value reads as when its conversion returns. An array
    converts through its string form: [[]] reads as 0, a one-element array
    as its element ([null] as the empty string, a boolean as a word that is
    not a number), a longer one contains a comma and is not a number; an
    object prints as [[object Object]], which is not a number. *)
Fixpoint numeric_value (v : json) : number :=
  match v with
  | JNull => 0
  | JBool b => if b then 1 else 0
  | JNum n => n
  | JStr _ n => n
  | JArr [] => 0
  | JArr [JBool _] => NaN
  | JArr [x] => numeric_value x
  | JArr _ => NaN
  | JObj _ => NaN
  end.

(** [ToNumber] of a JSON value, as applied by [val * x]: an object or an
    array is first converted to a primitive, through [valueOf] (which gives
    nothing) and then [toString]. *)
Definition ToNumber (v : json) : outcome number :=
  if ToString_throws v then Throws TypeError else Returns (numeric_value v).

(** Truthiness, as tested by [!response.data] and
    [if (response.data.predictions)]. *)
Definition truthy (v : json) : bool :=
  match v with
  | JNull => false
  | JBool b => b
  | JNum (Num q) => negb (Qeq_bool q 0)
  | JNum NaN => false
  | JNum _ => true
  | JStr s _ => negb (String.eqb s "")
  | JArr _ | JObj _ => true
  end.

(** [typeof v === 'object'] *)
Definition typeof_object (v : json) : bool :=
  match v with
  | JNull | JArr _ | JObj _ => true
  | _ => false
  end.

(** ** The world around the prediction controller *)

(** The object built by [fetchOpenWeatherData]; only the three fields read
    by [addWeatherFeatures] are kept, and a field that is [undefined] is
    [None]. *)
Record WeatherData : Type := mkWeatherData {
  temp : option number;
  humidity : option number;
  wind_speed : option number
}.

(** What [await axios.post(...)] does: the promise is rejected (no
    connection, time-out, a status outside 2xx), or it resolves to a response
    whose [data] is the parsed body. *)
Inductive http_result : Type :=
  | Rejected
  | Resolved (data : json).

Record World : Type := mkWorld {
  (** [process.env.HUGGINGFACE_API_KEY] *)
  HUGGINGFACE_API_KEY : option string;
  (** the value [await fetchOpenWeatherData()] yields; the function catches
      its own errors and then yields [null] *)
  fetchOpenWeatherData : option WeatherData;
  (** the outcome of [axios.post] for a given [past_values] *)
  axios_post : list (list number) -> http_result;
  (** [new Date().getHours()] read in iteration [hour], [i] of the fallback
      loop *)
  getHours : nat -> nat -> nat;
  (** [Math.random()] drawn in iteration [hour], [i] of the fallback loop *)
  random : nat -> nat -> number
}.

(** ** The prediction controller *)

Module PredictionController.

Definition linearScale (concentration minConc maxConc minAQI maxAQI : number)
    : number :=
  Math_round
    (((maxAQI - minAQI) / (maxConc - minConc)) * (concentration - minConc)
     + minAQI)%js.

Definition calculatePM25Index (pm25 : number) : number :=
  if (pm25 <=? 12.0)%js then linearScale pm25 0 12.0 0 50
  else if (pm25 <=? 35.4)%js then linearScale pm25 12.1 35.4 51 100
  else if (pm25 <=? 55.4)%js then linearScale pm25 35.5 55.4 101 150
  else if (pm25 <=? 150.4)%js then linearScale pm25 55.5 150.4 151 200
  else if (pm25 <=? 250.4)%js then linearScale pm25 150.5 250.4 201 300
  else if (pm25 <=? 350.4)%js then linearScale pm25 250.5 350.4 301 400
  else linearScale pm25 350.5 500.4 401 500.

Definition calculatePM10Index (pm10 : number) : number :=
  if (pm10 <=? 54)%js then linearScale pm10 0 54 0 50
  else if (pm10 <=? 154)%js then linearScale pm10 55 154 51 100
  else if (pm10 <=? 254)%js then linearScale pm10 155 254 101 150
  else if (pm10 <=? 354)%js then linearScale pm10 255 354 151 200
  else if (pm10 <=? 424)%js then linearScale pm10 355 424 201 300
  else if (pm10 <=? 504)%js then linearScale pm10 425 504 301 400
  else linearScale pm10 505 604 401 500.

Definition calculateO3Index (o3 : number) : number :=
  if (o3 <=? 54)%js then linearScale o3 0 54 0 50
  else if (o3 <=? 70)%js then linearScale o3 55 70 51 100
  else if (o3 <=? 85)%js then linearScale o3 71 85 101 150
  else if (o3 <=? 105)%js then linearScale o3 86 105 151 200
  else if (o3 <=? 200)%js then linearScale o3 106 200 201 300
  else linearScale o3 201 504 301 500.

Definition calculateCOIndex (co : number) : number :=
  if (co <=? 4.4)%js then linearScale co 0 4.4 0 50
  else if (co <=? 9.4)%js then linearScale co 4.5 9.4 51 100
  else if (co <=? 12.4)%js then linearScale co 9.5 12.4 101 150
  else if (co <=? 15.4)%js then linearScale co 12.5 15.4 151 200
  else if (co <=? 30.4)%js then linearScale co 15.5 30.4 201 300
  else if (co <=? 40.4)%js then linearScale co 30.5 40.4 301 400
  else linearScale co 40.5 50.4 401 500.

Definition calculateSO2Index (so2 : number) : number :=
  if (so2 <=? 35)%js then linearScale so2 0 35 0 50
  else if (so2 <=? 75)%js then linearScale so2 36 75 51 100
  else if (so2 <=? 185)%js then linearScale so2 76 185 101 150
  else if (so2 <=? 304)%js then linearScale so2 186 304 151 200
  else if (so2 <=? 604)%js then linearScale so2 305 604 201 300
  else if (so2 <=? 804)%js then linearScale so2 605 804 301 400
  else linearScale so2 805 1004 401 500.

Definition calculateNO2Index (no2 : number) : number :=
  if (no2 <=? 53)%js then linearScale no2 0 53 0 50
  else if (no2 <=? 100)%js then linearScale no2 54 100 51 100
  else if (no2 <=? 360)%js then linearScale no2 101 360 101 150
  else if (no2 <=? 649)%js then linearScale no2 361 649 151 200
  else if (no2 <=? 1249)%js then linearScale no2 650 1249 201 300
  else if (no2 <=? 1649)%js then linearScale no2 1250 1649 301 400
  else linearScale no2 1650 2049 401 500.

(** The guard [pollutants.x !== undefined && pollutants.x !== null]: every
    present value passes. *)
Definition present (value : number) : bool := true.

(** The list [indices] when the six [if] statements have run, in the order
    of the source: pm25, o3, pm10, co, so2, no2. *)
Definition indices (pollutants : Pollutants) : list number :=
  let indices := [] in
  let indices := push_index present calculatePM25Index (pm25 pollutants) indices in
  let indices := push_index present calculateO3Index (o3 pollutants) indices in
  let indices := push_index present calculatePM10Index (pm10 pollutants) indices in
  let indices := push_index present calculateCOIndex (co pollutants) indices in
  let indices := push_index present calculateSO2Index (so2 pollutants) indices in
  let indices := push_index present calculateNO2Index (no2 pollutants) indices in
  indices.

Definition calculateAQIFromPollutants (pollutants : Pollutants) : number :=
  let indices := indices pollutants in
  if (0 <? length indices)%nat then Math_max_spread indices else 0.

(** [list[i]] read inside an arithmetic expression: [undefined] there
    behaves as [NaN]. *)
Definition entry (list : list number) (i : nat) : number :=
  default NaN (list !! i).

(** [point.forEach((val, i) => { acc[i] = f(i, acc[i], val) })], starting at
    index [i]. A slot of [acc] past its end is [undefined]; every update the
    controller uses ([Math.min], [Math.max], [+=]) then stores [NaN] there,
    which also lengthens [acc]. *)
Fixpoint forEach_update (f : nat -> number -> number -> number) (i : nat)
    (acc point : list number) : list number :=
  match point with
  | [] => acc
  | val :: point' =>
      match acc with
      | a :: acc' => f i a val :: forEach_update f (S i) acc' point'
      | [] => NaN :: forEach_update f (S i) [] point'
      end
  end.

(** The arrays [mins] and [maxs] after the double [forEach] over the data,
    as computed (twice, by the same statements) in [normalizeData] and in
    [denormalizeData]. *)
Definition column_mins (numFeatures : nat) (data : list (list number))
    : list number :=
  fold_left (fun mins point => forEach_update (fun _ => Math_min) 0 mins point)
    data (replicate numFeatures Infinity).

Definition column_maxs (numFeatures : nat) (data : list (list number))
    : list number :=
  fold_left (fun maxs point => forEach_update (fun _ => Math_max) 0 maxs point)
    data (replicate numFeatures NegInfinity).

(** The callback of the inner [map] of [normalizeData]. [mins] and [maxs]
    have one slot for every index of every point, so the last case does not
    arise. *)
Definition normalize_entry (mins maxs : list number) (i : nat) (val : number)
    : number :=
  match mins !! i, maxs !! i with
  | Some mn, Some mx => if (mn === mx)%js then 0 else ((val - mn) / (mx - mn))%js
  | _, _ => NaN
  end.

(** [data[0].length] throws a [TypeError] on an empty array. *)
Definition normalizeData (data : list (list number))
    : outcome (list (list number)) :=
  match data with
  | [] => Throws TypeError
  | first :: _ =>
      let numFeatures := length first in
      let mins := column_mins numFeatures data in
      let maxs := column_maxs numFeatures data in
      Returns (map (imap (normalize_entry mins maxs)) data)
  end.

(** The callback of the inner [map] of [denormalizeData]; [i] is below
    [numFeatures], hence a slot of [mins] and [maxs]. The element is
    converted to a number by the product, which a constant feature never
    reaches. *)
Definition denormalize_entry (mins maxs : list number) (i : nat) (val : json)
    : outcome number :=
  match mins !! i, maxs !! i with
  | Some mn, Some mx =>
      if (mn === mx)%js then Returns mn
      else
        val ← ToNumber val;
        let denormalized := (val * (mx - mn) + mn)%js in
        Returns (Math_max 0 (Math_min denormalized (mx * 2)%js))
  | _, _ => Returns NaN
  end.

(** [normalizedData] is whatever the service sent: [normalizedData.map]
    exists only on an array, and [point.slice(0, n).map] only when [point] is
    an array (a string has [slice] but its result has no [map]). *)
Definition denormalizeData (normalizedData : json)
    (originalData : list (list number)) : outcome (list (list number)) :=
  match originalData with
  | [] => Throws TypeError
  | first :: _ =>
      let numFeatures := length first in
      let mins := column_mins numFeatures originalData in
      let maxs := column_maxs numFeatures originalData in
      match normalizedData with
      | JArr points =>
          mapM (fun point =>
                  match point with
                  | JArr vals =>
                      mapM (fun '(i, val) => denormalize_entry mins maxs i val)
                        (imap pair (take numFeatures vals))
                  | _ => Throws TypeError
                  end) points
      | _ => Throws TypeError
      end
  end.

(** [result.forEach(point => point.push(x))] on the copy [result]. *)
Definition push_feature (feature : option number) (scale : number)
    (result : list (list number)) : list (list number) :=
  match feature with
  | Some x => map (fun point => point ++ [(x / scale)%js]) result
  | None => result
  end.

Definition addWeatherFeatures (data : list (list number))
    (weatherData : option WeatherData) : list (list number) :=
  match weatherData with
  | None => data
  | Some weatherData =>
      let result := data in
      let result := push_feature (temp weatherData) 100 result in
      let result := push_feature (humidity weatherData) 100 result in
      let result := push_feature (wind_speed weatherData) 10 result in
      result
  end.

(** [const [pm25, pm10, o3, no2, so2, co] = values] packed into the object
    [{pm25, pm10, o3, no2, so2, co}]; a missing element is [undefined]. *)
Definition destructure (values : list number) : Pollutants :=
  {| pm25 := values !! 0%nat; pm10 := values !! 1%nat; o3 := values !! 2%nat;
     no2 := values !! 3%nat; so2 := values !! 4%nat; co := values !! 5%nat |}.

Definition toForecastPoint (values : list number) : ForecastPoint :=
  let pollutants := destructure values in
  {| aqi := calculateAQIFromPollutants pollutants; pollutants := pollutants |}.

(** [number - array]: the array operand is converted to a number through its
    string form, [undefined] to [NaN]. *)
Definition array_ToNumber (operand : option (list number)) : number :=
  match operand with
  | None => NaN
  | Some [] => 0
  | Some [x] => x
  | Some _ => NaN
  end.

(** The body of [data.forEach((point, idx) => ...)] of
    [extractDailyPatterns] on the pair [(hourlyAverages, hourlyCount)]. *)
Definition bucket_step (state : list (list number) * list nat)
    (indexed : nat * list number) : list (list number) * list nat :=
  let '(hourlyAverages, hourlyCount) := state in
  let '(idx, point) := indexed in
  let hour := (idx mod 24)%nat in
  (alter (fun row => forEach_update (fun _ total val => (total + val)%js) 0 row point)
     hour hourlyAverages,
   alter S hour hourlyCount).

Definition extractDailyPatterns (data : list (list number))
    : outcome (list (list number)) :=
  match data with
  | [] => Throws TypeError
  | first :: _ =>
      let numPollutants := length first in
      let hourlyAverages := replicate 24 (replicate numPollutants (Num 0)) in
      let hourlyCount := replicate 24 0%nat in
      let '(hourlyAverages, hourlyCount) :=
        fold_left bucket_step (imap pair data) (hourlyAverages, hourlyCount) in
      Returns
        (imap (fun hour hourAvg =>
                 imap (fun i total =>
                         let count := default 0%nat (hourlyCount !! hour) in
                         if (count =? 0)%nat then Num 0
                         else
                           let hourlyAverage := (total / of_nat count)%js in
                           (hourlyAverage - array_ToNumber (hourlyAverages !! i))%js)
                   hourAvg)
           hourlyAverages)
  end.

(** [processedData.slice(-72)] *)
Definition slice_last {A} (n : nat) (l : list A) : list A :=
  drop (length l - n) l.

Definition zero_vector : list number := [Num 0; Num 0; Num 0; Num 0; Num 0; Num 0].

(** [dataToUse]; with an empty [processedData] the index [i % 0] is [NaN]
    and the element read is [undefined]. *)
Definition dataToUse (processedData : list (list number)) : list (list number) :=
  let recentData := slice_last 72 processedData in
  if (24 <=? length recentData)%nat then recentData
  else
    map (fun i =>
           let element :=
             if (length processedData =? 0)%nat then None
             else processedData !! (i mod length processedData)%nat in
           default zero_vector element)
      (seq 0 24).

Definition averages_of (numPollutants : nat) (dataToUse : list (list number))
    : list number :=
  fold_left
    (fun averages point =>
       forEach_update
         (fun _ average val => (average + val / of_nat (length dataToUse))%js)
         0 averages point)
    dataToUse (replicate numPollutants (Num 0)).

(** The loop [for (let i = 1; i < dataToUse.length; i++)] visits the pairs
    of consecutive points. *)
Definition trends_of (numPollutants : nat) (dataToUse : list (list number))
    : list number :=
  let trends := replicate numPollutants (Num 0) in
  if (2 <=? length dataToUse)%nat then
    fold_left
      (fun trends '(previous, point) =>
         forEach_update
           (fun j trend val =>
              (trend + (val - entry previous j) / of_nat (length dataToUse - 1))%js)
           0 trends point)
      (zip dataToUse (tail dataToUse)) trends
  else trends.

(** One pass of the inner loop of [generateFallbackPrediction]: the value
    pushed on [predictedPollutants] for pollutant [i] at [hour]. Reading
    [dailyPatterns[hourOfDay][i]] on a missing row throws. *)
Definition predict_pollutant (w : World) (averages trends : list number)
    (dailyPatterns : option (list (list number))) (hour i : nat)
    : outcome number :=
  let prediction := (entry averages i + entry trends i * of_nat hour)%js in
  prediction ←
    match dailyPatterns with
    | Some dailyPatterns =>
        let hourOfDay := ((getHours w hour i + hour) mod 24)%nat in
        match dailyPatterns !! hourOfDay with
        | Some row => Returns (prediction + entry row i)%js
        | None => Throws TypeError
        end
    | None => Returns prediction
    end;
  let variation := (prediction * (random w hour i * 0.1 - 0.05))%js in
  Returns (Math_max 0 (prediction + variation)%js).

Definition generateFallbackPrediction (w : World)
    (processedData : list (list number)) : outcome (list ForecastPoint) :=
  let dataToUse := dataToUse processedData in
  match dataToUse with
  | [] => Throws TypeError
  | first :: _ =>
      let numPollutants := length first in
      let averages := averages_of numPollutants dataToUse in
      let trends := trends_of numPollutants dataToUse in
      let hasEnoughData := (24 <=? length dataToUse)%nat in
      dailyPatterns ←
        (if hasEnoughData
         then patterns ← extractDailyPatterns dataToUse; Returns (Some patterns)
         else Returns None);
      mapM (fun hour =>
              predictedPollutants ←
                mapM (predict_pollutant w averages trends dailyPatterns hour)
                  (seq 0 numPollutants);
              Returns (toForecastPoint predictedPollutants))
        (seq 0 24)
  end.

(** The padding at the head of [makePrediction]: [unshift] inserts copies of
    [paddingValue] in front of the array the caller passed, in place. *)
Definition pad (processedData : list (list number)) : list (list number) :=
  let minRequiredDataPoints := 24%nat in
  if (length processedData <? minRequiredDataPoints)%nat then
    let paddingNeeded := (minRequiredDataPoints - length processedData)%nat in
    let paddingValue := default zero_vector (processedData !! 0%nat) in
    Nat.iter paddingNeeded (fun array => paddingValue :: array) processedData
  else processedData.

(** The statements of the [try] block after the padding; [processedData] is
    the padded array. *)
Definition makePrediction_try (w : World) (processedData : list (list number))
    : outcome (list ForecastPoint) :=
  let weatherData := fetchOpenWeatherData w in
  let HF_API_KEY := HUGGINGFACE_API_KEY w in
  if negb (match HF_API_KEY with Some key => negb (String.eqb key "") | None => false end)
  then Throws (Error "Hugging Face API key missing")
  else
    normalizedData ← normalizeData processedData;
    let enhancedInput :=
      match weatherData with
      | Some _ => addWeatherFeatures normalizedData weatherData
      | None => normalizedData
      end in
    match axios_post w enhancedInput with
    | Rejected => Throws (Error "Network Error")
    | Resolved data =>
        if negb (truthy data) || negb (typeof_object data)
        then Throws (Error "Invalid response format from prediction API")
        else
          predictions ←
            match data with
            | JArr _ => Returns data
            | JObj fields =>
                match get_field "predictions" fields with
                | Some predictions =>
                    if truthy predictions then Returns predictions
                    else Throws (Error "Unrecognized prediction API response format")
                | None => Throws (Error "Unrecognized prediction API response format")
                end
            | _ => Throws (Error "Unrecognized prediction API response format")
            end;
          denormalizedPredictions ← denormalizeData predictions processedData;
          Returns
            (map (fun pollutants =>
                    toForecastPoint (map (Math_max 0) (take 6 pollutants)))
               denormalizedPredictions)
    end.

(** A call of [makePrediction]: what the array passed by the caller holds
    when the call has completed, and how the call completes. The array is
    the one object the call shares with its caller; no statement writes into
    one of its points (the padding inserts copies, every other step builds
    new arrays), so the points are plain values. *)
Record Completion : Type := mkCompletion {
  processedData_after : list (list number);
  completion : outcome (list ForecastPoint)
}.

Definition makePrediction (w : World) (processedData : list (list number))
    : Completion :=
  let processedData := pad processedData in
  {| processedData_after := processedData;
     completion :=
       match makePrediction_try w processedData with
       | Returns aqiPredictions => Returns aqiPredictions
       | Throws error => generateFallbackPrediction w processedData
       end |}.

End PredictionController.

(** * Specification-level notions *)

(** ** Breakpoint tables as data

    The specification describes the index of a pollutant as a lookup in an
    ordered table of segments followed by the linear formula of the segment
    found. The functions of this module follow that description; the
    theorems relate them to the nested conditionals of the source. *)

Module Breakpoints.

Record BreakpointSegment : Type := mkSegment {
  concLow : Q;
  concHigh : Q;
  aqiLow : Q;
  aqiHigh : Q
}.

(** [round(((aqiHigh-aqiLow)/(concHigh-concLow)) * (c-concLow) + aqiLow)] *)
Definition segment_index (s : BreakpointSegment) (c : Q) : Z :=
  Qfloor ((aqiHigh s - aqiLow s) / (concHigh s - concLow s) * (c - concLow s)
          + aqiLow s + 1 / 2).

(** The segment used for a concentration: the first one whose upper bound
    is not exceeded, and the last one beyond every upper bound. *)
Fixpoint locate (table : list BreakpointSegment) (c : Q)
    : option BreakpointSegment :=
  match table with
  | [] => None
  | s :: rest =>
      match rest with
      | [] => Some s
      | _ :: _ => if Qle_bool c (concHigh s) then Some s else locate rest c
      end
  end.

Definition indexFor (table : list BreakpointSegment) (c : Q) : Z :=
  match locate table c with
  | Some s => segment_index s c
  | None => 0%Z
  end.

(** A concentration is covered by the table when it is not below the lower
    bound of the segment used for it, that is, when it does not fall in the
    gap left between the upper bound of one segment and the lower bound of
    the next. *)
Definition covered (table : list BreakpointSegment) (c : Q) : bool :=
  match locate table c with
  | Some s => Qle_bool (concLow s) c
  | None => false
  end.

Definition pm25_table : list BreakpointSegment :=
  [ mkSegment 0 12.0 0 50; mkSegment 12.1 35.4 51 100;
    mkSegment 35.5 55.4 101 150; mkSegment 55.5 150.4 151 200;
    mkSegment 150.5 250.4 201 300; mkSegment 250.5 350.4 301 400;
    mkSegment 350.5 500.4 401 500 ].

Definition pm10_table : list BreakpointSegment :=
  [ mkSegment 0 54 0 50; mkSegment 55 154 51 100;
    mkSegment 155 254 101 150; mkSegment 255 354 151 200;
    mkSegment 355 424 201 300; mkSegment 425 504 301 400;
    mkSegment 505 604 401 500 ].

Definition o3_table : list BreakpointSegment :=
  [ mkSegment 0 54 0 50; mkSegment 55 70 51 100;
    mkSegment 71 85 101 150; mkSegment 86 105 151 200;
    mkSegment 106 200 201 300; mkSegment 201 504 301 500 ].

(** The table of [calculateCOIndex] in aqiCalculator.js. *)
Definition co_table : list BreakpointSegment :=
  [ mkSegment 0 1.0 0 50; mkSegment 1.1 2.0 51 100;
    mkSegment 2.1 4.4 101 150; mkSegment 4.5 9.4 151 200;
    mkSegment 9.5 12.4 201 300; mkSegment 12.5 15.4 301 500 ].

(** The table of [calculateCOIndex] in the prediction controller. *)
Definition co_table_forecast : list BreakpointSegment :=
  [ mkSegment 0 4.4 0 50; mkSegment 4.5 9.4 51 100;
    mkSegment 9.5 12.4 101 150; mkSegment 12.5 15.4 151 200;
    mkSegment 15.5 30.4 201 300; mkSegment 30.5 40.4 301 400;
    mkSegment 40.5 50.4 401 500 ].

Definition so2_table : list BreakpointSegment :=
  [ mkSegment 0 35 0 50; mkSegment 36 75 51 100;
    mkSegment 76 185 101 150; mkSegment 186 304 151 200;
    mkSegment 305 604 201 300; mkSegment 605 804 301 400;
    mkSegment 805 1004 401 500 ].

Definition no2_table : list BreakpointSegment :=
  [ mkSegment 0 53 0 50; mkSegment 54 100 51 100;
    mkSegment 101 360 101 150; mkSegment 361 649 151 200;
    mkSegment 650 1249 201 300; mkSegment 1250 1649 301 400;
    mkSegment 1650 2049 401 500 ].

(** *** Checkable conditions for monotonicity

    [lowpt prev t] is the least concentration at which segment [t] is
    evaluated when it follows [prev]: the upper bound of [prev] when every
    concentration is admitted, the lower bound of [t] for covered ones. *)

Definition rising (s : BreakpointSegment) : bool :=
  Qle_bool 0 ((aqiHigh s - aqiLow s) / (concHigh s - concLow s)).

Fixpoint chain_ok (lowpt : BreakpointSegment -> BreakpointSegment -> Q)
    (prev : BreakpointSegment) (table : list BreakpointSegment) : bool :=
  match table with
  | [] => true
  | t :: rest =>
      rising t
      && Qle_bool (lowpt prev t) (concHigh t)
      && (segment_index prev (concHigh prev) <=? segment_index t (lowpt prev t))%Z
      && chain_ok lowpt t rest
  end.

Definition table_ok (lowpt : BreakpointSegment -> BreakpointSegment -> Q)
    (table : list BreakpointSegment) : bool :=
  match table with
  | [] => true
  | s :: rest => rising s && chain_ok lowpt s rest
  end.

(** The concentration is at least the least point of the segment that the
    lookup in [table], entered after [prev], uses for it. *)
Fixpoint above (lowpt : BreakpointSegment -> BreakpointSegment -> Q)
    (prev : BreakpointSegment) (table : list BreakpointSegment) (c : Q) : bool :=
  match table with
  | [] => true
  | t :: rest =>
      match rest with
      | [] => Qle_bool (lowpt prev t) c
      | _ :: _ =>
          if Qle_bool c (concHigh t) then Qle_bool (lowpt prev t) c
          else above lowpt t rest c
      end
  end.

(** The condition [above] for a lookup that starts at the head [s] of the
    table: nothing is required while the head itself is used. *)
Definition above_rest (lowpt : BreakpointSegment -> BreakpointSegment -> Q)
    (s : BreakpointSegment) (rest : list BreakpointSegment) (c : Q) : bool :=
  match rest with
  | [] => true
  | _ :: _ => if Qle_bool c (concHigh s) then true else above lowpt s rest c
  end.

(** Every segment after [prev] rises and is at least [b] where its use
    begins, at the cap of its predecessor. *)
Fixpoint floor_ok (b : Z) (prev : BreakpointSegment)
    (table : list BreakpointSegment) : bool :=
  match table with
  | [] => true
  | t :: rest =>
      rising t && (b <=? segment_index t (concHigh prev))%Z && floor_ok b t rest
  end.

Definition from_cap (prev t : BreakpointSegment) : Q := concHigh prev.
Definition from_low (prev t : BreakpointSegment) : Q := concLow t.

End Breakpoints.

(** ** Pollutants and sub-indices *)

Inductive Pollutant : Type := PM25 | PM10 | O3 | CO | SO2 | NO2.

Definition all_pollutants : list Pollutant := [PM25; PM10; O3; CO; SO2; NO2].

Definition value_of (reading : Pollutants) (p : Pollutant) : option number :=
  match p with
  | PM25 => pm25 reading
  | PM10 => pm10 reading
  | O3 => o3 reading
  | CO => co reading
  | SO2 => so2 reading
  | NO2 => no2 reading
  end.

(** The per-pollutant index function of each path. *)
Definition direct_index (p : Pollutant) : number -> number :=
  match p with
  | PM25 => AqiCalculator.calculatePM25Index
  | PM10 => AqiCalculator.calculatePM10Index
  | O3 => AqiCalculator.calculateO3Index
  | CO => AqiCalculator.calculateCOIndex
  | SO2 => AqiCalculator.calculateSO2Index
  | NO2 => AqiCalculator.calculateNO2Index
  end.

Definition forecast_index (p : Pollutant) : number -> number :=
  match p with
  | PM25 => PredictionController.calculatePM25Index
  | PM10 => PredictionController.calculatePM10Index
  | O3 => PredictionController.calculateO3Index
  | CO => PredictionController.calculateCOIndex
  | SO2 => PredictionController.calculateSO2Index
  | NO2 => PredictionController.calculateNO2Index
  end.

Definition direct_table (p : Pollutant) : list Breakpoints.BreakpointSegment :=
  match p with
  | PM25 => Breakpoints.pm25_table
  | PM10 => Breakpoints.pm10_table
  | O3 => Breakpoints.o3_table
  | CO => Breakpoints.co_table
  | SO2 => Breakpoints.so2_table
  | NO2 => Breakpoints.no2_table
  end.

Definition forecast_table (p : Pollutant) : list Breakpoints.BreakpointSegment :=
  match p with
  | CO => Breakpoints.co_table_forecast
  | other => direct_table other
  end.

(** An index function does not decrease on [[0, infinity)]. *)
Definition nondecreasing (index : number -> number) : Prop :=
  forall c1 c2 : Q, 0 <= c1 -> c1 <= c2 -> (index c1 <=? index c2)%js = true.

(** The same, for a larger concentration that the table covers. *)
Definition nondecreasing_covered (table : list Breakpoints.BreakpointSegment)
    (index : number -> number) : Prop :=
  forall c1 c2 : Q, 0 <= c1 -> c1 <= c2 -> Breakpoints.covered table c2 = true ->
    (index c1 <=? index c2)%js = true.

(** The two pollutants whose tables have a segment steep enough for the
    index to drop in the gap that precedes it. *)
Definition gap_sensitive (p : Pollutant) : bool :=
  match p with
  | O3 | CO => true
  | _ => false
  end.

(** ** Aggregation *)

Definition not_NaN (a : number) : Prop := is_NaN a = false.

(** The sub-indices of exactly the pollutants that are present in the
    reading with a value strictly greater than zero. *)
Definition positive_subindices (index : Pollutant -> number -> number)
    (reading : Pollutants) : list number :=
  omap (fun p =>
          match value_of reading p with
          | Some value => if (value >? 0)%js then Some (index p value) else None
          | None => None
          end)
    all_pollutants.

(** [result] is the maximum of [subindices], and 0 when there is none: it is
    one of them and no other exceeds it. *)
Definition is_aggregate (subindices : list number) (result : number) : Prop :=
  match subindices with
  | [] => result = Num 0
  | _ :: _ =>
      In result subindices
      /\ Forall (fun index => (index <=? result)%js = true) subindices
  end.

(** A pollutant reading of the data model: every value that is present is a
    non-negative finite number. *)
Definition nonneg_reading (reading : Pollutants) : Prop :=
  forall (p : Pollutant) (value : number),
    value_of reading p = Some value -> exists q : Q, value = Num q /\ 0 <= q.

(** The sub-indices of the pollutants that are present, whatever their
    value, taken in a given order. *)
Definition present_subindices (index : Pollutant -> number -> number)
    (reading : Pollutants) (order : list Pollutant) : list number :=
  omap (fun p => index p <$> value_of reading p) order.

(** The forecast point whose six pollutant values and whose AQI are all
    [NaN]. *)
Definition NaN_point : ForecastPoint :=
  {| aqi := NaN;
     pollutants := {| pm25 := Some NaN; pm10 := Some NaN; o3 := Some NaN;
                      no2 := Some NaN; so2 := Some NaN; co := Some NaN |} |}.

(** ** The daily pattern of the specification

    For the hour-of-day bucket [hour] (the points whose index in the window
    is [hour] modulo 24) and the feature [i]: the average, over the points
    of the bucket, of the deviation of the feature from its mean over the
    whole window. *)

Definition sum (values : list number) : number :=
  fold_left add values (Num 0).

Definition feature_mean (window : list (list number)) (i : nat) : number :=
  (sum (map (fun point => PredictionController.entry point i) window) / of_nat (length window))%js.

Definition bucket (window : list (list number)) (hour : nat)
    : list (list number) :=
  omap (fun '(idx, point) => if (idx mod 24 =? hour)%nat then Some point else None)
    (imap pair window).

Definition dailyPattern_spec (window : list (list number)) (hour i : nat)
    : number :=
  let mean := feature_mean window i in
  let points := bucket window hour in
  (sum (map (fun point => (PredictionController.entry point i - mean)%js) points)
   / of_nat (length points))%js.

(** ** Normalization round trip *)

Definition finite (a : number) : Prop := exists q : Q, a = Num q.

(** The series of number vectors as the JSON value the service would send
    back. *)
Definition json_of_series (series : list (list number)) : json :=
  JArr (map (fun point => JArr (map JNum point)) series).

(** [series[k][i]] *)
Definition cell (series : list (list number)) (k i : nat) : option number :=
  series !! k ≫= fun point => point !! i.

(** A series with a negative value: feature 0 runs from -1 to 1. *)
Definition signed_series : list (list number) :=
  [ [Num (-1); Num 0; Num 0; Num 0; Num 0; Num 0];
    [Num 1; Num 0; Num 0; Num 0; Num 0; Num 0] ].

(** ** Predictor failure *)

(** [HF_API_KEY] is truthy. *)
Definition key_present (w : World) : bool :=
  match HUGGINGFACE_API_KEY w with
  | Some key => negb (String.eqb key "")
  | None => false
  end.

(** The [past_values] that [makePrediction] posts for a padded series. *)
Definition past_values (w : World) (processedData : list (list number))
    : list (list number) :=
  match PredictionController.normalizeData processedData with
  | Returns normalizedData =>
      PredictionController.addWeatherFeatures normalizedData
        (fetchOpenWeatherData w)
  | Throws _ => []
  end.

(** The value bound to [predictions] for a response body, if any. *)
Definition predictions_of (data : json) : option json :=
  match data with
  | JArr _ => Some data
  | JObj fields =>
      match get_field "predictions" fields with
      | Some predictions => if truthy predictions then Some predictions else None
      | None => None
      end
  | _ => None
  end.

Definition is_array (v : json) : bool :=
  match v with JArr _ => true | _ => false end.

Definition array_of_arrays (v : json) : bool :=
  match v with
  | JArr points => forallb is_array points
  | _ => false
  end.

(** [originalData[0].length], the number of features that
    [denormalizeData] reads from each vector. *)
Definition feature_count (processedData : list (list number)) : nat :=
  match processedData with
  | [] => 0
  | first :: _ => length first
  end.

(** The minimum and the maximum of feature [i] over the series are equal:
    [mins[i] === maxs[i]]. *)
Definition constant_feature (processedData : list (list number)) (i : nat)
    : bool :=
  let numFeatures := feature_count processedData in
  match PredictionController.column_mins numFeatures processedData !! i,
        PredictionController.column_maxs numFeatures processedData !! i with
  | Some mn, Some mx => (mn === mx)%js
  | _, _ => true
  end.

(** An element of a vector of the response that has to be converted to a
    number (it lies below the feature count, in the column of a feature
    that is not constant) and cannot be: an object with an own property
    [toString], or an array that holds one. *)
Definition unconvertible_element (processedData : list (list number))
    (indexed : nat * json) : bool :=
  let '(i, val) := indexed in
  negb (constant_feature processedData i) && ToString_throws val.

Definition unconvertible_vector (processedData : list (list number))
    (point : json) : bool :=
  match point with
  | JArr vals =>
      existsb (unconvertible_element processedData)
        (imap pair (take (feature_count processedData) vals))
  | _ => false
  end.

Definition unconvertible (processedData : list (list number))
    (predictions : json) : bool :=
  match predictions with
  | JArr points => existsb (unconvertible_vector processedData) points
  | _ => false
  end.

(** The failures the controller falls back on: no API key, a rejected
    request, or a body in which [predictions] is not an array of arrays or
    holds an element that cannot be converted to a number. *)
Definition predictor_failure (w : World) (processedData : list (list number))
    : bool :=
  negb (key_present w)
  || match axios_post w (past_values w processedData) with
     | Rejected => true
     | Resolved data =>
         match predictions_of data with
         | Some predictions =>
             negb (array_of_arrays predictions)
             || unconvertible processedData predictions
         | None => true
         end
     end.

(** The failures as the specification lists them: a transport error, or a
    response that is neither an array nor an object with a [predictions]
    array field. *)
Definition has_predictions_array (data : json) : bool :=
  match data with
  | JObj fields =>
      match get_field "predictions" fields with
      | Some predictions => is_array predictions
      | None => false
      end
  | _ => false
  end.

Definition listed_failure (w : World) (processedData : list (list number))
    : bool :=
  match axios_post w (past_values w processedData) with
  | Rejected => true
  | Resolved data => negb (is_array data || has_predictions_array data)
  end.

(** ** Sample inputs *)

(** The reading in which no pollutant is present. *)
Definition absent_reading : Pollutants :=
  {| pm25 := None; pm10 := None; o3 := None;
     no2 := None; so2 := None; co := None |}.

(** PM2.5 at the concentration of index 45 and O3 at one of index 80. *)
Definition two_pollutants : Pollutants :=
  {| pm25 := Some (Num 10.8); pm10 := None; o3 := Some (Num 64);
     no2 := None; so2 := None; co := None |}.

(** A strictly declining synthetic series of 24 hourly points: every
    feature falls by 4 per hour from 100. *)
Definition declining_series : list (list number) :=
  map (fun k =>
         let v := Num (inject_Z (100 - 4 * Z.of_nat k)) in [v; v; v; v; v; v])
    (seq 0 24).

(** Its first ten points. *)
Definition series_of_length_10 : list (list number) := take 10 declining_series.

Definition steady_clock (hour i : nat) : nat := 13%nat.
Definition steady_random (hour i : nat) : number := Num 0.5.

(** A world without API key, in which every request is rejected. *)
Definition offline : World :=
  {| HUGGINGFACE_API_KEY := None;
     fetchOpenWeatherData := None;
     axios_post := fun _ => Rejected;
     getHours := steady_clock;
     random := steady_random |}.

(** A world whose prediction service answers with the given body. *)
Definition answering (body : json) : World :=
  {| HUGGINGFACE_API_KEY := Some "hf_key";
     fetchOpenWeatherData := None;
     axios_post := fun _ => Resolved body;
     getHours := steady_clock;
     random := steady_random |}.

(** A reading with PM2.5 at 10.0, O3 at 60 and a zero NO2 value. *)
Definition sample_reading : Pollutants :=
  {| pm25 := Some (Num 10.0); pm10 := None; o3 := Some (Num 60);
     no2 := Some (Num 0); so2 := None; co := None |}.


(** * More of the code: callers and helpers *)

(** ** Values with a default *)

(** [x || 0] for [x] a number, [undefined] or [null]: the falsy numbers are
    0 and [NaN]. *)
Definition or_zero (x : option number) : number :=
  match x with
  | Some (Num q) => if Qeq_bool q 0 then Num 0 else Num q
  | Some NaN => Num 0
  | Some other => other
  | None => Num 0
  end.

(** The object [{pm25: r.pm25 || 0, pm10: r.pm10 || 0, ...}] that the
    callers of [calculateAQI] build from the values they received. *)
Definition defaulted (reading : Pollutants) : Pollutants :=
  {| pm25 := Some (or_zero (pm25 reading));
     pm10 := Some (or_zero (pm10 reading));
     o3 := Some (or_zero (o3 reading));
     no2 := Some (or_zero (no2 reading));
     so2 := Some (or_zero (so2 reading));
     co := Some (or_zero (co reading)) |}.

(** [Math.abs] *)
Definition Math_abs (a : number) : number :=
  match a with
  | Num q => if Qle_bool 0 q then Num q else Num (- q)
  | NegInfinity => Infinity
  | other => other
  end.

(** ** The sensor controller: [saveSensorData]

    The fields of [req.body] are JSON numbers or absent. [save] stands for
    [new SensorData(sensorData)] followed by [data.save()], which yields the
    stored document or rejects. *)

Module SensorController.

Record Body : Type := mkBody {
  b_temperature : option number;
  b_humidity : option number;
  b_pm25 : option number;
  b_pm10 : option number;
  b_co : option number;
  b_methane : option number;
  b_airQuality : option number;
  b_o3 : option number;
  b_so2 : option number;
  b_no2 : option number;
  b_nh3 : option number
}.

(** The object [pollutants] passed to [calculateAQI]. *)
Definition pollutants_of (body : Body) : Pollutants :=
  {| pm25 := Some (or_zero (b_pm25 body));
     pm10 := Some (or_zero (b_pm10 body));
     co := Some (or_zero (b_co body));
     o3 := Some (or_zero (b_o3 body));
     so2 := Some (or_zero (b_so2 body));
     no2 := Some (or_zero (b_no2 body)) |}.

Record SensorData : Type := mkSensorData {
  aqi : number;
  temperature : number;
  humidity : number;
  pm25 : number;
  pm10 : number;
  co : number;
  methane : number;
  airQuality : number;
  o3 : number;
  so2 : number;
  no2 : number;
  nh3 : number
}.

(** [res.status(201).json({message, data, aqi})] or
    [res.status(500).json({error, details})] *)
Inductive Response : Type :=
  | Created (data : SensorData) (aqi : number)
  | ServerError.

Definition saveSensorData (save : SensorData -> outcome SensorData)
    (body : Body) : Response :=
  let pollutants := pollutants_of body in
  let calculatedAQI := AqiCalculator.calculateAQI pollutants in
  let sensorData :=
    {| aqi := calculatedAQI;
       temperature := or_zero (b_temperature body);
       humidity := or_zero (b_humidity body);
       pm25 := or_zero (b_pm25 body);
       pm10 := or_zero (b_pm10 body);
       co := or_zero (b_co body);
       methane := or_zero (b_methane body);
       airQuality := or_zero (b_airQuality body);
       o3 := or_zero (b_o3 body);
       so2 := or_zero (b_so2 body);
       no2 := or_zero (b_no2 body);
       nh3 := or_zero (b_nh3 body) |} in
  match save sensorData with
  | Returns data => Created data calculatedAQI
  | Throws _ => ServerError
  end.

End SensorController.

(** ** The weather controller: [getWeatherData] and [getHistoricalData] *)

Module WeatherController.

(** [airPollution.data.list[0].components]: JSON numbers or absent. *)
Record Components : Type := mkComponents {
  pm2_5 : option number;
  pm10 : option number;
  o3 : option number;
  co : option number;
  so2 : option number;
  no2 : option number;
  nh3 : option number
}.

(** The fields of [apiPollutants] that [calculateAQI] reads; [co] is
    [components.co / 1000 || 0], and [undefined / 1000] is [NaN]. *)
Definition apiPollutants (components : Components) : Pollutants :=
  mkPollutants
    (Some (or_zero (pm2_5 components)))
    (Some (or_zero (pm10 components)))
    (Some (or_zero (o3 components)))
    (Some (or_zero (no2 components)))
    (Some (or_zero (so2 components)))
    (Some (or_zero (Some (match co components with
                          | Some value => (value / 1000)%js
                          | None => NaN
                          end)))).

(** [{1: 25, 2: 75, 3: 125, 4: 175, 5: 300}[openWeatherAQI] || 0]: the key
    of a number is its decimal form, so only the numbers 1 to 5 are found. *)
Definition mappedOpenWeatherAQI (openWeatherAQI : option number) : number :=
  match openWeatherAQI with
  | Some (Num q) =>
      if Qeq_bool q 1 then 25
      else if Qeq_bool q 2 then 75
      else if Qeq_bool q 3 then 125
      else if Qeq_bool q 4 then 175
      else if Qeq_bool q 5 then 300
      else 0
  | _ => 0
  end.

(** The statements of [getWeatherData] from [calculatedAQI] to [finalAQI]. *)
Definition finalAQI (components : Components) (openWeatherAQI : option number)
    : number :=
  let calculatedAQI := AqiCalculator.calculateAQI (apiPollutants components) in
  let mappedOpenWeatherAQI := mappedOpenWeatherAQI openWeatherAQI in
  if (Math_abs (calculatedAQI - mappedOpenWeatherAQI) >? 50)%js
  then mappedOpenWeatherAQI
  else calculatedAQI.

(** One document of the query of [getHistoricalData]: [day] is the label
    [new Date(entry.createdAt).toLocaleDateString("en-US", {month: "short",
    day: "numeric"})], such as "Jan 5": a month and a day, never the name of
    a property that an empty object inherits, so [groupedByDay[date]] finds
    only what the loop has stored. *)
Record HistoryEntry : Type := mkHistoryEntry {
  day : string;
  aqi : option number
}.

(** A value of the object [groupedByDay]. *)
Record DayGroup : Type := mkDayGroup {
  count : nat;
  totalAqi : number
}.

(** The body of [data.forEach] on [groupedByDay], an object whose keys keep
    the order in which they were added. *)
Fixpoint group_entry (date : string) (value : number)
    (groupedByDay : list (string * DayGroup)) : list (string * DayGroup) :=
  match groupedByDay with
  | [] => [(date, mkDayGroup 1 value)]
  | (key, group) :: rest =>
      if String.eqb key date
      then (key, mkDayGroup (S (count group)) (totalAqi group + value)%js) :: rest
      else (key, group) :: group_entry date value rest
  end.

Definition groupedByDay (data : list HistoryEntry) : list (string * DayGroup) :=
  fold_left (fun grouped entry => group_entry (day entry) (or_zero (aqi entry)) grouped)
    data [].

(** What [getHistoricalData] sends for the query result [data] ([None] when
    the result is [null]): the list of [{date, aqi}]. *)
Definition getHistoricalData (data : option (list HistoryEntry))
    : list (string * number) :=
  match data with
  | None | Some [] => []
  | Some data =>
      map (fun '(date, group) =>
             (date, Math_round (totalAqi group / of_nat (count group))%js))
        (groupedByDay data)
  end.

End WeatherController.

(** ** The prediction controller: [processSensorData] *)

Module PredictionInput.

(** A document of the sensor collection has the six pollutant fields of
    [Pollutants] among others; the vector is in the order pm25, pm10, o3,
    no2, so2, co. *)
Definition processSensorData (sensorData : list Pollutants)
    : list (list number) :=
  map (fun reading =>
         [ or_zero (pm25 reading); or_zero (pm10 reading); or_zero (o3 reading);
           or_zero (no2 reading); or_zero (so2 reading); or_zero (co reading) ])
    sensorData.

End PredictionInput.

(** ** The email controller: categories *)

Module EmailController.

Definition getAQICategory (aqi : number) : string :=
  if (aqi <=? 50)%js then "Good"
  else if (aqi <=? 100)%js then "Moderate"
  else if (aqi <=? 150)%js then "Unhealthy for Sensitive Groups"
  else if (aqi <=? 200)%js then "Unhealthy"
  else if (aqi <=? 300)%js then "Very Unhealthy"
  else "Hazardous".

Definition getColorForAQI (aqi : number) : string :=
  if (aqi <=? 50)%js then "#00e400"
  else if (aqi <=? 100)%js then "#ffff00"
  else if (aqi <=? 150)%js then "#ff7e00"
  else if (aqi <=? 200)%js then "#ff0000"
  else if (aqi <=? 300)%js then "#8f3f97"
  else "#7e0023".

End EmailController.

(** ** Checks on breakpoint tables *)

Module BreakpointChecks.
Import Breakpoints.

(** Every segment is non-empty and lies strictly below the ones after it. *)
Fixpoint well_separated (table : list BreakpointSegment) : bool :=
  match table with
  | [] => true
  | s :: rest =>
      Qle_bool (concLow s) (concHigh s)
      && forallb (fun t => negb (Qle_bool (concLow t) (concHigh s))) rest
      && well_separated rest
  end.

(** A segment rises from exactly [aqiLow] at [concLow] to exactly [aqiHigh]
    at [concHigh]. *)
Definition ends_ok (s : BreakpointSegment) : bool :=
  rising s
  && Qeq_bool (inject_Z (segment_index s (concLow s))) (aqiLow s)
  && Qeq_bool (inject_Z (segment_index s (concHigh s))) (aqiHigh s).

(** The upper bound of the last segment. *)
Definition table_cap (table : list BreakpointSegment) : Q :=
  match last table with
  | Some s => concHigh s
  | None => 0
  end.

(** The category of a segment: the one of its upper index bound. *)
Definition band_category (s : BreakpointSegment) : string :=
  EmailController.getAQICategory (Num (aqiHigh s)).

(** An index function has no ceiling beyond [cap]: from there on it is at
    least 500, it does not decrease, and it exceeds every bound. *)
Definition no_ceiling (cap : Q) (index : number -> number) : Prop :=
  (forall c1 c2 : Q, cap <= c1 -> c1 <= c2 ->
     (Num 500 <=? index c1)%js = true /\ (index c1 <=? index c2)%js = true)
  /\ (forall bound : Z, exists c : Q,
        cap <= c /\ (index c >? Num (inject_Z bound))%js = true).

(** The index band of a segment. *)
Definition band_of (s : BreakpointSegment) : Q * Q := (aqiLow s, aqiHigh s).

End BreakpointChecks.

(** ** Relations between readings *)

(** [larger] has every value that [reading] has. *)
Definition extends (reading larger : Pollutants) : Prop :=
  forall (p : Pollutant) (value : number),
    value_of reading p = Some value -> value_of larger p = Some value.

(** No CO value of the reading is strictly positive. *)
Definition no_positive_co (reading : Pollutants) : Prop :=
  forall value : number, co reading = Some value -> (value >? 0)%js = false.

(** The six pollutant values of a request body, as received. *)
Definition reading_of (body : SensorController.Body) : Pollutants :=
  {| pm25 := SensorController.b_pm25 body;
     pm10 := SensorController.b_pm10 body;
     o3 := SensorController.b_o3 body;
     no2 := SensorController.b_no2 body;
     so2 := SensorController.b_so2 body;
     co := SensorController.b_co body |}.

(** ** More sample inputs *)

(** A reading with PM2.5 at 10.0 only. *)
Definition pm25_only : Pollutants :=
  {| pm25 := Some (Num 10.0); pm10 := None; o3 := None;
     no2 := None; so2 := None; co := None |}.

Definition NaN_pm10 : Pollutants :=
  {| pm25 := Some (Num 10.0); pm10 := Some NaN; o3 := Some (Num 60);
     no2 := None; so2 := None; co := None |}.

(** ** The daily means of [getHistoricalData], described directly *)

(** The values [entry.aqi || 0] of the entries of one day, in order. *)
Definition day_values (data : list WeatherController.HistoryEntry)
    (date : string) : list number :=
  map (fun entry => or_zero (WeatherController.aqi entry))
    (filter (fun entry => WeatherController.day entry = date) data).

(** The values added up from left to right. *)
Definition total (values : list number) : number :=
  match values with
  | [] => Num 0
  | first :: others => fold_left add others first
  end.

(** [groupedByDay[date]]: the first binding of the key. *)
Fixpoint group_of (date : string)
    (grouped : list (string * WeatherController.DayGroup))
    : option WeatherController.DayGroup :=
  match grouped with
  | [] => None
  | (key, group) :: rest =>
      if String.eqb key date then Some group else group_of date rest
  end.

Definition sample_history : list WeatherController.HistoryEntry :=
  [ WeatherController.mkHistoryEntry "Jan 5" (Some (Num 40));
    WeatherController.mkHistoryEntry "Jan 6" (Some (Num 90));
    WeatherController.mkHistoryEntry "Jan 5" (Some (Num 61));
    WeatherController.mkHistoryEntry "Jan 6" None ].

(** Components of an air-pollution answer: CO is given in micrograms. *)
Definition sample_components : WeatherController.Components :=
  WeatherController.mkComponents
    (Some (Num 10.0)) (Some (Num 30)) (Some (Num 41)) (Some (Num 400))
    (Some (Num 3)) (Some (Num 7)) None.

(** ** Responses of the prediction service *)

(** A vector of the response cut to its first [n] elements. *)
Definition truncated (n : nat) (point : json) : json :=
  match point with
  | JArr vals => JArr (take n vals)
  | other => other
  end.

(** Every element of every vector of the response reads as a finite
    number. *)
Definition finite_leaves (predictions : json) : Prop :=
  forall points, predictions = JArr points ->
    Forall (fun point => forall vals, point = JArr vals ->
                           Forall (fun leaf => exists q : Q,
                                    ToNumber leaf = Returns (Num q)) vals)
      points.

(** The position of a pollutant in a feature vector. *)
Definition feature_index (p : Pollutant) : nat :=
  match p with
  | PM25 => 0 | PM10 => 1 | O3 => 2 | NO2 => 3 | SO2 => 4 | CO => 5
  end%nat.

(** A response of two vectors of three finite numbers. *)
Definition short_vectors : json :=
  JArr [ JArr [JNum (Num 0.5); JNum (Num 0.25); JNum (Num 2)];
         JArr [JNum (Num 1); JNull; JNum (Num (-3))] ].

(** Sensor documents: one complete, one with absent and unusable fields. *)
Definition sample_documents : list Pollutants :=
  [ {| pm25 := Some (Num 12.5); pm10 := Some (Num 30); o3 := Some (Num 41);
       no2 := Some (Num 7); so2 := Some (Num 3); co := Some (Num 0.4) |};
    {| pm25 := None; pm10 := Some NaN; o3 := Some (Num 0);
       no2 := None; so2 := Some (Num 2); co := None |} ].

(** * Binary64 arithmetic

    The properties of [normalizeData] and [denormalizeData] that depend on
    rounding are stated on the arithmetic JavaScript really performs: every
    operation on finite numbers returns the binary64 value nearest to the
    exact result (ties to the even significand), and [Infinity] or
    [-Infinity] when that value lies beyond the largest double. A finite
    double is kept as the rational it denotes; the sign of a zero is not
    kept, so that a quotient by a zero is the one by the positive zero. *)

Module Binary64.

(** [floor (log2 |q|)] of a rational other than 0. *)
Definition ilog2 (q : Q) : Z :=
  let e := (Z.log2 (Z.abs (Qnum q)) - Z.log2 (Zpos (Qden q)))%Z in
  if Qle_bool (2 ^ e) (Qabs q) then e else (e - 1)%Z.

(** The nearest integer, ties to the even one. *)
Definition round_even (q : Q) : Z :=
  let f := Qfloor q in
  match Qcompare (q - inject_Z f) (1 # 2) with
  | Lt => f
  | Gt => (f + 1)%Z
  | Eq => if Z.even f then f else (f + 1)%Z
  end.

(** The exponent of the unit in the last place of the doubles around [q]:
    53 significant bits, and the spacing [2 ^ -1074] of the subnormal
    doubles at least. *)
Definition ulp_exponent (q : Q) : Z := Z.max (ilog2 q - 52) (-1074).

(** The multiple of the unit in the last place nearest to [q]. *)
Definition nearest (q : Q) : Q :=
  let e := ulp_exponent q in
  inject_Z (round_even (q / 2 ^ e)) * 2 ^ e.

(** The double nearest to [q]; a magnitude of [2 ^ 1024] or more after
    rounding overflows. *)
Definition round64 (q : Q) : number :=
  let r := Qred (nearest q) in
  if Qle_bool (2 ^ 1024) (Qabs r)
  then (if Qle_bool 0 q then Infinity else NegInfinity)
  else Num r.

(** The result of an operation, rounded. *)
Definition rounded (a : number) : number :=
  match a with
  | Num q => round64 q
  | other => other
  end.

Definition add (a b : number) : number := rounded (JS.add a b).
Definition sub (a b : number) : number := rounded (JS.sub a b).
Definition mul (a b : number) : number := rounded (JS.mul a b).
Definition div (a b : number) : number := rounded (JS.div a b).

(** A value that a JavaScript number can hold: a double, an infinity or
    [NaN]. *)
Definition double (a : number) : Prop := same (rounded a) a.

(** The callback of the inner [map] of [normalizeData]. *)
Definition normalize_entry (mins maxs : list number) (i : nat) (val : number)
    : number :=
  match mins !! i, maxs !! i with
  | Some mn, Some mx =>
      if (mn === mx)%js then 0 else div (sub val mn) (sub mx mn)
  | _, _ => NaN
  end.

Definition normalizeData (data : list (list number))
    : outcome (list (list number)) :=
  match data with
  | [] => Throws TypeError
  | first :: _ =>
      let numFeatures := length first in
      let mins := PredictionController.column_mins numFeatures data in
      let maxs := PredictionController.column_maxs numFeatures data in
      Returns (map (imap (normalize_entry mins maxs)) data)
  end.

(** The callback of the inner [map] of [denormalizeData]. *)
Definition denormalize_entry (mins maxs : list number) (i : nat) (val : json)
    : outcome number :=
  match mins !! i, maxs !! i with
  | Some mn, Some mx =>
      if (mn === mx)%js then Returns mn
      else
        val ← ToNumber val;
        let denormalized := add (mul val (sub mx mn)) mn in
        Returns (Math_max 0 (Math_min denormalized (mul mx 2)))
  | _, _ => Returns NaN
  end.

Definition denormalizeData (normalizedData : json)
    (originalData : list (list number)) : outcome (list (list number)) :=
  match originalData with
  | [] => Throws TypeError
  | first :: _ =>
      let numFeatures := length first in
      let mins := PredictionController.column_mins numFeatures originalData in
      let maxs := PredictionController.column_maxs numFeatures originalData in
      match normalizedData with
      | JArr points =>
          mapM (fun point =>
                  match point with
                  | JArr vals =>
                      mapM (fun '(i, val) => denormalize_entry mins maxs i val)
                        (imap pair (take numFeatures vals))
                  | _ => Throws TypeError
                  end) points
      | _ => Throws TypeError
      end
  end.

(** A finite double of magnitude at most [2 ^ 1022]: the difference of two
    such values does not overflow, nor does the double of one. *)
Definition moderate (a : number) : Prop :=
  exists q : Q, a = Num q /\ double (Num q) /\ Qabs q <= 2 ^ 1022.

(** The floating tolerance of the round trip for a feature that runs from
    [mn] to [mx]: [2 ^ -50] (eight half units in the last place) of the
    scale of the feature, and four times the spacing of the subnormal
    doubles. *)
Definition tolerance (mn mx : Q) : Q :=
  2 ^ (-50) * Qmax (Qabs mn) (Qabs mx) + 2 ^ (-1072).

(** What [denormalizeData] makes of an element of a vector, [NaN] standing
    for an element that cannot be converted. *)
Definition restored_value (mins maxs : list number) (indexed : nat * json)
    : number :=
  match denormalize_entry mins maxs indexed.1 indexed.2 with
  | Returns y => y
  | Throws _ => NaN
  end.

(** A series of two doubles whose difference overflows. *)
Definition extreme_series : list (list number) :=
  [ [Num (2 ^ 1023)]; [Num (- 2 ^ 1023)] ].

End Binary64.

(** * Arrays as objects

    [makePrediction] receives a reference to the array of the caller, and
    the arrays it works on are objects that statements read and write. To
    state what a call does to the array of the caller, the prediction
    controller is modelled here on a store of arrays: every array
    expression of the source allocates, every assignment to an element,
    [push] and [unshift] writes to the array the source names. An array
    holds numbers or references to other arrays, as the arrays of the
    controller do (a series is an array of points, a point an array of
    numbers). Values are computed as in [PredictionController]. *)

Module Heap.

Definition loc : Type := positive.

Inductive array : Type :=
  | Numbers (values : list number)
  | Rows (points : list loc).

Definition heap : Type := gmap loc array.

(** A computation on the store; an exception leaves the store as it was
    when it was thrown. *)
Definition M (A : Type) : Type := heap -> outcome A * heap.

#[export] Instance M_ret : MRet M := fun A a h => (Returns a, h).
#[export] Instance M_bind : MBind M := fun A B f m h =>
  match m h with
  | (Returns a, h') => f a h'
  | (Throws e, h') => (Throws e, h')
  end.

Definition throw {A : Type} (e : error) : M A := fun h => (Throws e, h).

(** [try { body } catch (error) { handler }] *)
Definition catch {A : Type} (body : M A) (handler : error -> M A) : M A :=
  fun h =>
    match body h with
    | (Throws e, h') => handler e h'
    | done => done
    end.

(** A new array. *)
Definition alloc (content : array) : M loc := fun h =>
  let l := fresh (dom h) in (Returns l, <[l := content]> h).

(** The content of an array, and its replacement. Using an array of
    points where numbers are expected, or the reverse, does not happen on
    the arrays of the controller; it throws. *)
Definition numbers (l : loc) : M (list number) := fun h =>
  match h !! l with
  | Some (Numbers values) => (Returns values, h)
  | _ => (Throws TypeError, h)
  end.

Definition rows (l : loc) : M (list loc) := fun h =>
  match h !! l with
  | Some (Rows points) => (Returns points, h)
  | _ => (Throws TypeError, h)
  end.

Definition store (l : loc) (content : array) : M unit := fun h =>
  (Returns tt, <[l := content]> h).

(** [for (const x of xs) body(x)] on a list of the model. *)
Fixpoint for_each {X : Type} (xs : list X) (body : X -> M unit) : M unit :=
  match xs with
  | [] => mret tt
  | x :: rest => body x ;; for_each rest body
  end.

(** [array[i]] in an arithmetic expression ([undefined] behaves as [NaN]),
    [array[i]] for a point, and [array.length]. *)
Definition number_at (l : loc) (i : nat) : M number :=
  values ← numbers l; mret (default NaN (values !! i)).

Definition row_at (l : loc) (i : nat) : M (option loc) :=
  points ← rows l; mret (points !! i).

Definition length_of_numbers (l : loc) : M nat :=
  values ← numbers l; mret (length values).

Definition length_of_rows (l : loc) : M nat :=
  points ← rows l; mret (length points).

(** [array[i] = value]; an index past the end lengthens the array (the
    loops of the controller reach at most the first index past the end). *)
Definition set_at (l : loc) (i : nat) (value : number) : M unit :=
  values ← numbers l;
  store l (Numbers (if (i <? length values)%nat then <[i := value]> values
                    else values ++ replicate (i - length values) NaN ++ [value])).

Definition push (l : loc) (value : number) : M unit :=
  values ← numbers l; store l (Numbers (values ++ [value])).

Definition unshift (l : loc) (point : loc) : M unit :=
  points ← rows l; store l (Rows (point :: points)).

(** [[...array]] of an array of numbers, and of an array of points. *)
Definition copy_numbers (l : loc) : M loc :=
  values ← numbers l; alloc (Numbers values).

Definition copy_rows (l : loc) : M loc :=
  points ← rows l; alloc (Rows points).

(** [array.forEach((x, i) => callback)]: the length is read once, every
    element when its turn comes. *)
Definition forEach_numbers (l : loc) (callback : number -> nat -> M unit)
    : M unit :=
  len ← length_of_numbers l;
  for_each (seq 0 len)
    (fun i =>
       values ← numbers l;
       match values !! i with
       | Some val => callback val i
       | None => mret tt
       end).

Definition forEach_rows (l : loc) (callback : loc -> nat -> M unit) : M unit :=
  len ← length_of_rows l;
  for_each (seq 0 len)
    (fun i =>
       point ← row_at l i;
       match point with
       | Some point => callback point i
       | None => mret tt
       end).

(** [array.map((x, i) => callback)], the elements of the new array. *)
Definition map_numbers {B : Type} (l : loc) (callback : number -> nat -> M B)
    : M (list B) :=
  len ← length_of_numbers l;
  mapM (fun i =>
          values ← numbers l;
          match values !! i with
          | Some val => callback val i
          | None => throw TypeError
          end)
    (seq 0 len).

Definition map_rows {B : Type} (l : loc) (callback : loc -> nat -> M B)
    : M (list B) :=
  len ← length_of_rows l;
  mapM (fun i =>
          point ← row_at l i;
          match point with
          | Some point => callback point i
          | None => throw TypeError
          end)
    (seq 0 len).

(** The series held by an array of points. *)
Definition read_series (l : loc) : M (list (list number)) :=
  points ← rows l; mapM numbers points.

(** [const mins = ...; const maxs = ...] and the double [forEach] of
    [normalizeData] and [denormalizeData]. *)
Definition fit (data : loc) (numFeatures : nat) : M (loc * loc) :=
  mins ← alloc (Numbers (replicate numFeatures Infinity));
  maxs ← alloc (Numbers (replicate numFeatures NegInfinity));
  forEach_rows data (fun point _ =>
    forEach_numbers point (fun val i =>
      current ← number_at mins i; set_at mins i (Math_min current val);;
      current ← number_at maxs i; set_at maxs i (Math_max current val)));;
  mret (mins, maxs).

(** [data[0].length]; [data[0]] is [undefined] on an empty array. *)
Definition first_length (data : loc) : M nat :=
  first ← row_at data 0;
  match first with
  | Some first => length_of_numbers first
  | None => throw TypeError
  end.

Definition normalizeData (data : loc) : M loc :=
  numFeatures ← first_length data;
  '(mins, maxs) ← fit data numFeatures;
  normalized ←
    map_rows data (fun point _ =>
      entries ←
        map_numbers point (fun val i =>
          mn ← number_at mins i; mx ← number_at maxs i;
          if (mn === mx)%js then mret (Num 0)
          else mret ((val - mn) / (mx - mn))%js);
      alloc (Numbers entries));
  alloc (Rows normalized).

Definition denormalizeData (normalizedData : json) (originalData : loc)
    : M loc :=
  numFeatures ← first_length originalData;
  '(mins, maxs) ← fit originalData numFeatures;
  match normalizedData with
  | JArr points =>
      denormalized ←
        mapM (fun point =>
                match point with
                | JArr vals =>
                    entries ←
                      mapM (fun '(i, val) =>
                              mn ← number_at mins i; mx ← number_at maxs i;
                              if (mn === mx)%js then mret mn
                              else
                                match ToNumber val with
                                | Returns val =>
                                    let denormalized := (val * (mx - mn) + mn)%js in
                                    mret (Math_max 0
                                            (Math_min denormalized (mx * 2)%js))
                                | Throws e => throw e
                                end)
                        (imap pair (take numFeatures vals));
                    alloc (Numbers entries)
                | _ => throw TypeError
                end) points;
      alloc (Rows denormalized)
  | _ => throw TypeError
  end.

(** [result.forEach(point => point.push(x))] *)
Definition push_feature (feature : option number) (scale : number)
    (result : loc) : M unit :=
  match feature with
  | Some x => forEach_rows result (fun point _ => push point (x / scale)%js)
  | None => mret tt
  end.

Definition addWeatherFeatures (data : loc) (weatherData : option WeatherData)
    : M loc :=
  match weatherData with
  | None => mret data
  | Some weatherData =>
      copies ← map_rows data (fun arr _ => copy_numbers arr);
      result ← alloc (Rows copies);
      push_feature (temp weatherData) 100 result;;
      push_feature (humidity weatherData) 100 result;;
      push_feature (wind_speed weatherData) 10 result;;
      mret result
  end.

(** [number - array[i]]: the operand, a point or [undefined], is converted
    to a number through its string form. *)
Definition point_ToNumber (operand : option loc) : M number :=
  match operand with
  | None => mret NaN
  | Some point =>
      values ← numbers point;
      mret (PredictionController.array_ToNumber (Some values))
  end.

Definition extractDailyPatterns (data : loc) : M loc :=
  numPollutants ← first_length data;
  hourly ← mapM (fun _ => alloc (Numbers (replicate numPollutants (Num 0))))
             (seq 0 24);
  hourlyAverages ← alloc (Rows hourly);
  hourlyCount ← alloc (Numbers (replicate 24 (Num 0)));
  forEach_rows data (fun point idx =>
    let hour := (idx mod 24)%nat in
    count ← number_at hourlyCount hour;
    set_at hourlyCount hour (count + 1)%js;;
    forEach_numbers point (fun val i =>
      row ← row_at hourlyAverages hour;
      match row with
      | Some row => total ← number_at row i; set_at row i (total + val)%js
      | None => throw TypeError
      end));;
  patterns ←
    map_rows hourlyAverages (fun hourAvg hour =>
      entries ←
        map_numbers hourAvg (fun total i =>
          count ← number_at hourlyCount hour;
          if (count === 0)%js then mret (Num 0)
          else
            let hourlyAverage := (total / count)%js in
            operand ← row_at hourlyAverages i;
            operand ← point_ToNumber operand;
            mret (hourlyAverage - operand)%js);
      alloc (Numbers entries));
  alloc (Rows patterns).

(** The inner loop of [generateFallbackPrediction] for one [hour]. *)
Definition predict_hour (w : World) (numPollutants : nat)
    (averages trends : loc) (dailyPatterns : option loc) (hour : nat)
    : M ForecastPoint :=
  predictedPollutants ← alloc (Numbers []);
  for_each (seq 0 numPollutants) (fun i =>
    average ← number_at averages i; trend ← number_at trends i;
    let prediction := (average + trend * of_nat hour)%js in
    prediction ←
      match dailyPatterns with
      | Some dailyPatterns =>
          let hourOfDay := ((getHours w hour i + hour) mod 24)%nat in
          row ← row_at dailyPatterns hourOfDay;
          match row with
          | Some row =>
              pattern ← number_at row i; mret (prediction + pattern)%js
          | None => throw TypeError
          end
      | None => mret prediction
      end;
    let variation := (prediction * (random w hour i * 0.1 - 0.05))%js in
    push predictedPollutants (Math_max 0 (prediction + variation)%js));;
  values ← numbers predictedPollutants;
  mret (PredictionController.toForecastPoint values).

Definition generateFallbackPrediction (w : World) (processedData : loc)
    : M (list ForecastPoint) :=
  points ← rows processedData;
  recentData ← alloc (Rows (PredictionController.slice_last 72 points));
  recentLength ← length_of_rows recentData;
  dataToUse ←
    (if (24 <=? recentLength)%nat then mret recentData
     else
       elements ←
         mapM (fun i =>
                 len ← length_of_rows processedData;
                 element ←
                   (if (len =? 0)%nat then mret None
                    else row_at processedData (i mod len)%nat);
                 match element with
                 | Some point => mret point
                 | None => alloc (Numbers PredictionController.zero_vector)
                 end)
           (seq 0 24);
       alloc (Rows elements));
  numPollutants ← first_length dataToUse;
  averages ← alloc (Numbers (replicate numPollutants (Num 0)));
  trends ← alloc (Numbers (replicate numPollutants (Num 0)));
  forEach_rows dataToUse (fun point _ =>
    forEach_numbers point (fun val i =>
      len ← length_of_rows dataToUse;
      average ← number_at averages i;
      set_at averages i (average + val / of_nat len)%js));;
  len ← length_of_rows dataToUse;
  (if (2 <=? len)%nat then
     for_each (seq 1 (len - 1)) (fun i =>
       point ← row_at dataToUse i;
       match point with
       | Some point =>
           forEach_numbers point (fun val j =>
             previous ← row_at dataToUse (i - 1);
             before ←
               match previous with
               | Some previous => number_at previous j
               | None => throw TypeError
               end;
             len ← length_of_rows dataToUse;
             trend ← number_at trends j;
             set_at trends j (trend + (val - before) / of_nat (len - 1))%js)
       | None => throw TypeError
       end)
   else mret tt);;
  len ← length_of_rows dataToUse;
  let hasEnoughData := (24 <=? len)%nat in
  dailyPatterns ←
    (if hasEnoughData
     then patterns ← extractDailyPatterns dataToUse; mret (Some patterns)
     else mret None);
  mapM (predict_hour w numPollutants averages trends dailyPatterns) (seq 0 24).

(** The padding at the head of [makePrediction]. *)
Definition pad (processedData : loc) : M unit :=
  let minRequiredDataPoints := 24%nat in
  len ← length_of_rows processedData;
  if (len <? minRequiredDataPoints)%nat then
    let paddingNeeded := (minRequiredDataPoints - len)%nat in
    paddingValue ←
      (if (0 <? len)%nat then
         first ← row_at processedData 0;
         match first with
         | Some first => mret first
         | None => throw TypeError
         end
       else alloc (Numbers PredictionController.zero_vector));
    for_each (seq 0 paddingNeeded) (fun _ =>
      copy ← copy_numbers paddingValue; unshift processedData copy)
  else mret tt.

(** The [try] block of [makePrediction] after the padding. *)
Definition request_forecast (w : World) (processedData : loc)
    : M (list ForecastPoint) :=
  let weatherData := fetchOpenWeatherData w in
  let HF_API_KEY := HUGGINGFACE_API_KEY w in
  if negb (match HF_API_KEY with
           | Some key => negb (String.eqb key "")
           | None => false
           end)
  then throw (Error "Hugging Face API key missing")
  else
    normalizedData ← normalizeData processedData;
    enhancedInput ← copy_rows normalizedData;
    enhancedInput ←
      match weatherData with
      | Some _ => addWeatherFeatures enhancedInput weatherData
      | None => mret enhancedInput
      end;
    past_values ← read_series enhancedInput;
    match axios_post w past_values with
    | Rejected => throw (Error "Network Error")
    | Resolved data =>
        if negb (truthy data) || negb (typeof_object data)
        then throw (Error "Invalid response format from prediction API")
        else
          predictions ←
            match data with
            | JArr _ => mret data
            | JObj fields =>
                match get_field "predictions" fields with
                | Some predictions =>
                    if truthy predictions then mret predictions
                    else throw (Error "Unrecognized prediction API response format")
                | None => throw (Error "Unrecognized prediction API response format")
                end
            | _ => throw (Error "Unrecognized prediction API response format")
            end;
          denormalizedPredictions ← denormalizeData predictions processedData;
          map_rows denormalizedPredictions (fun pollutants _ =>
            values ← numbers pollutants;
            sliced ← alloc (Numbers (take 6 values));
            clamped ← map_numbers sliced (fun val _ => mret (Math_max 0 val));
            clamped ← alloc (Numbers clamped);
            values ← numbers clamped;
            mret (PredictionController.toForecastPoint values))
    end.

(** The [try] block of [makePrediction]. *)
Definition makePrediction_try (w : World) (processedData : loc)
    : M (list ForecastPoint) :=
  pad processedData;; request_forecast w processedData.

Definition makePrediction (w : World) (processedData : loc)
    : M (list ForecastPoint) :=
  catch (makePrediction_try w processedData)
    (fun error => generateFallbackPrediction w processedData).

(** A series stored as arrays: its points first, then the array that
    holds them. *)
Definition store_series (series : list (list number)) : M loc :=
  points ← mapM (fun values => alloc (Numbers values)) series;
  alloc (Rows points).

(** The array [l] holds the series: references to arrays of numbers. *)
Definition series_at (h : heap) (l : loc) (series : list (list number))
    : Prop :=
  exists points : list loc,
    h !! l = Some (Rows points)
    /\ Forall2 (fun point values => h !! point = Some (Numbers values))
         points series.

(** The arrays of [h] other than [l] are in [h'] as they are in [h]. *)
Definition others_unchanged (l : loc) (h h' : heap) : Prop :=
  forall other : loc,
    other <> l -> is_Some (h !! other) -> h' !! other = h !! other.

(** The arrays at the locations of [D] are in [h'] as they are in [h]. *)
Definition unchanged_on (D : gset loc) (h h' : heap) : Prop :=
  D ⊆ dom h' /\ forall l, l ∈ D -> h' !! l = h !! l.

(** Every array of points of [h] is in [h'] as it is in [h]. *)
Definition rows_kept (h h' : heap) : Prop :=
  forall l points, h !! l = Some (Rows points) -> h' !! l = Some (Rows points).

(** Started in a store that has the locations of [D] and satisfies [P], the
    computation leaves the arrays at [D] and every array of points as they
    are, whether it returns or throws, and when it returns, [Q] holds. *)
Definition triple {A : Type} (D : gset loc) (P : heap -> Prop) (m : M A)
    (Q : A -> heap -> Prop) : Prop :=
  forall h, D ⊆ dom h -> P h ->
    unchanged_on D h (m h).2
    /\ rows_kept h (m h).2
    /\ forall a, (m h).1 = Returns a -> Q a (m h).2.

(** An assertion that depends on the arrays of points only. *)
Definition stable (F : heap -> Prop) : Prop :=
  forall h h', F h -> rows_kept h h' -> F h'.

(** [triple] for an assertion [F] that the computation keeps and a
    property [Q] of what it returns. *)
Definition keeps {A : Type} (D : gset loc) (F : heap -> Prop) (m : M A)
    (Q : A -> Prop) : Prop :=
  triple D F m (fun a h => F h /\ Q a).

(** The store and the array of a series stored in an empty store. *)
Definition stored (series : list (list number)) : loc * heap :=
  match store_series series ∅ with
  | (Returns l, h) => (l, h)
  | (Throws _, h) => (1%positive, h)
  end.

(** What the caller reads from its array after the call. *)
Definition series_after (w : World) (series : list (list number))
    : outcome (list (list number)) :=
  let '(l, h) := stored series in
  (read_series l (makePrediction w l h).2).1.

(** A world with weather data whose prediction service answers with the
    given body. *)
Definition with_weather (body : json) : World :=
  {| HUGGINGFACE_API_KEY := Some "hf_key";
     fetchOpenWeatherData :=
       Some {| temp := Some (Num 30); humidity := Some (Num 70);
               wind_speed := None |};
     axios_post := fun _ => Resolved body;
     getHours := steady_clock;
     random := steady_random |}.

End Heap.

(** * Properties *)

(** ** Numbers *)

Lemma Qsign_nonzero (q : Q) : ~ q == 0 -> Qsign q <> Eq.
Proof.
  unfold Qsign. intros Hq Heq. apply Hq. now apply Qeq_alt.
Qed.

Lemma div_Num (p q : Q) : ~ q == 0 -> (Num p / Num q)%js = Num (p / q).
Proof.
  intros Hq. unfold div. pose proof (Qsign_nonzero q Hq).
  destruct (Qsign q); congruence.
Qed.

Lemma le_Num (p q : Q) : (Num p <=? Num q)%js = true <-> p <= q.
Proof. unfold le. apply Qle_bool_iff. Qed.

Lemma le_of_Z (x y : Z) :
  (Num (inject_Z x) <=? Num (inject_Z y))%js = true <-> (x <= y)%Z.
Proof. rewrite le_Num, <- Zle_Qle. reflexivity. Qed.

(** ** The conditionals of the source are table lookups *)

Section Refinement.
Import Breakpoints.

Lemma linearScale_segment (s : BreakpointSegment) (c : Q) :
  Qeq_bool (concHigh s - concLow s) 0 = false ->
  AqiCalculator.linearScale c (concLow s) (concHigh s) (aqiLow s) (aqiHigh s)
  = Num (inject_Z (segment_index s c)).
Proof.
  intros Hs. apply Qeq_bool_neq in Hs.
  unfold AqiCalculator.linearScale, segment_index.
  change (Num (concHigh s) - Num (concLow s))%js
    with (Num (concHigh s - concLow s)).
  change (Num (aqiHigh s) - Num (aqiLow s))%js
    with (Num (aqiHigh s - aqiLow s)).
  rewrite div_Num by exact Hs. reflexivity.
Qed.

(** Each conditional of an index function is one step of [locate]. *)
Ltac lookup_steps c :=
  unfold indexFor; cbn [locate];
  repeat
    (destruct (Qle_bool c _);
     [ refine (linearScale_segment (mkSegment _ _ _ _) c _); reflexivity | ]);
  refine (linearScale_segment (mkSegment _ _ _ _) c _); reflexivity.

Lemma calculatePM25Index_lookup (c : Q) :
  AqiCalculator.calculatePM25Index c = Num (inject_Z (indexFor pm25_table c)).
Proof.
  unfold AqiCalculator.calculatePM25Index, pm25_table; cbn [le]; lookup_steps c.
Qed.

Lemma calculatePM10Index_lookup (c : Q) :
  AqiCalculator.calculatePM10Index c = Num (inject_Z (indexFor pm10_table c)).
Proof.
  unfold AqiCalculator.calculatePM10Index, pm10_table; cbn [le]; lookup_steps c.
Qed.

Lemma calculateO3Index_lookup (c : Q) :
  AqiCalculator.calculateO3Index c = Num (inject_Z (indexFor o3_table c)).
Proof.
  unfold AqiCalculator.calculateO3Index, o3_table; cbn [le]; lookup_steps c.
Qed.

Lemma calculateCOIndex_lookup (c : Q) :
  AqiCalculator.calculateCOIndex c = Num (inject_Z (indexFor co_table c)).
Proof.
  unfold AqiCalculator.calculateCOIndex, co_table; cbn [le]; lookup_steps c.
Qed.

Lemma calculateSO2Index_lookup (c : Q) :
  AqiCalculator.calculateSO2Index c = Num (inject_Z (indexFor so2_table c)).
Proof.
  unfold AqiCalculator.calculateSO2Index, so2_table; cbn [le]; lookup_steps c.
Qed.

Lemma calculateNO2Index_lookup (c : Q) :
  AqiCalculator.calculateNO2Index c = Num (inject_Z (indexFor no2_table c)).
Proof.
  unfold AqiCalculator.calculateNO2Index, no2_table; cbn [le]; lookup_steps c.
Qed.

Lemma forecast_calculateCOIndex_lookup (c : Q) :
  PredictionController.calculateCOIndex c
  = Num (inject_Z (indexFor co_table_forecast c)).
Proof.
  unfold PredictionController.calculateCOIndex, co_table_forecast; cbn [le].
  change PredictionController.linearScale with AqiCalculator.linearScale.
  lookup_steps c.
Qed.

Lemma direct_index_lookup (p : Pollutant) (c : Q) :
  direct_index p c = Num (inject_Z (indexFor (direct_table p) c)).
Proof.
  destruct p; cbn [direct_index direct_table];
    auto using calculatePM25Index_lookup, calculatePM10Index_lookup,
      calculateO3Index_lookup, calculateCOIndex_lookup,
      calculateSO2Index_lookup, calculateNO2Index_lookup.
Qed.

Lemma forecast_index_lookup (p : Pollutant) (c : Q) :
  forecast_index p c = Num (inject_Z (indexFor (forecast_table p) c)).
Proof.
  destruct p; cbn [forecast_index forecast_table direct_table];
    first [ exact (forecast_calculateCOIndex_lookup c)
          | exact (direct_index_lookup PM25 c)
          | exact (direct_index_lookup PM10 c)
          | exact (direct_index_lookup O3 c)
          | exact (direct_index_lookup SO2 c)
          | exact (direct_index_lookup NO2 c) ].
Qed.

End Refinement.

(** ** Monotonicity of a table lookup *)

Section Monotone.
Import Breakpoints.

Lemma segment_index_mono (s : BreakpointSegment) (c1 c2 : Q) :
  rising s = true -> c1 <= c2 -> (segment_index s c1 <= segment_index s c2)%Z.
Proof.
  unfold rising, segment_index. intros Hs Hc. apply Qle_bool_iff in Hs.
  apply Qfloor_resp_le.
  repeat apply Qplus_le_compat; try apply Qle_refl.
  rewrite (Qmult_comm _ (c1 - concLow s)), (Qmult_comm _ (c2 - concLow s)).
  apply Qmult_le_compat_r; [ | exact Hs ].
  unfold Qminus. apply Qplus_le_compat; [ exact Hc | apply Qle_refl ].
Qed.

Lemma indexFor_head (s : BreakpointSegment) (rest : list BreakpointSegment)
    (c : Q) :
  Qle_bool c (concHigh s) = true -> indexFor (s :: rest) c = segment_index s c.
Proof.
  unfold indexFor. cbn [locate]. intros ->. now destruct rest.
Qed.

Lemma indexFor_tail (s t : BreakpointSegment) (rest : list BreakpointSegment)
    (c : Q) :
  Qle_bool c (concHigh s) = false ->
  indexFor (s :: t :: rest) c = indexFor (t :: rest) c.
Proof.
  unfold indexFor. cbn [locate]. now intros ->.
Qed.

Variable lowpt : BreakpointSegment -> BreakpointSegment -> Q.

(** Past a segment [prev], the lookup never returns less than the index
    at the cap of [prev]. *)
Lemma indexFor_floor (table : list BreakpointSegment) :
  forall (prev : BreakpointSegment) (c : Q),
    table <> [] ->
    chain_ok lowpt prev table = true ->
    above lowpt prev table c = true ->
    (segment_index prev (concHigh prev) <= indexFor table c)%Z.
Proof.
  induction table as [ | t rest IH ]; intros prev c Hne Hok Habove.
  - congruence.
  - cbn [chain_ok] in Hok.
    apply andb_prop in Hok as [Hok Hrest].
    apply andb_prop in Hok as [Hok Hstep].
    apply andb_prop in Hok as [Hrise Hlow].
    apply Z.leb_le in Hstep. apply Qle_bool_iff in Hlow.
    assert (Hhead : Qle_bool (lowpt prev t) c = true ->
                    (segment_index prev (concHigh prev) <= segment_index t c)%Z).
    { intros Hc. apply Qle_bool_iff in Hc.
      etransitivity; [ exact Hstep | now apply segment_index_mono ]. }
    destruct rest as [ | t' rest' ].
    + cbn [above] in Habove. unfold indexFor; cbn [locate]. auto.
    + cbn [above] in Habove.
      destruct (Qle_bool c (concHigh t)) eqn:Hc.
      * rewrite indexFor_head by exact Hc. auto.
      * rewrite indexFor_tail by exact Hc.
        etransitivity; [ exact Hstep | ].
        etransitivity; [ apply (segment_index_mono t _ (concHigh t) Hrise Hlow) | ].
        apply IH; [ discriminate | exact Hrest | exact Habove ].
Qed.

Lemma indexFor_mono (rest : list BreakpointSegment) :
  forall (s : BreakpointSegment) (c1 c2 : Q),
    rising s = true ->
    chain_ok lowpt s rest = true ->
    c1 <= c2 ->
    above_rest lowpt s rest c2 = true ->
    (indexFor (s :: rest) c1 <= indexFor (s :: rest) c2)%Z.
Proof.
  induction rest as [ | t rest' IH ]; intros s c1 c2 Hrise Hok Hc Habove.
  - unfold indexFor; cbn [locate]. now apply segment_index_mono.
  - cbn [above_rest] in Habove.
    destruct (Qle_bool c2 (concHigh s)) eqn:H2.
    + assert (H1 : Qle_bool c1 (concHigh s) = true).
      { apply Qle_bool_iff. apply Qle_bool_iff in H2. now apply Qle_trans with c2. }
      rewrite !indexFor_head by assumption. now apply segment_index_mono.
    + rewrite (indexFor_tail s t rest' c2) by exact H2.
      destruct (Qle_bool c1 (concHigh s)) eqn:H1.
      * rewrite indexFor_head by exact H1. apply Qle_bool_iff in H1.
        etransitivity; [ apply (segment_index_mono s _ (concHigh s) Hrise H1) | ].
        apply indexFor_floor; [ discriminate | exact Hok | exact Habove ].
      * rewrite indexFor_tail by exact H1.
        pose proof Hok as Hok'. cbn [chain_ok] in Hok'.
        apply andb_prop in Hok' as [Hok' Hrest].
        apply andb_prop in Hok' as [Hok' _].
        apply andb_prop in Hok' as [Hriset _].
        apply IH; try assumption.
        unfold above_rest. cbn [above] in Habove.
        destruct rest' as [ | t' rest'' ]; [ reflexivity | ].
        destruct (Qle_bool c2 (concHigh t)); [ reflexivity | exact Habove ].
Qed.

End Monotone.

Section Coverage.
Import Breakpoints.

(** With [from_cap], the side condition holds for every concentration past
    the cap of the previous segment. *)
Lemma above_from_cap (table : list BreakpointSegment) :
  forall (prev : BreakpointSegment) (c : Q),
    Qle_bool c (concHigh prev) = false -> above from_cap prev table c = true.
Proof.
  induction table as [ | t rest IH ]; intros prev c Hc; [ reflexivity | ].
  assert (Hcap : Qle_bool (from_cap prev t) c = true).
  { unfold from_cap. apply Qle_bool_iff. apply Qlt_le_weak, Qnot_le_lt.
    intros Hle. apply Qle_bool_iff in Hle. congruence. }
  cbn [above]. destruct rest as [ | t' rest' ]; [ exact Hcap | ].
  destruct (Qle_bool c (concHigh t)) eqn:Ht; [ exact Hcap | now apply IH ].
Qed.

Lemma above_rest_from_cap (s : BreakpointSegment)
    (rest : list BreakpointSegment) (c : Q) :
  above_rest from_cap s rest c = true.
Proof.
  unfold above_rest. destruct rest; [ reflexivity | ].
  destruct (Qle_bool c (concHigh s)) eqn:Hc; [ reflexivity | ].
  now apply above_from_cap.
Qed.

(** With [from_low], it holds for the covered concentrations. *)
Lemma above_from_low (table : list BreakpointSegment) :
  forall (prev : BreakpointSegment) (c : Q),
    covered table c = true -> above from_low prev table c = true.
Proof.
  induction table as [ | t rest IH ]; intros prev c; [ reflexivity | ].
  unfold covered. cbn [locate above].
  destruct rest as [ | t' rest' ]; [ auto | ].
  destruct (Qle_bool c (concHigh t)); [ auto | ].
  intros Hc. now apply IH.
Qed.

Lemma above_rest_from_low (s : BreakpointSegment)
    (rest : list BreakpointSegment) (c : Q) :
  covered (s :: rest) c = true -> above_rest from_low s rest c = true.
Proof.
  unfold above_rest, covered. cbn [locate].
  destruct rest as [ | t rest' ]; [ reflexivity | ].
  destruct (Qle_bool c (concHigh s)); [ reflexivity | ].
  intros Hc. now apply above_from_low.
Qed.

Lemma table_ok_mono (lowpt : BreakpointSegment -> BreakpointSegment -> Q)
    (s : BreakpointSegment) (rest : list BreakpointSegment) (c1 c2 : Q) :
  table_ok lowpt (s :: rest) = true ->
  c1 <= c2 ->
  above_rest lowpt s rest c2 = true ->
  (indexFor (s :: rest) c1 <= indexFor (s :: rest) c2)%Z.
Proof.
  cbn [table_ok]. intros Hok. apply andb_prop in Hok as [Hrise Hchain].
  now apply indexFor_mono.
Qed.

End Coverage.

(** ** The per-pollutant index functions *)

Section IndexClaims.
Import Breakpoints.

Lemma direct_table_ok_from_low (p : Pollutant) :
  table_ok from_low (direct_table p) = true.
Proof. destruct p; vm_compute; reflexivity. Qed.

Lemma forecast_table_ok_from_low (p : Pollutant) :
  table_ok from_low (forecast_table p) = true.
Proof. destruct p; vm_compute; reflexivity. Qed.

Lemma direct_table_ok_from_cap (p : Pollutant) :
  gap_sensitive p = false -> table_ok from_cap (direct_table p) = true.
Proof. destruct p; intros Hp; try discriminate Hp; vm_compute; reflexivity. Qed.

Lemma direct_table_cons (p : Pollutant) :
  exists s rest, direct_table p = s :: rest.
Proof. destruct p; eexists; eexists; reflexivity. Qed.

Lemma forecast_table_cons (p : Pollutant) :
  exists s rest, forecast_table p = s :: rest.
Proof. destruct p; eexists; eexists; reflexivity. Qed.

(** On covered concentrations every lookup is monotone, in both copies of
    the tables. *)
Lemma direct_lookup_mono_covered (p : Pollutant) (c1 c2 : Q) :
  c1 <= c2 -> covered (direct_table p) c2 = true ->
  (indexFor (direct_table p) c1 <= indexFor (direct_table p) c2)%Z.
Proof.
  intros Hc Hcov. pose proof (direct_table_ok_from_low p) as Hok.
  destruct (direct_table_cons p) as (s & rest & Htable).
  rewrite Htable in *.
  apply (table_ok_mono from_low); auto using above_rest_from_low.
Qed.

Lemma forecast_lookup_mono_covered (p : Pollutant) (c1 c2 : Q) :
  c1 <= c2 -> covered (forecast_table p) c2 = true ->
  (indexFor (forecast_table p) c1 <= indexFor (forecast_table p) c2)%Z.
Proof.
  intros Hc Hcov. pose proof (forecast_table_ok_from_low p) as Hok.
  destruct (forecast_table_cons p) as (s & rest & Htable).
  rewrite Htable in *.
  apply (table_ok_mono from_low); auto using above_rest_from_low.
Qed.

Lemma direct_lookup_mono (p : Pollutant) (c1 c2 : Q) :
  gap_sensitive p = false -> c1 <= c2 ->
  (indexFor (direct_table p) c1 <= indexFor (direct_table p) c2)%Z.
Proof.
  intros Hp Hc. pose proof (direct_table_ok_from_cap p Hp) as Hok.
  destruct (direct_table_cons p) as (s & rest & Htable).
  rewrite Htable in *.
  apply (table_ok_mono from_cap); auto using above_rest_from_cap.
Qed.

(** C8. The PM2.5 index function of aqiCalculator.js maps concentration
    12.0 to index 50, concentration 35.4 to index 100 and concentration 0 to
    index 0; for every finite concentration its value is
    [round(((aqiHigh-aqiLow)/(concHigh-concLow)) * (c-concLow) + aqiLow)]
    over the segment of the PM2.5 table that the lookup finds for the
    concentration. *)
Theorem calculatePM25Index_values_and_formula :
  AqiCalculator.calculatePM25Index 12.0 = 50
  /\ AqiCalculator.calculatePM25Index 35.4 = 100
  /\ AqiCalculator.calculatePM25Index 0 = 0
  /\ forall c : Q, exists s : BreakpointSegment,
       locate pm25_table c = Some s
       /\ AqiCalculator.calculatePM25Index c
          = Math_round
              (((Num (aqiHigh s) - Num (aqiLow s))
                / (Num (concHigh s) - Num (concLow s)))
               * (Num c - Num (concLow s)) + Num (aqiLow s))%js.
Proof.
  repeat split; try reflexivity.
  intros c. unfold AqiCalculator.calculatePM25Index, pm25_table.
  cbn [le locate].
  repeat (destruct (Qle_bool c _); [ eexists; split; reflexivity | ]).
  eexists; split; reflexivity.
Qed.

(** C7, evaluated on the code. The index functions of the two paths are the
    same for PM2.5, PM10, O3, SO2 and NO2 on every number, but the two CO
    index functions use different tables: at 1.0 ppm the direct-reading
    path gives 50 and the forecast path gives 11. *)
Theorem calculateCOIndex_differs_between_paths :
  (forall x : number,
     AqiCalculator.calculatePM25Index x = PredictionController.calculatePM25Index x
     /\ AqiCalculator.calculatePM10Index x = PredictionController.calculatePM10Index x
     /\ AqiCalculator.calculateO3Index x = PredictionController.calculateO3Index x
     /\ AqiCalculator.calculateSO2Index x = PredictionController.calculateSO2Index x
     /\ AqiCalculator.calculateNO2Index x = PredictionController.calculateNO2Index x)
  /\ AqiCalculator.calculateCOIndex 1.0 = 50
  /\ PredictionController.calculateCOIndex 1.0 = 11.
Proof.
  split; [ intros x; repeat split; reflexivity | split; reflexivity ].
Qed.

(** C10, counterexample. Just above the cap of the first O3 segment the
    index drops: 54 ppb has index 50 and 54.1 ppb has index 48, so the O3
    index function is not monotone on [[0, infinity)]. *)
Lemma calculateO3Index_drops_after_cap :
  AqiCalculator.calculateO3Index 54 = 50
  /\ AqiCalculator.calculateO3Index 54.1 = 48
  /\ ~ nondecreasing (direct_index O3).
Proof.
  split; [ reflexivity | split; [ reflexivity | ] ].
  intros Hmono. specialize (Hmono 54 54.1).
  assert (H : (direct_index O3 54 <=? direct_index O3 54.1)%js = false)
    by reflexivity.
  rewrite Hmono in H; [ discriminate H | discriminate | discriminate ].
Qed.

(** The CO index function of aqiCalculator.js drops in the same way. *)
Lemma calculateCOIndex_drops_after_cap :
  AqiCalculator.calculateCOIndex 1.0 = 50
  /\ AqiCalculator.calculateCOIndex 1.01 = 46.
Proof. split; reflexivity. Qed.

(** C10, amended. On the direct-reading path the index functions of PM2.5,
    PM10, SO2 and NO2 are non-decreasing on [[0, infinity)], gaps included;
    those of O3 and CO are non-decreasing towards every concentration that
    their table covers (one that is not in a gap between the upper bound of
    a segment and the lower bound of the next). *)
Theorem direct_index_nondecreasing (p : Pollutant) (c1 c2 : Q) :
  0 <= c1 -> c1 <= c2 ->
  (gap_sensitive p = true -> covered (direct_table p) c2 = true) ->
  (direct_index p c1 <=? direct_index p c2)%js = true.
Proof.
  intros _ Hc Hcov. rewrite !direct_index_lookup. apply le_of_Z.
  destruct (gap_sensitive p) eqn:Hp.
  - apply direct_lookup_mono_covered; auto.
  - apply direct_lookup_mono; auto.
Qed.

Lemma direct_index_nondecreasing_witness :
  (direct_index PM25 12.0 <=? direct_index PM25 12.05)%js = true
  /\ (direct_index O3 54.1 <=? direct_index O3 55)%js = true.
Proof.
  split.
  - apply (direct_index_nondecreasing PM25 12.0 12.05);
      [ discriminate | discriminate | intros H; discriminate H ].
  - apply (direct_index_nondecreasing O3 54.1 55);
      [ discriminate | discriminate | intros _; reflexivity ].
Defined.

End IndexClaims.

(** ** Aggregation over a reading *)

Section MaxSpread.

Lemma le_total (a b : number) :
  not_NaN a -> not_NaN b -> (a <=? b)%js = false -> (b <=? a)%js = true.
Proof.
  unfold not_NaN.
  destruct a as [p | | | ], b as [q | | | ]; cbn; try congruence.
  intros _ _ Hle. apply Qle_bool_iff. apply Qlt_le_weak, Qnot_le_lt.
  intros H. apply Qle_bool_iff in H. congruence.
Qed.

Lemma le_refl (a : number) : not_NaN a -> (a <=? a)%js = true.
Proof.
  unfold not_NaN. destruct a as [p | | | ]; cbn; try congruence.
  intros _. apply Qle_bool_iff, Qle_refl.
Qed.

Lemma le_trans (a b c : number) :
  (a <=? b)%js = true -> (b <=? c)%js = true -> (a <=? c)%js = true.
Proof.
  destruct a as [p | | | ], b as [q | | | ], c as [r | | | ]; cbn;
    try congruence.
  rewrite !Qle_bool_iff. apply Qle_trans.
Qed.

Lemma Math_max_cases (a b : number) :
  not_NaN a -> not_NaN b ->
  (Math_max a b = a \/ Math_max a b = b)
  /\ (a <=? Math_max a b)%js = true
  /\ (b <=? Math_max a b)%js = true.
Proof.
  intros Ha Hb.
  assert (Hmax : Math_max a b = if (a <=? b)%js then b else a)
    by (unfold not_NaN in *; destruct a, b; cbn in *; congruence).
  rewrite Hmax. destruct (a <=? b)%js eqn:Hle.
  - auto using le_refl.
  - auto using le_refl, le_total.
Qed.

Lemma fold_Math_max (l : list number) :
  forall a : number,
    not_NaN a -> Forall not_NaN l ->
    let m := fold_left Math_max l a in
    (m = a \/ In m l)
    /\ (a <=? m)%js = true
    /\ Forall (fun x => (x <=? m)%js = true) l.
Proof.
  induction l as [ | x l IH ]; intros a Ha Hl; cbn.
  - auto using le_refl.
  - apply Forall_cons in Hl as [Hx Hl].
    destruct (Math_max_cases a x Ha Hx) as (Hcase & Hale & Hxle).
    assert (Hm : not_NaN (Math_max a x))
      by (destruct Hcase as [-> | ->]; assumption).
    destruct (IH (Math_max a x) Hm Hl) as (Hin & Hle & Hall).
    repeat split.
    + destruct Hin as [Hin | Hin]; [ | auto ].
      rewrite Hin. destruct Hcase as [-> | ->]; auto.
    + eauto using le_trans.
    + constructor; eauto using le_trans.
Qed.

(** [Math.max(...l)] of a non-empty list without [NaN] is its maximum. *)
Lemma Math_max_spread_is_max (l : list number) :
  l <> [] -> Forall not_NaN l ->
  In (Math_max_spread l) l
  /\ Forall (fun x => (x <=? Math_max_spread l)%js = true) l.
Proof.
  intros Hne Hl. unfold Math_max_spread.
  destruct (fold_Math_max l NegInfinity eq_refl Hl) as (Hin & _ & Hall).
  split; [ | exact Hall ].
  destruct Hin as [Heq | Hin]; [ | exact Hin ].
  destruct l as [ | x l ]; [ congruence | ].
  apply Forall_cons in Hall as [Hx _]. rewrite Heq in *.
  left. destruct x; cbn in Hx; congruence.
Qed.

End MaxSpread.

Section Aggregate.
Import Breakpoints.

Lemma indexFor_lower (b : Z) (table : list BreakpointSegment) :
  forall (prev : BreakpointSegment) (c : Q),
    table <> [] ->
    floor_ok b prev table = true ->
    Qle_bool c (concHigh prev) = false ->
    (b <= indexFor table c)%Z.
Proof.
  induction table as [ | t rest IH ]; intros prev c Hne Hok Hc; [ congruence | ].
  cbn [floor_ok] in Hok.
  apply andb_prop in Hok as [Hok Hrest]. apply andb_prop in Hok as [Hrise Hb].
  apply Z.leb_le in Hb.
  assert (Hhead : (b <= segment_index t c)%Z).
  { etransitivity; [ exact Hb | ]. apply segment_index_mono; [ exact Hrise | ].
    apply Qlt_le_weak, Qnot_le_lt. intros H. apply Qle_bool_iff in H. congruence. }
  destruct rest as [ | t' rest' ].
  - exact Hhead.
  - destruct (Qle_bool c (concHigh t)) eqn:Ht.
    + now rewrite indexFor_head.
    + rewrite indexFor_tail by exact Ht.
      apply (IH t); [ discriminate | | ]; assumption.
Qed.

Lemma forecast_lookup_nonneg (p : Pollutant) (c : Q) :
  0 <= c -> (0 <= indexFor (forecast_table p) c)%Z.
Proof.
  intros Hc.
  assert (Hok : exists s rest, forecast_table p = s :: rest
                  /\ rising s = true /\ (0 <= segment_index s 0)%Z
                  /\ floor_ok 0 s rest = true).
  { destruct p; eexists; eexists; (split; [ reflexivity | ]);
      vm_compute; repeat split; congruence. }
  destruct Hok as (s & rest & -> & Hrise & Hzero & Hfloor).
  assert (Hhead : (0 <= segment_index s c)%Z)
    by (etransitivity; [ exact Hzero | now apply segment_index_mono ]).
  destruct rest as [ | t rest' ]; [ exact Hhead | ].
  destruct (Qle_bool c (concHigh s)) eqn:Hs.
  - now rewrite indexFor_head.
  - rewrite indexFor_tail by exact Hs.
    apply (indexFor_lower 0 (t :: rest') s); [ discriminate | | ]; assumption.
Qed.

(** A concentration that is at most 0 has index at most 0. *)
Lemma forecast_lookup_nonpos (p : Pollutant) (c : Q) :
  c <= 0 -> (indexFor (forecast_table p) c <= 0)%Z.
Proof.
  intros Hc.
  assert (Hzero : indexFor (forecast_table p) 0 = 0%Z)
    by (destruct p; reflexivity).
  assert (Hcov : covered (forecast_table p) 0 = true)
    by (destruct p; reflexivity).
  pose proof (forecast_lookup_mono_covered p c 0 Hc Hcov) as Hle.
  now rewrite Hzero in Hle.
Qed.

Lemma push_index_app (guard : number -> bool) (index : number -> number)
    (field : option number) (indices : list number) :
  push_index guard index field indices
  = indices ++ match field with
               | Some value => if guard value then [index value] else []
               | None => []
               end.
Proof.
  unfold push_index. destruct field as [ value | ];
    [ destruct (guard value) | ]; now rewrite ?app_nil_r.
Qed.

Lemma direct_indices_positive (reading : Pollutants) :
  AqiCalculator.indices reading = positive_subindices direct_index reading.
Proof.
  unfold AqiCalculator.indices, positive_subindices, all_pollutants.
  rewrite !push_index_app. cbn [omap list_omap value_of direct_index app].
  unfold AqiCalculator.measured.
  destruct (pm25 reading) as [ v1 | ]; [ destruct (v1 >? 0)%js | ];
  (destruct (pm10 reading) as [ v2 | ]; [ destruct (v2 >? 0)%js | ]);
  (destruct (o3 reading) as [ v3 | ]; [ destruct (v3 >? 0)%js | ]);
  (destruct (co reading) as [ v4 | ]; [ destruct (v4 >? 0)%js | ]);
  (destruct (so2 reading) as [ v5 | ]; [ destruct (v5 >? 0)%js | ]);
  (destruct (no2 reading) as [ v6 | ]; [ destruct (v6 >? 0)%js | ]);
  reflexivity.
Qed.

Lemma forecast_indices_present (reading : Pollutants) :
  PredictionController.indices reading
  = present_subindices forecast_index reading [PM25; O3; PM10; CO; SO2; NO2].
Proof.
  unfold PredictionController.indices, present_subindices.
  rewrite !push_index_app. cbn [omap list_omap value_of forecast_index app].
  unfold PredictionController.present.
  destruct (pm25 reading), (o3 reading), (pm10 reading), (co reading),
    (so2 reading), (no2 reading); reflexivity.
Qed.

Lemma direct_index_not_NaN (p : Pollutant) (value : number) :
  (value >? 0)%js = true -> not_NaN (direct_index p value).
Proof.
  destruct value as [ q | | | ]; intros Hpos; try discriminate Hpos.
  - rewrite direct_index_lookup. reflexivity.
  - destruct p; reflexivity.
Qed.

Lemma all_pollutants_complete (p : Pollutant) : p ∈ all_pollutants.
Proof. apply list_elem_of_In. destruct p; cbn; auto 10. Qed.

Lemma positive_subindices_elem (index : Pollutant -> number -> number)
    (reading : Pollutants) (x : number) :
  x ∈ positive_subindices index reading
  <-> exists p value, value_of reading p = Some value
                      /\ (value >? 0)%js = true /\ x = index p value.
Proof.
  unfold positive_subindices. rewrite list_elem_of_omap. split.
  - intros (p & _ & Hp). destruct (value_of reading p) as [ value | ] eqn:Hv;
      [ | discriminate ].
    destruct (value >? 0)%js eqn:Hpos; [ | discriminate ].
    exists p, value. now inversion Hp.
  - intros (p & value & Hv & Hpos & ->). exists p.
    split; [ apply all_pollutants_complete | ]. now rewrite Hv, Hpos.
Qed.

Lemma present_subindices_elem (index : Pollutant -> number -> number)
    (reading : Pollutants) (order : list Pollutant) (x : number) :
  x ∈ present_subindices index reading order ->
  exists p value, value_of reading p = Some value /\ x = index p value.
Proof.
  unfold present_subindices. rewrite list_elem_of_omap.
  intros (p & _ & Hp). destruct (value_of reading p) as [ value | ] eqn:Hv;
    [ | discriminate ].
  exists p, value. now inversion Hp.
Qed.

Lemma present_subindices_intro (index : Pollutant -> number -> number)
    (reading : Pollutants) (order : list Pollutant) (p : Pollutant)
    (value : number) :
  p ∈ order -> value_of reading p = Some value ->
  index p value ∈ present_subindices index reading order.
Proof.
  intros Hp Hv. unfold present_subindices. apply list_elem_of_omap.
  exists p. split; [ exact Hp | now rewrite Hv ].
Qed.

Lemma direct_aggregate (reading : Pollutants) :
  is_aggregate (positive_subindices direct_index reading)
    (AqiCalculator.calculateAQI reading).
Proof.
  unfold AqiCalculator.calculateAQI. rewrite direct_indices_positive.
  destruct (positive_subindices direct_index reading) as [ | x l ] eqn:Hsubs;
    [ reflexivity | ].
  cbn [length Nat.ltb Nat.leb is_aggregate].
  apply Math_max_spread_is_max; [ discriminate | ].
  rewrite <- Hsubs. apply Forall_forall. intros y Hy.
  apply positive_subindices_elem in Hy as (p & value & _ & Hpos & ->).
  now apply direct_index_not_NaN.
Qed.

Lemma forecast_aggregate (reading : Pollutants) :
  nonneg_reading reading ->
  is_aggregate (positive_subindices forecast_index reading)
    (PredictionController.calculateAQIFromPollutants reading).
Proof.
  intros Hreading. unfold PredictionController.calculateAQIFromPollutants.
  rewrite forecast_indices_present.
  set (every := present_subindices forecast_index reading
                  [PM25; O3; PM10; CO; SO2; NO2]).
  set (subs := positive_subindices forecast_index reading).
  assert (Hsubs : forall x, x ∈ subs ->
            x ∈ every /\ exists z, x = Num (inject_Z z) /\ (0 <= z)%Z).
  { intros x Hx. apply positive_subindices_elem in Hx
      as (p & value & Hv & Hpos & ->).
    split.
    - apply present_subindices_intro; [ | exact Hv ].
      apply list_elem_of_In. destruct p; cbn; auto 10.
    - destruct (Hreading p value Hv) as (q & -> & Hq).
      rewrite forecast_index_lookup. eexists; split; [ reflexivity | ].
      now apply forecast_lookup_nonneg. }
  assert (Hevery : forall x, x ∈ every -> x ∈ subs \/ x = Num 0).
  { intros x Hx. apply present_subindices_elem in Hx as (p & value & Hv & ->).
    destruct (value >? 0)%js eqn:Hpos.
    - left. apply positive_subindices_elem. eauto.
    - right. destruct (Hreading p value Hv) as (q & -> & Hq).
      rewrite forecast_index_lookup.
      assert (Hle : q <= 0).
      { cbn in Hpos. apply negb_false_iff in Hpos. now apply Qle_bool_iff. }
      pose proof (forecast_lookup_nonneg p q Hq).
      pose proof (forecast_lookup_nonpos p q Hle).
      replace (indexFor (forecast_table p) q) with 0%Z by lia. reflexivity. }
  assert (Hnan : Forall not_NaN every).
  { apply Forall_forall. intros x Hx.
    apply Hevery in Hx as [Hx | ->]; [ | reflexivity ].
    apply Hsubs in Hx as (_ & z & -> & _). reflexivity. }
  destruct every as [ | e every' ] eqn:Hev.
  - destruct subs as [ | s subs' ]; [ reflexivity | ].
    destruct (Hsubs s) as (Hin & _); [ left | ]. inversion Hin.
  - cbn [length Nat.ltb Nat.leb].
    destruct (Math_max_spread_is_max (e :: every')) as (Hin & Hmax);
      [ discriminate | exact Hnan | ].
    rewrite <- list_elem_of_In in Hin.
    set (result := Math_max_spread (e :: every')) in *.
    rewrite Forall_forall in Hmax.
    destruct subs as [ | s subs' ] eqn:Hs.
    + apply Hevery in Hin as [Hin | Hin]; [ inversion Hin | exact Hin ].
    + split.
      * apply Hevery in Hin as [Hin | Hin]; [ now apply list_elem_of_In | ].
        destruct (Hsubs s) as (Hs_in & z & Hz & Hz0); [ left | ].
        pose proof (Hmax s Hs_in) as Hle.
        rewrite Hin, Hz in Hle. change (Num 0) with (Num (inject_Z 0)) in Hle.
        apply le_of_Z in Hle. left. rewrite Hin, Hz.
        replace z with 0%Z by lia. reflexivity.
      * apply Forall_forall. intros x Hx. now apply Hmax, Hsubs.
Qed.

(** C1, counterexample. The forecast path does not follow the inclusion
    rule on every reading: [calculateAQIFromPollutants] tests presence only
    ([!== undefined && !== null]). On the reading whose six values are [NaN],
    which the fallback forecaster passes to it, no pollutant is present with
    a value greater than zero, and it returns [NaN] instead of 0; on a
    reading with the single value -5 it returns the index -21 of that
    value. *)
Lemma forecast_path_indexes_every_present_value :
  let unmeasured := pollutants NaN_point in
  let negative := {| pm25 := Some (Num (-5)); pm10 := None; o3 := None;
                     no2 := None; so2 := None; co := None |} in
  positive_subindices forecast_index unmeasured = []
  /\ PredictionController.calculateAQIFromPollutants unmeasured = NaN
  /\ ~ is_aggregate (positive_subindices forecast_index unmeasured)
        (PredictionController.calculateAQIFromPollutants unmeasured)
  /\ positive_subindices forecast_index negative = []
  /\ PredictionController.calculateAQIFromPollutants negative = Num (-21)
  /\ ~ is_aggregate (positive_subindices forecast_index negative)
        (PredictionController.calculateAQIFromPollutants negative).
Proof.
  cbv zeta. repeat split; try reflexivity; cbn; discriminate.
Qed.



(** The maximum, not the sum or the average: sub-indices 45 and 80 give 80
    on both paths; and an all-absent reading gives 0. *)
Example aggregate_of_two_pollutants :
  direct_index PM25 10.8 = 45 /\ direct_index O3 64 = 80
  /\ AqiCalculator.calculateAQI two_pollutants = 80
  /\ PredictionController.calculateAQIFromPollutants two_pollutants = 80.
Proof. repeat split; reflexivity. Qed.

Example aggregate_of_absent_reading :
  AqiCalculator.calculateAQI absent_reading = 0
  /\ PredictionController.calculateAQIFromPollutants absent_reading = 0.
Proof. split; reflexivity. Qed.

(** Outside the data model the two paths part: a negative value is left out
    by [calculateAQI] and indexed by [calculateAQIFromPollutants]. *)
Remark negative_value_is_indexed_on_forecast_path :
  let reading := {| pm25 := Some (Num (-5)); pm10 := None; o3 := None;
                    no2 := None; so2 := None; co := None |} in
  AqiCalculator.calculateAQI reading = 0
  /\ PredictionController.calculateAQIFromPollutants reading = Num (-21).
Proof. split; reflexivity. Qed.

End Aggregate.

(** ** The fallback forecaster *)

Section Outcomes.

Lemma mapM_Returns {A B : Type} (f : A -> outcome B) (g : A -> B)
    (l : list A) :
  (forall x, x ∈ l -> f x = Returns (g x)) -> mapM f l = Returns (map g l).
Proof.
  induction l as [ | x l IH ]; intros Hf; [ reflexivity | ].
  cbn [mapM map]. rewrite Hf by left. cbn.
  rewrite IH by (intros y Hy; apply Hf; now right). reflexivity.
Qed.

Lemma mapM_total {A B : Type} (f : A -> outcome B) (l : list A) :
  (forall x, x ∈ l -> exists y, f x = Returns y) ->
  exists ys, mapM f l = Returns ys /\ length ys = length l.
Proof.
  induction l as [ | x l IH ]; intros Hf; [ now exists [] | ].
  destruct (Hf x) as (y & Hy); [ left | ].
  destruct IH as (ys & Hys & Hlen); [ intros z Hz; apply Hf; now right | ].
  exists (y :: ys). cbn [mapM]. rewrite Hy. cbn. rewrite Hys. cbn.
  split; [ reflexivity | now rewrite Hlen ].
Qed.

(** [mapM] throws exactly when the callback throws on some element. *)
Lemma mapM_throws {A B : Type} (f : A -> outcome B) (l : list A) :
  throws (mapM f l) = existsb (fun x => throws (f x)) l.
Proof.
  induction l as [ | x l IH ]; [ reflexivity | ].
  cbn [mapM existsb]. destruct (f x) as [ y | e ]; cbn; [ | reflexivity ].
  rewrite <- IH. now destruct (mapM f l).
Qed.

Lemma mapM_Forall2 {A B : Type} (f : A -> outcome B) (l : list A) :
  forall ys, mapM f l = Returns ys -> Forall2 (fun x y => f x = Returns y) l ys.
Proof.
  induction l as [ | x l IH ]; intros ys; cbn [mapM].
  - intros [= <-]. constructor.
  - destruct (f x) as [ y | e ] eqn:Hx; [ | discriminate ]. cbn.
    destruct (mapM f l) as [ others | e ]; [ | discriminate ]. cbn.
    intros [= <-]. constructor; auto.
Qed.

End Outcomes.

Section Fallback.
Import PredictionController.
Local Open Scope nat_scope.

Lemma add_NaN_r (a : number) : (a + NaN)%js = NaN.
Proof. now destruct a. Qed.

Lemma sub_NaN_r (a : number) : (a - NaN)%js = NaN.
Proof. now destruct a. Qed.

Lemma length_forEach_update (f : nat -> number -> number -> number)
    (point : list number) :
  forall (i : nat) (acc : list number),
    length acc <= length (forEach_update f i acc point).
Proof.
  induction point as [ | val point IH ]; intros i acc; cbn; [ lia | ].
  destruct acc as [ | a acc ]; cbn; [ lia | ].
  specialize (IH (S i) acc). lia.
Qed.

Lemma length_slice_last {A : Type} (n : nat) (l : list A) :
  length (slice_last n l) = Nat.min n (length l).
Proof. unfold slice_last. rewrite length_drop. lia. Qed.

(** The window always has at least 24 points: a shorter series is repeated
    cyclically up to 24. *)
Lemma dataToUse_length (processedData : list (list number)) :
  24 <= length (dataToUse processedData).
Proof.
  unfold dataToUse.
  destruct (24 <=? length (slice_last 72 processedData)) eqn:Hlen.
  - now apply Nat.leb_le in Hlen.
  - now rewrite length_map, length_seq.
Qed.

Lemma dataToUse_features (n : nat) (processedData : list (list number)) :
  length zero_vector = n ->
  Forall (fun point => length point = n) processedData ->
  Forall (fun point => length point = n) (dataToUse processedData).
Proof.
  intros Hzero Hdata. unfold dataToUse.
  destruct (24 <=? length (slice_last 72 processedData)).
  - unfold slice_last. now apply Forall_drop.
  - apply Forall_map, Forall_forall. intros i _. cbn.
    destruct (length processedData =? 0); [ exact Hzero | ].
    destruct (processedData !! (i mod length processedData)) as [ point | ] eqn:Hi;
      [ | exact Hzero ].
    cbn. rewrite Forall_forall in Hdata. apply Hdata.
    now apply list_elem_of_lookup_2 in Hi.
Qed.

(** *** The buckets of [extractDailyPatterns] *)

Lemma bucket_fold_invariant (m : nat) (l : list (nat * list number)) :
  forall (hourlyAverages : list (list number)) (hourlyCount : list nat),
    length hourlyAverages = 24 ->
    length hourlyCount = 24 ->
    Forall (fun row => m <= length row) hourlyAverages ->
    let state := fold_left bucket_step l (hourlyAverages, hourlyCount) in
    length state.1 = 24
    /\ length state.2 = 24
    /\ Forall (fun row => m <= length row) state.1
    /\ (forall hour count, hourlyCount !! hour = Some count ->
          exists count', state.2 !! hour = Some count' /\ count <= count')
    /\ (forall idx point, (idx, point) ∈ l ->
          exists count', state.2 !! (idx mod 24) = Some count' /\ 1 <= count').
Proof.
  induction l as [ | [idx point] l IH ]; intros HA HC HlenA HlenC Hrows.
  - cbn. repeat split; auto.
    + intros hour count Hc. eauto.
    + intros idx point Hin. inversion Hin.
  - cbn [fold_left bucket_step].
    set (HA' := alter _ (idx mod 24) HA).
    set (HC' := alter S (idx mod 24) HC).
    assert (HlenA' : length HA' = 24) by (unfold HA'; now rewrite length_alter).
    assert (HlenC' : length HC' = 24) by (unfold HC'; now rewrite length_alter).
    assert (Hrows' : Forall (fun row => m <= length row) HA').
    { unfold HA'. apply Forall_alter; [ exact Hrows | ].
      intros row _ Hrow.
      pose proof (length_forEach_update
                    (fun _ total val => (total + val)%js) point 0 row). lia. }
    destruct (IH HA' HC' HlenA' HlenC' Hrows') as (H1 & H2 & H3 & H4 & H5).
    repeat split; try assumption.
    + intros hour count Hc.
      assert (Hstep : exists c1, HC' !! hour = Some c1 /\ count <= c1).
      { unfold HC'. destruct (decide (idx mod 24 = hour)) as [ <- | Hne ].
        - rewrite list_lookup_alter_eq, Hc. cbn. eexists; split; [ reflexivity | lia ].
        - rewrite list_lookup_alter_ne by exact Hne. eauto. }
      destruct Hstep as (c1 & Hc1 & Hle).
      destruct (H4 hour c1 Hc1) as (c2 & Hc2 & Hle2).
      exists c2. split; [ exact Hc2 | lia ].
    + intros idx' point' Hin. apply elem_of_cons in Hin as [Heq | Hin].
      * inversion Heq; subst idx' point'.
        assert (Hlt : idx mod 24 < length HC)
          by (rewrite HlenC; apply Nat.mod_upper_bound; lia).
        destruct (lookup_lt_is_Some_2 HC _ Hlt) as (c & Hc).
        destruct (H4 (idx mod 24) (S c)) as (c2 & Hc2 & Hle2).
        { unfold HC'. now rewrite list_lookup_alter_eq, Hc. }
        exists c2. split; [ exact Hc2 | lia ].
      * now apply H5 with point'.
Qed.

(** With at least 24 points every bucket is filled, and the pattern of a
    bucket is its average minus the number read from a row of
    [hourlyAverages]; [patterns] has one row per hour of the day. *)
Lemma extractDailyPatterns_rows (m : nat) (first : list number)
    (rest : list (list number)) :
  24 <= length (first :: rest) -> m <= length first ->
  exists (hourlyAverages : list (list number)) (hourlyCount : list nat),
    length hourlyAverages = 24
    /\ Forall (fun row => m <= length row) hourlyAverages
    /\ (forall hour, hour < 24 ->
          exists count, hourlyCount !! hour = Some count /\ 1 <= count)
    /\ extractDailyPatterns (first :: rest)
       = Returns
           (imap (fun hour hourAvg =>
                    imap (fun i total =>
                            let count := default 0 (hourlyCount !! hour) in
                            if count =? 0 then Num 0
                            else (total / of_nat count
                                  - array_ToNumber (hourlyAverages !! i))%js)
                      hourAvg)
              hourlyAverages).
Proof.
  intros Hlen Hfirst. unfold extractDailyPatterns.
  set (data := first :: rest) in *.
  pose proof (bucket_fold_invariant m (imap pair data)
                (replicate 24 (replicate (length first) (Num 0)))
                (replicate 24 0)) as Hinv.
  destruct (fold_left bucket_step (imap pair data) _) as [HA HC].
  destruct Hinv as (H1 & H2 & H3 & _ & H5).
  - apply length_replicate.
  - apply length_replicate.
  - apply Forall_replicate. now rewrite length_replicate.
  - exists HA, HC. repeat split; try assumption.
    intros hour Hhour.
    assert (Hlt : hour < length data) by lia.
    destruct (lookup_lt_is_Some_2 data hour Hlt) as (point & Hpoint).
    destruct (H5 hour point) as (count & Hcount & Hpos).
    { apply (elem_of_lookup_imap_2 pair data point hour Hpoint). }
    rewrite Nat.mod_small in Hcount by exact Hhour. eauto.
Qed.

Lemma extractDailyPatterns_total (data : list (list number)) :
  24 <= length data ->
  exists patterns,
    extractDailyPatterns data = Returns patterns /\ length patterns = 24.
Proof.
  intros Hlen. destruct data as [ | first rest ]; [ cbn in Hlen; lia | ].
  destruct (extractDailyPatterns_rows 0 first rest Hlen (Nat.le_0_l _))
    as (HA & HC & HlenA & _ & _ & ->).
  eexists; split; [ reflexivity | ]. now rewrite length_imap.
Qed.

(** The row read in [hourlyAverage - hourlyAverages[i]] is an array of at
    least two numbers, or [undefined]: the difference is [NaN]. *)
Lemma extractDailyPatterns_NaN (first : list number)
    (rest : list (list number)) :
  24 <= length (first :: rest) -> 2 <= length first ->
  exists patterns,
    extractDailyPatterns (first :: rest) = Returns patterns
    /\ length patterns = 24
    /\ Forall (Forall (fun x => x = NaN)) patterns.
Proof.
  intros Hlen Hfirst.
  destruct (extractDailyPatterns_rows 2 first rest Hlen Hfirst)
    as (HA & HC & HlenA & Hrows & Hcount & ->).
  eexists; split; [ reflexivity | ]. split; [ now rewrite length_imap | ].
  apply Forall_forall. intros row Hrow.
  apply elem_of_lookup_imap in Hrow as (hour & hourAvg & -> & Hhour).
  apply Forall_forall. intros x Hx.
  apply elem_of_lookup_imap in Hx as (i & total & -> & _).
  apply lookup_lt_Some in Hhour. rewrite HlenA in Hhour.
  destruct (Hcount hour Hhour) as (count & -> & Hpos).
  change (default 0 (Some count)) with count. cbv zeta.
  destruct (Nat.eqb_spec count 0) as [ -> | _ ]; [ lia | ].
  assert (Hrow : array_ToNumber (HA !! i) = NaN).
  { destruct (HA !! i) as [ r | ] eqn:Hi; [ | reflexivity ].
    rewrite Forall_forall in Hrows.
    assert (Hr : 2 <= length r) by (apply Hrows; eauto using list_elem_of_lookup_2).
    destruct r as [ | a [ | b r ] ]; cbn in Hr; try lia. reflexivity. }
  rewrite Hrow. apply sub_NaN_r.
Qed.

Lemma predict_pollutant_total (w : World) (averages trends : list number)
    (patterns : list (list number)) (hour i : nat) :
  length patterns = 24 ->
  exists value,
    predict_pollutant w averages trends (Some patterns) hour i = Returns value.
Proof.
  intros Hlen. unfold predict_pollutant.
  assert (Hlt : (getHours w hour i + hour) mod 24 < length patterns)
    by (rewrite Hlen; apply Nat.mod_upper_bound; lia).
  destruct (lookup_lt_is_Some_2 patterns _ Hlt) as (row & ->).
  cbn. eauto.
Qed.

Lemma predict_pollutant_NaN (w : World) (averages trends : list number)
    (patterns : list (list number)) (hour i : nat) :
  length patterns = 24 ->
  Forall (Forall (fun x => x = NaN)) patterns ->
  predict_pollutant w averages trends (Some patterns) hour i = Returns NaN.
Proof.
  intros Hlen Hnan. unfold predict_pollutant.
  assert (Hlt : (getHours w hour i + hour) mod 24 < length patterns)
    by (rewrite Hlen; apply Nat.mod_upper_bound; lia).
  destruct (lookup_lt_is_Some_2 patterns _ Hlt) as (row & Hrow).
  rewrite Hrow. cbn.
  assert (Hentry : entry row i = NaN).
  { unfold entry. destruct (row !! i) as [ x | ] eqn:Hi; [ | reflexivity ].
    rewrite Forall_forall in Hnan.
    pose proof (Hnan row (list_elem_of_lookup_2 _ _ _ Hrow)) as Hr.
    rewrite Forall_forall in Hr. cbn.
    exact (Hr x (list_elem_of_lookup_2 _ _ _ Hi)). }
  rewrite Hentry, add_NaN_r. reflexivity.
Qed.

(** The fallback forecaster never throws and returns 24 points. *)
Lemma generateFallbackPrediction_total (w : World)
    (processedData : list (list number)) :
  exists forecast,
    generateFallbackPrediction w processedData = Returns forecast
    /\ length forecast = 24.
Proof.
  unfold generateFallbackPrediction.
  pose proof (dataToUse_length processedData) as Hlen.
  destruct (dataToUse processedData) as [ | first rest ] eqn:Hdata;
    [ cbn in Hlen; lia | ].
  rewrite (proj2 (Nat.leb_le _ _) Hlen).
  destruct (extractDailyPatterns_total (first :: rest) Hlen)
    as (patterns & -> & Hpatterns).
  cbn [mbind outcome_bind].
  match goal with
  | |- exists forecast, mapM ?f ?l = _ /\ _ =>
      destruct (mapM_total f l) as (forecast & Hforecast & Hlength)
  end.
  - intros hour _.
    match goal with
    | |- exists y, mbind _ (mapM ?f ?l) = _ =>
        destruct (mapM_total f l) as (values & -> & _)
    end.
    + intros i _. now apply predict_pollutant_total.
    + cbn. eauto.
  - exists forecast. split; [ exact Hforecast | now rewrite Hlength, length_seq ].
Qed.

(** On six-feature points every value the fallback forecaster returns is
    [NaN]. *)
Lemma generateFallbackPrediction_NaN (w : World)
    (processedData : list (list number)) :
  Forall (fun point => length point = 6) processedData ->
  generateFallbackPrediction w processedData = Returns (replicate 24 NaN_point).
Proof.
  intros Hsix. unfold generateFallbackPrediction.
  pose proof (dataToUse_length processedData) as Hlen.
  pose proof (dataToUse_features 6 processedData eq_refl Hsix) as Hfeatures.
  destruct (dataToUse processedData) as [ | first rest ] eqn:Hdata;
    [ cbn in Hlen; lia | ].
  rewrite (proj2 (Nat.leb_le _ _) Hlen).
  apply Forall_cons in Hfeatures as [Hfirst _].
  destruct (extractDailyPatterns_NaN first rest Hlen) as
    (patterns & -> & Hpatterns & Hnan); [ lia | ].
  cbn [mbind outcome_bind]. rewrite Hfirst.
  rewrite (mapM_Returns _ (fun _ => NaN_point)).
  - reflexivity.
  - intros hour _.
    rewrite (mapM_Returns _ (fun _ => NaN)).
    + reflexivity.
    + intros i _. now apply predict_pollutant_NaN.
Qed.

End Fallback.

(** ** The prediction pipeline *)

Section Pipeline.
Import PredictionController.
Local Open Scope nat_scope.

Lemma iter_cons {A : Type} (n : nat) (x : A) (l : list A) :
  Nat.iter n (fun array => x :: array) l = replicate n x ++ l.
Proof.
  induction n as [ | n IH ]; [ reflexivity | ].
  rewrite Nat.iter_succ, IH. reflexivity.
Qed.

Lemma pad_short (processedData : list (list number)) :
  length processedData < 24 ->
  pad processedData
  = replicate (24 - length processedData)
      (default zero_vector (processedData !! 0))
    ++ processedData.
Proof.
  intros Hlen. unfold pad. rewrite (proj2 (Nat.ltb_lt _ _) Hlen).
  apply iter_cons.
Qed.

Lemma pad_long (processedData : list (list number)) :
  24 <= length processedData -> pad processedData = processedData.
Proof.
  intros Hlen. unfold pad.
  now rewrite (proj2 (Nat.ltb_ge _ _) Hlen).
Qed.

Lemma pad_length (processedData : list (list number)) :
  24 <= length (pad processedData).
Proof.
  destruct (Nat.lt_ge_cases (length processedData) 24) as [Hlt | Hge].
  - rewrite pad_short, length_app, length_replicate by exact Hlt. lia.
  - now rewrite pad_long.
Qed.

Lemma pad_cons (processedData : list (list number)) :
  exists first rest, pad processedData = first :: rest.
Proof.
  pose proof (pad_length processedData) as Hlen.
  destruct (pad processedData) as [ | first rest ]; [ cbn in Hlen; lia | eauto ].
Qed.

Lemma pad_features (n : nat) (processedData : list (list number)) :
  length zero_vector = n ->
  Forall (fun point => length point = n) processedData ->
  Forall (fun point => length point = n) (pad processedData).
Proof.
  intros Hzero Hdata.
  destruct (Nat.lt_ge_cases (length processedData) 24) as [Hlt | Hge].
  - rewrite pad_short by exact Hlt. apply Forall_app. split; [ | exact Hdata ].
    apply Forall_replicate.
    destruct processedData as [ | first rest ]; [ exact Hzero | ].
    now apply Forall_cons in Hdata as [Hfirst _].
  - now rewrite pad_long.
Qed.

Lemma denormalize_entry_throws (first : list number)
    (rest : list (list number)) (i : nat) (val : json) :
  throws (denormalize_entry (column_mins (length first) (first :: rest))
            (column_maxs (length first) (first :: rest)) i val)
  = unconvertible_element (first :: rest) (i, val).
Proof.
  unfold denormalize_entry, unconvertible_element, constant_feature.
  cbn [feature_count].
  destruct (column_mins _ _ !! i) as [ mn | ]; [ | reflexivity ].
  destruct (column_maxs _ _ !! i) as [ mx | ]; [ | reflexivity ].
  destruct (mn === mx)%js; [ reflexivity | ].
  unfold ToNumber. now destruct (ToString_throws val).
Qed.

Lemma denormalizeData_throws (predictions : json) (first : list number)
    (rest : list (list number)) :
  throws (denormalizeData predictions (first :: rest))
  = negb (array_of_arrays predictions)
    || unconvertible (first :: rest) predictions.
Proof.
  unfold denormalizeData. destruct predictions as [ | | | | points | ];
    try reflexivity.
  rewrite mapM_throws. cbn [array_of_arrays unconvertible].
  induction points as [ | point points IH ]; [ reflexivity | ].
  cbn [existsb forallb]. rewrite IH, negb_andb.
  assert (Hpoint : throws
                     match point with
                     | JArr vals =>
                         mapM (fun '(i, val) =>
                                 denormalize_entry
                                   (column_mins (length first) (first :: rest))
                                   (column_maxs (length first) (first :: rest))
                                   i val)
                           (imap pair (take (length first) vals))
                     | _ => Throws TypeError
                     end
                   = negb (is_array point)
                     || unconvertible_vector (first :: rest) point).
  { destruct point as [ | | | | vals | ]; try reflexivity.
    rewrite mapM_throws. cbn [is_array negb orb unconvertible_vector feature_count].
    induction (imap pair (take (length first) vals)) as [ | [i val] l IHl ];
      [ reflexivity | ].
    cbn [existsb]. now rewrite IHl, denormalize_entry_throws. }
  rewrite Hpoint.
  destruct (is_array point), (unconvertible_vector (first :: rest) point),
    (forallb is_array points); reflexivity.
Qed.

Lemma denormalizeData_length (points : list json) (originalData : list (list number))
    (denormalized : list (list number)) :
  denormalizeData (JArr points) originalData = Returns denormalized ->
  length denormalized = length points.
Proof.
  unfold denormalizeData. destruct originalData as [ | first rest ];
    [ discriminate | ].
  intros Hmap. apply mapM_Forall2, Forall2_length in Hmap. now symmetry.
Qed.

(** The [try] block throws exactly on a predictor failure. *)
Lemma makePrediction_try_throws (w : World) (processedData : list (list number)) :
  processedData <> [] ->
  throws (makePrediction_try w processedData) = predictor_failure w processedData.
Proof.
  intros Hne. destruct processedData as [ | first rest ]; [ congruence | ].
  unfold makePrediction_try, predictor_failure, past_values.
  fold (key_present w). destruct (key_present w); [ | reflexivity ].
  cbn [negb orb normalizeData mbind outcome_bind].
  set (normalized := map _ (first :: rest)).
  assert (Hinput : match fetchOpenWeatherData w with
                   | Some _ => addWeatherFeatures normalized (fetchOpenWeatherData w)
                   | None => normalized
                   end = addWeatherFeatures normalized (fetchOpenWeatherData w))
    by now destruct (fetchOpenWeatherData w).
  rewrite Hinput.
  destruct (axios_post w _) as [ | data ]; [ reflexivity | ].
  destruct data as [ | b | n | s n | items | fields ]; try reflexivity.
  - destruct b; reflexivity.
  - destruct (truthy (JNum n)); reflexivity.
  - destruct (truthy (JStr s n)); reflexivity.
  - cbn [truthy typeof_object negb orb predictions_of mbind outcome_bind].
    rewrite <- (denormalizeData_throws (JArr items) first rest).
    now destruct (denormalizeData (JArr items) (first :: rest)).
  - cbn [truthy typeof_object negb orb predictions_of].
    destruct (get_field "predictions" fields) as [ predictions | ];
      [ | reflexivity ].
    destruct (truthy predictions); [ | reflexivity ].
    cbn [mbind outcome_bind].
    rewrite <- (denormalizeData_throws predictions first rest).
    now destruct (denormalizeData predictions (first :: rest)).
Qed.

(** When the [try] block returns, the forecast has one point per vector
    of the response. *)
Lemma makePrediction_try_Returns (w : World) (processedData : list (list number))
    (forecast : list ForecastPoint) :
  makePrediction_try w processedData = Returns forecast ->
  exists body items,
    axios_post w (past_values w processedData) = Resolved body
    /\ predictions_of body = Some (JArr items)
    /\ length forecast = length items.
Proof.
  unfold makePrediction_try, past_values.
  fold (key_present w). destruct (key_present w); [ | discriminate ].
  cbn [negb]. destruct (normalizeData processedData) as [ normalized | e ];
    [ | discriminate ].
  cbn [mbind outcome_bind].
  assert (Hinput : match fetchOpenWeatherData w with
                   | Some _ => addWeatherFeatures normalized (fetchOpenWeatherData w)
                   | None => normalized
                   end = addWeatherFeatures normalized (fetchOpenWeatherData w))
    by now destruct (fetchOpenWeatherData w).
  rewrite Hinput.
  destruct (axios_post w _) as [ | data ]; [ discriminate | ].
  destruct (negb (truthy data) || negb (typeof_object data)); [ discriminate | ].
  intros Htry. exists data.
  assert (Hpredictions : exists predictions denormalized,
            predictions_of data = Some predictions
            /\ denormalizeData predictions processedData = Returns denormalized
            /\ length forecast = length denormalized).
  { destruct data as [ | b | n | s n | items | fields ]; try discriminate.
    - cbn [mbind outcome_bind] in Htry.
      destruct (denormalizeData (JArr items) processedData) as [ d | e ] eqn:Hd;
        [ | discriminate ].
      injection Htry as <-. exists (JArr items), d. now rewrite length_map.
    - cbn [predictions_of].
      destruct (get_field "predictions" fields) as [ predictions | ];
        [ | discriminate ].
      destruct (truthy predictions); [ | discriminate ].
      cbn [mbind outcome_bind] in Htry.
      destruct (denormalizeData predictions processedData) as [ d | e ] eqn:Hd;
        [ | discriminate ].
      injection Htry as <-. exists predictions, d. now rewrite length_map. }
  destruct Hpredictions as (predictions & denormalized & Hp & Hd & Hlen).
  destruct predictions as [ | | | | items | ];
    try (destruct processedData; discriminate Hd).
  exists items. split; [ reflexivity | ]. split; [ exact Hp | ].
  rewrite Hlen. now apply denormalizeData_length with processedData.
Qed.

Lemma completion_cases (w : World) (processedData : list (list number)) :
  (predictor_failure w (pad processedData) = true
   /\ completion (makePrediction w processedData)
      = generateFallbackPrediction w (pad processedData))
  \/ (predictor_failure w (pad processedData) = false
      /\ completion (makePrediction w processedData)
         = makePrediction_try w (pad processedData)).
Proof.
  destruct (pad_cons processedData) as (first & rest & Hpad).
  assert (Hthrows : throws (makePrediction_try w (pad processedData))
                    = predictor_failure w (pad processedData))
    by (apply makePrediction_try_throws; rewrite Hpad; discriminate).
  unfold makePrediction. cbn [completion].
  destruct (makePrediction_try w (pad processedData)) as [ forecast | e ];
    cbn [throws] in Hthrows; rewrite <- Hthrows; auto.
Qed.


(** A vector element that cannot be converted is a failure as well: the
    product in [denormalizeData] throws a [TypeError] on an object with an
    own property [toString], inside the [try] block. *)
Example unconvertible_element_is_a_failure :
  let vector := JArr (replicate 6 (JObj [("toString", JNum (Num 1))])) in
  let w := answering (JArr [vector]) in
  array_of_arrays (JArr [vector]) = true
  /\ ToNumber (JObj [("toString", JNum (Num 1))]) = Throws TypeError
  /\ predictor_failure w (pad declining_series) = true
  /\ completion (makePrediction w declining_series)
     = generateFallbackPrediction w (pad declining_series).
Proof. vm_compute. repeat split; reflexivity. Qed.


(** C6, counterexample. The service answers a series of length 10 with an
    empty array: the call returns a forecast of no point at all. *)
Lemma short_series_empty_forecast :
  length series_of_length_10 = 10
  /\ completion (makePrediction (answering (JArr [])) series_of_length_10)
     = Returns []
  /\ length (@nil ForecastPoint) <> 24.
Proof. vm_compute. repeat split; discriminate. Qed.

(** C6, amended. A series of fewer than 24 points is left-padded with
    copies of its earliest point (of the zero vector when it is empty) to
    exactly 24 points, and the call then returns a forecast without
    raising: of exactly 24 points when the predictor fails, and of one point
    per vector of the response when the remote prediction is used. *)
Theorem makePrediction_pads_short_series (w : World)
    (processedData : list (list number)) :
  length processedData < 24 ->
  let padded :=
    replicate (24 - length processedData)
      (default zero_vector (processedData !! 0)) ++ processedData in
  processedData_after (makePrediction w processedData) = padded
  /\ length padded = 24
  /\ exists forecast,
       completion (makePrediction w processedData) = Returns forecast
       /\ (predictor_failure w padded = true -> length forecast = 24)
       /\ (predictor_failure w padded = false ->
           exists body items,
             axios_post w (past_values w padded) = Resolved body
             /\ predictions_of body = Some (JArr items)
             /\ length forecast = length items).
Proof.
  intros Hlen. cbv zeta. rewrite <- (pad_short processedData Hlen).
  split; [ reflexivity | ].
  split; [ rewrite pad_short, length_app, length_replicate by exact Hlen; lia | ].
  destruct (completion_cases w processedData) as [(Hf & Hc) | (Hf & Hc)].
  - destruct (generateFallbackPrediction_total w (pad processedData))
      as (forecast & Hforecast & Hlength).
    exists forecast. rewrite Hc. split; [ exact Hforecast | ].
    split; [ auto | congruence ].
  - destruct (pad_cons processedData) as (first & rest & Hpad).
    pose proof (makePrediction_try_throws w (pad processedData)) as Hthrows.
    rewrite Hf in Hthrows.
    destruct (makePrediction_try w (pad processedData)) as [ forecast | e ] eqn:Htry.
    + exists forecast. rewrite Hc. split; [ reflexivity | ].
      split; [ congruence | ]. intros _.
      now apply makePrediction_try_Returns.
    + cbn in Hthrows. rewrite Hpad in Hthrows. now discriminate Hthrows.
Qed.

Lemma makePrediction_pads_short_series_witness :
  length series_of_length_10 < 24
  /\ length (processedData_after (makePrediction offline series_of_length_10)) = 24
  /\ exists forecast,
       completion (makePrediction offline series_of_length_10) = Returns forecast
       /\ length forecast = 24.
Proof.
  assert (Hlen : length series_of_length_10 < 24) by (vm_compute; lia).
  destruct (makePrediction_pads_short_series offline series_of_length_10 Hlen)
    as (Hafter & Hpadded & forecast & Hforecast & Hfallback & _).
  split; [ exact Hlen | ].
  split; [ rewrite Hafter; exact Hpadded | ].
  exists forecast. split; [ exact Hforecast | ].
  apply Hfallback. reflexivity.
Defined.




(** C2, evaluated on the code. Whenever the predictor fails on a series of
    six-feature points, the forecast consists of 24 points, and every
    pollutant value and every AQI in it is [NaN]: the daily pattern added to
    each prediction is [NaN] (see C5), and [Math.max(0, NaN)] is [NaN]. No
    returned pollutant value is a non-negative number. *)
Theorem fallback_forecast_values_are_NaN (w : World)
    (processedData : list (list number)) :
  Forall (fun point => length point = 6) processedData ->
  predictor_failure w (pad processedData) = true ->
  completion (makePrediction w processedData) = Returns (replicate 24 NaN_point).
Proof.
  intros Hsix Hfailure.
  destruct (completion_cases w processedData) as [(_ & Hc) | (Hf & _)];
    [ | congruence ].
  rewrite Hc. apply generateFallbackPrediction_NaN.
  now apply pad_features.
Qed.

Lemma fallback_forecast_values_are_NaN_witness :
  Forall (fun point => length point = 6) declining_series
  /\ predictor_failure offline (pad declining_series) = true
  /\ completion (makePrediction offline declining_series)
     = Returns (replicate 24 NaN_point)
  /\ (Num 0 <=? NaN)%js = false.
Proof.
  assert (Hsix : Forall (fun point => length point = 6) declining_series)
    by (apply Forall_map, Forall_forall; intros k _; reflexivity).
  split; [ exact Hsix | ]. split; [ reflexivity | ].
  split; [ | reflexivity ].
  apply (fallback_forecast_values_are_NaN offline declining_series Hsix).
  reflexivity.
Defined.

(** C5, evaluated on the code. On a window of at least 24 points whose
    points have two features or more, every entry of every row returned by
    [extractDailyPatterns] is [NaN]: the code subtracts from the average of
    the bucket not the overall mean of the feature but row [i] of the
    matrix [hourlyAverages], an array. *)
Theorem extractDailyPatterns_entries_are_NaN (data : list (list number)) :
  24 <= length data ->
  (forall first, data !! 0 = Some first -> 2 <= length first) ->
  exists patterns,
    extractDailyPatterns data = Returns patterns
    /\ length patterns = 24
    /\ Forall (Forall (fun x => x = NaN)) patterns.
Proof.
  intros Hlen Hfirst. destruct data as [ | first rest ]; [ cbn in Hlen; lia | ].
  apply extractDailyPatterns_NaN; [ exact Hlen | now apply Hfirst ].
Qed.

(** On the declining series the pattern of the specification for bucket 0
    and feature 0 is 46 (the bucket holds the value 100 and the mean of the
    window is 54); the code returns [NaN] there. *)
Lemma extractDailyPatterns_entries_are_NaN_witness :
  24 <= length declining_series
  /\ (exists patterns,
        extractDailyPatterns declining_series = Returns patterns
        /\ length patterns = 24
        /\ Forall (Forall (fun x => x = NaN)) patterns)
  /\ same (dailyPattern_spec declining_series 0 0) (Num 46%Q).
Proof.
  assert (Hlen : 24 <= length declining_series) by (vm_compute; lia).
  split; [ exact Hlen | ]. split.
  - apply (extractDailyPatterns_entries_are_NaN declining_series Hlen).
    intros first [= <-]. vm_compute. lia.
  - vm_compute. reflexivity.
Defined.

(** The window of the fallback forecaster never has fewer than 24 points,
    so the daily pattern is always applied. *)
Remark fallback_window_has_24_points (processedData : list (list number)) :
  24 <= length (dataToUse processedData).
Proof. apply dataToUse_length. Qed.

End Pipeline.

(** ** Normalization and its inverse *)

Section ColumnFold.
Import PredictionController.
Local Open Scope nat_scope.

Lemma forEach_update_zip_with (g : number -> number -> number)
    (point : list number) :
  forall (i : nat) (acc : list number),
    length acc = length point ->
    forEach_update (fun _ => g) i acc point = zip_with g acc point.
Proof.
  induction point as [ | val point IH ]; intros i acc Hlen.
  - destruct acc; [ reflexivity | discriminate ].
  - destruct acc as [ | a acc ]; [ discriminate | ].
    cbn. f_equal. apply IH. now injection Hlen.
Qed.

(** [op] is [Math.min] or [Math.max]; [R v m] says that the bound [m]
    accounts for the value [v]. *)
Variable op : number -> number -> number.
Variable R : number -> number -> Prop.
Hypothesis op_cases : forall a b, not_NaN a -> not_NaN b ->
  (op a b = a \/ op a b = b) /\ R a (op a b) /\ R b (op a b).
Hypothesis R_refl : forall a, not_NaN a -> R a a.
Hypothesis R_trans : forall a b c, R a b -> R b c -> R a c.

Variable n : nat.

Lemma column_fold_bound (data : list (list number)) :
  forall acc : list number,
    length acc = n ->
    Forall (fun point => length point = n) data ->
    Forall (Forall finite) data ->
    Forall not_NaN acc ->
    let r := fold_left (fun acc point => forEach_update (fun _ => op) 0 acc point)
               data acc in
    length r = n
    /\ (forall i m, r !! i = Some m ->
          not_NaN m /\ (acc !! i = Some m \/ finite m))
    /\ (forall i a, acc !! i = Some a -> exists m, r !! i = Some m /\ R a m)
    /\ (forall k point i v, data !! k = Some point -> point !! i = Some v ->
          exists m, r !! i = Some m /\ R v m).
Proof.
  induction data as [ | point data IH ]; intros acc Hacc Hrect Hfin Hnan.
  - cbn. split; [ exact Hacc | ]. split; [ | split ].
    + intros i m Hm. split; [ | now left ].
      rewrite Forall_forall in Hnan. eauto using list_elem_of_lookup_2.
    + intros i a Ha. exists a. split; [ exact Ha | ].
      rewrite Forall_forall in Hnan. eauto using list_elem_of_lookup_2.
    + intros k p i v Hk. destruct k; discriminate Hk.
  - apply Forall_cons in Hrect as [Hpoint Hrect].
    apply Forall_cons in Hfin as [Hpfin Hfin].
    cbn [fold_left].
    rewrite forEach_update_zip_with by congruence.
    set (acc' := zip_with op acc point).
    assert (Hstep : forall i a v, acc !! i = Some a -> point !! i = Some v ->
              acc' !! i = Some (op a v) /\ not_NaN a /\ finite v /\ not_NaN v).
    { intros i a v Ha Hv. unfold acc'. rewrite lookup_zip_with, Ha, Hv.
      split; [ reflexivity | ].
      rewrite Forall_forall in Hnan, Hpfin.
      pose proof (Hnan a (list_elem_of_lookup_2 _ _ _ Ha)).
      pose proof (Hpfin v (list_elem_of_lookup_2 _ _ _ Hv)) as Hv'.
      repeat split; try assumption. destruct Hv' as (q & ->). reflexivity. }
    assert (Hacc' : length acc' = n)
      by (unfold acc'; rewrite length_zip_with; lia).
    assert (Hnan' : Forall not_NaN acc').
    { apply Forall_forall. intros m Hm.
      apply list_elem_of_lookup_1 in Hm as (i & Hi).
      unfold acc' in Hi. apply lookup_zip_with_Some in Hi
        as (a & v & -> & Ha & Hv).
      destruct (Hstep i a v Ha Hv) as (_ & Hna & _ & Hnv).
      destruct (op_cases a v Hna Hnv) as ([-> | ->] & _); assumption. }
    destruct (IH acc' Hacc' Hrect Hfin Hnan') as (H1 & H2 & H3 & H4).
    split; [ exact H1 | ]. split; [ | split ].
    + intros i m Hm. destruct (H2 i m Hm) as (Hnm & [Hold | Hfinite]);
        (split; [ exact Hnm | ]); [ | now right ].
      unfold acc' in Hold. apply lookup_zip_with_Some in Hold
        as (a & v & -> & Ha & Hv).
      destruct (Hstep i a v Ha Hv) as (_ & Hna & Hfv & Hnv).
      destruct (op_cases a v Hna Hnv) as ([Heq | Heq] & _); rewrite Heq;
        [ now left | now right ].
    + intros i a Ha.
      assert (Hi : i < length point)
        by (rewrite Hpoint, <- Hacc; eauto using lookup_lt_Some).
      destruct (lookup_lt_is_Some_2 point i Hi) as (v & Hv).
      destruct (Hstep i a v Ha Hv) as (Hacc'i & Hna & _ & Hnv).
      destruct (H3 i (op a v) Hacc'i) as (m & Hm & HR).
      exists m. split; [ exact Hm | ].
      destruct (op_cases a v Hna Hnv) as (_ & HRa & _). eauto.
    + intros k p i v Hk Hv. destruct k as [ | k ].
      * injection Hk as <-.
        assert (Hi : i < length acc)
          by (rewrite Hacc, <- Hpoint; eauto using lookup_lt_Some).
        destruct (lookup_lt_is_Some_2 acc i Hi) as (a & Ha).
        destruct (Hstep i a v Ha Hv) as (Hacc'i & Hna & _ & Hnv).
        destruct (H3 i (op a v) Hacc'i) as (m & Hm & HR).
        exists m. split; [ exact Hm | ].
        destruct (op_cases a v Hna Hnv) as (_ & _ & HRv). eauto.
      * now apply (H4 k p).
Qed.

End ColumnFold.

Section RoundTrip.
Import PredictionController.
Local Open Scope nat_scope.

Lemma Math_min_cases (a b : number) :
  not_NaN a -> not_NaN b ->
  (Math_min a b = a \/ Math_min a b = b)
  /\ (Math_min a b <=? a)%js = true
  /\ (Math_min a b <=? b)%js = true.
Proof.
  intros Ha Hb.
  assert (Hmin : Math_min a b = if (a <=? b)%js then a else b)
    by (unfold not_NaN in *; destruct a, b; cbn in *; congruence).
  rewrite Hmin. destruct (a <=? b)%js eqn:Hle.
  - auto using le_refl.
  - auto using le_refl, le_total.
Qed.

(** The fitted maximum of a feature is a finite number that bounds every
    value of the feature. *)
Lemma column_maxs_bound (n : nat) (data : list (list number)) (i : nat) :
  data <> [] ->
  Forall (fun point => length point = n) data ->
  Forall (Forall finite) data ->
  i < n ->
  exists mx : Q,
    column_maxs n data !! i = Some (Num mx)
    /\ forall k x, cell data k i = Some (Num x) -> (x <= mx)%Q.
Proof.
  intros Hne Hrect Hfin Hi. unfold column_maxs.
  destruct (column_fold_bound Math_max (fun v m => (v <=? m)%js = true)
              Math_max_cases le_refl le_trans n data
              (replicate n NegInfinity))
    as (_ & H2 & _ & H4); try assumption.
  { apply length_replicate. }
  { now apply Forall_replicate. }
  destruct data as [ | first rest ]; [ congruence | ].
  assert (Hfirst : i < length first)
    by (apply Forall_cons in Hrect as [-> _]; exact Hi).
  destruct (lookup_lt_is_Some_2 first i Hfirst) as (v & Hv).
  assert (Hv' : finite v).
  { apply Forall_cons in Hfin as [Hfin _]. rewrite Forall_forall in Hfin.
    eauto using list_elem_of_lookup_2. }
  destruct Hv' as (q & ->).
  destruct (H4 0 first i (Num q) eq_refl Hv) as (m & Hm & Hle).
  destruct (H2 i m Hm) as (_ & [Hinit | (mx & ->)]).
  - apply lookup_replicate in Hinit as [-> _]. discriminate Hle.
  - exists mx. split; [ exact Hm | ].
    intros k x Hcell. unfold cell in Hcell.
    destruct ((first :: rest) !! k) as [ point | ] eqn:Hk; [ | discriminate ].
    cbn in Hcell. destruct (H4 k point i (Num x) Hk Hcell) as (m' & Hm' & Hle').
    rewrite Hm in Hm'. injection Hm' as <-. now apply le_Num.
Qed.

Lemma column_mins_bound (n : nat) (data : list (list number)) (i : nat) :
  data <> [] ->
  Forall (fun point => length point = n) data ->
  Forall (Forall finite) data ->
  i < n ->
  exists mn : Q,
    column_mins n data !! i = Some (Num mn)
    /\ forall k x, cell data k i = Some (Num x) -> (mn <= x)%Q.
Proof.
  intros Hne Hrect Hfin Hi. unfold column_mins.
  destruct (column_fold_bound Math_min (fun v m => (m <=? v)%js = true)
              Math_min_cases le_refl (fun a b c Hab Hbc => le_trans c b a Hbc Hab)
              n data (replicate n Infinity))
    as (_ & H2 & _ & H4); try assumption.
  { apply length_replicate. }
  { now apply Forall_replicate. }
  destruct data as [ | first rest ]; [ congruence | ].
  assert (Hfirst : i < length first)
    by (apply Forall_cons in Hrect as [-> _]; exact Hi).
  destruct (lookup_lt_is_Some_2 first i Hfirst) as (v & Hv).
  assert (Hv' : finite v).
  { apply Forall_cons in Hfin as [Hfin _]. rewrite Forall_forall in Hfin.
    eauto using list_elem_of_lookup_2. }
  destruct Hv' as (q & ->).
  destruct (H4 0 first i (Num q) eq_refl Hv) as (m & Hm & Hle).
  destruct (H2 i m Hm) as (_ & [Hinit | (mn & ->)]).
  - apply lookup_replicate in Hinit as [-> _]. discriminate Hle.
  - exists mn. split; [ exact Hm | ].
    intros k x Hcell. unfold cell in Hcell.
    destruct ((first :: rest) !! k) as [ point | ] eqn:Hk; [ | discriminate ].
    cbn in Hcell. destruct (H4 k point i (Num x) Hk Hcell) as (m' & Hm' & Hle').
    rewrite Hm in Hm'. injection Hm' as <-. now apply le_Num.
Qed.

Lemma normalizeData_Returns (n : nat) (data : list (list number)) :
  data <> [] ->
  Forall (fun point => length point = n) data ->
  normalizeData data
  = Returns (map (imap (normalize_entry (column_mins n data)
                          (column_maxs n data))) data).
Proof.
  intros Hne Hrect. destruct data as [ | first rest ]; [ congruence | ].
  apply Forall_cons in Hrect as [<- _]. reflexivity.
Qed.

End RoundTrip.

(** * Further properties *)

(** ** Index functions and their tables *)

Section ExtraIndex.
Import Breakpoints BreakpointChecks.

Lemma locate_in_segment (table : list BreakpointSegment) :
  forall (s : BreakpointSegment) (c : Q),
    well_separated table = true -> s ∈ table ->
    concLow s <= c -> c <= concHigh s ->
    locate table c = Some s.
Proof.
  induction table as [ | t rest IH ]; intros s c Hsep Hin Hlow Hhigh.
  - inversion Hin.
  - cbn [well_separated] in Hsep.
    apply andb_prop in Hsep as [Hsep Hrest]. apply andb_prop in Hsep as [_ Hafter].
    cbn [locate]. apply elem_of_cons in Hin as [-> | Hin].
    + destruct rest; [ reflexivity | ].
      now rewrite (proj2 (Qle_bool_iff _ _) Hhigh).
    + destruct rest as [ | u rest' ]; [ inversion Hin | ].
      rewrite forallb_forall in Hafter.
      specialize (Hafter s (proj1 (list_elem_of_In _ _) Hin)).
      apply negb_true_iff in Hafter.
      assert (Hc : Qle_bool c (concHigh t) = false).
      { destruct (Qle_bool c (concHigh t)) eqn:Hle; [ | reflexivity ].
        apply Qle_bool_iff in Hle.
        assert (Hcontra : Qle_bool (concLow s) (concHigh t) = true)
          by (apply Qle_bool_iff; lra).
        congruence. }
      rewrite Hc. now apply IH.
Qed.

Lemma locate_last (table : list BreakpointSegment) :
  forall (s : BreakpointSegment) (c : Q),
    well_separated table = true -> last table = Some s ->
    concLow s <= c ->
    locate table c = Some s.
Proof.
  induction table as [ | t rest IH ]; intros s c Hsep Hlast Hlow.
  - discriminate Hlast.
  - cbn [well_separated] in Hsep.
    apply andb_prop in Hsep as [Hsep Hrest]. apply andb_prop in Hsep as [_ Hafter].
    cbn [locate]. destruct rest as [ | u rest' ].
    + cbn in Hlast. congruence.
    + change (last (t :: u :: rest')) with (last (u :: rest')) in Hlast.
      rewrite forallb_forall in Hafter.
      assert (Hin : In s (u :: rest')).
      { apply list_elem_of_In. apply last_Some_elem_of in Hlast. exact Hlast. }
      specialize (Hafter s Hin). apply negb_true_iff in Hafter.
      assert (Hc : Qle_bool c (concHigh t) = false).
      { destruct (Qle_bool c (concHigh t)) eqn:Hle; [ | reflexivity ].
        apply Qle_bool_iff in Hle.
        assert (Hcontra : Qle_bool (concLow s) (concHigh t) = true)
          by (apply Qle_bool_iff; lra).
        congruence. }
      rewrite Hc. now apply IH.
Qed.

Lemma indexFor_within_band (table : list BreakpointSegment)
    (s : BreakpointSegment) (c : Q) :
  well_separated table = true -> forallb ends_ok table = true ->
  s ∈ table -> concLow s <= c -> c <= concHigh s ->
  aqiLow s <= inject_Z (indexFor table c)
  /\ inject_Z (indexFor table c) <= aqiHigh s.
Proof.
  intros Hsep Hends Hin Hlow Hhigh. unfold indexFor.
  rewrite (locate_in_segment table s c Hsep Hin Hlow Hhigh).
  rewrite forallb_forall in Hends.
  specialize (Hends s (proj1 (list_elem_of_In _ _) Hin)).
  unfold ends_ok in Hends.
  apply andb_prop in Hends as [Hends Hcap]. apply andb_prop in Hends as [Hrise Hbase].
  apply Qeq_bool_iff in Hcap, Hbase.
  rewrite <- Hbase, <- Hcap. rewrite <- !Zle_Qle.
  split; now apply segment_index_mono.
Qed.

Lemma direct_table_checks (p : Pollutant) :
  well_separated (direct_table p) = true
  /\ forallb ends_ok (direct_table p) = true.
Proof. destruct p; split; vm_compute; reflexivity. Qed.

Lemma forecast_table_checks (p : Pollutant) :
  well_separated (forecast_table p) = true
  /\ forallb ends_ok (forecast_table p) = true.
Proof. destruct p; split; vm_compute; reflexivity. Qed.

(** X1. A concentration inside a tabled segment gets an index inside the
    AQI band of that segment, on both paths: for [concLow <= c <= concHigh]
    the index is an integer between [aqiLow] and [aqiHigh]. *)
Theorem index_within_band_of_segment (p : Pollutant) (s : BreakpointSegment)
    (c : Q) :
  concLow s <= c -> c <= concHigh s ->
  (s ∈ direct_table p ->
   exists z : Z, direct_index p c = Num (inject_Z z)
                 /\ aqiLow s <= inject_Z z /\ inject_Z z <= aqiHigh s)
  /\ (s ∈ forecast_table p ->
      exists z : Z, forecast_index p c = Num (inject_Z z)
                    /\ aqiLow s <= inject_Z z /\ inject_Z z <= aqiHigh s).
Proof.
  intros Hlow Hhigh. split; intros Hin.
  - destruct (direct_table_checks p) as (Hsep & Hends).
    exists (indexFor (direct_table p) c).
    split; [ apply direct_index_lookup | ].
    now apply indexFor_within_band with (s := s).
  - destruct (forecast_table_checks p) as (Hsep & Hends).
    exists (indexFor (forecast_table p) c).
    split; [ apply forecast_index_lookup | ].
    now apply indexFor_within_band with (s := s).
Qed.

Lemma index_within_band_of_segment_witness :
  exists z : Z, direct_index PM25 20 = Num (inject_Z z)
                /\ 51 <= inject_Z z /\ inject_Z z <= 100.
Proof.
  apply (index_within_band_of_segment PM25 (mkSegment 12.1 35.4 51 100) 20);
    [ discriminate | discriminate | ].
  apply list_elem_of_In. cbn. auto.
Defined.

Lemma direct_lookup_nonneg (p : Pollutant) (c : Q) :
  0 <= c -> (0 <= indexFor (direct_table p) c)%Z.
Proof.
  intros Hc.
  assert (Hok : exists s rest, direct_table p = s :: rest
                  /\ rising s = true /\ (0 <= segment_index s 0)%Z
                  /\ floor_ok 0 s rest = true).
  { destruct p; eexists; eexists; (split; [ reflexivity | ]);
      vm_compute; repeat split; congruence. }
  destruct Hok as (s & rest & -> & Hrise & Hzero & Hfloor).
  assert (Hhead : (0 <= segment_index s c)%Z)
    by (etransitivity; [ exact Hzero | now apply segment_index_mono ]).
  destruct rest as [ | t rest' ]; [ exact Hhead | ].
  destruct (Qle_bool c (concHigh s)) eqn:Hs.
  - now rewrite indexFor_head.
  - rewrite indexFor_tail by exact Hs.
    apply (indexFor_lower 0 (t :: rest') s); [ discriminate | | ]; assumption.
Qed.



Lemma lookup_mono_beyond_cap (table : list BreakpointSegment)
    (s0 : BreakpointSegment) (rest : list BreakpointSegment) (c1 c2 : Q) :
  table = s0 :: rest ->
  table_ok from_low table = true -> well_separated table = true ->
  table_cap table <= c1 -> c1 <= c2 ->
  (indexFor table c1 <= indexFor table c2)%Z.
Proof.
  intros Htable Hok Hsep Hc1 Hc2. unfold table_cap in *.
  destruct (last table) as [ s | ] eqn:Hlast;
    [ | apply last_None in Hlast; congruence ].
  assert (Hs : concLow s <= concHigh s).
  { pose proof (last_Some_elem_of _ _ Hlast) as Hin.
    clear - Hsep Hin. induction table as [ | t rest IH ]; [ inversion Hin | ].
    cbn [well_separated] in Hsep.
    apply andb_prop in Hsep as [Hsep Hrest]. apply andb_prop in Hsep as [Ht _].
    apply elem_of_cons in Hin as [-> | Hin]; [ now apply Qle_bool_iff | auto ]. }
  rewrite Htable in *.
  apply (table_ok_mono from_low); [ exact Hok | exact Hc2 | ].
  apply above_rest_from_low. unfold covered.
  rewrite (locate_last (s0 :: rest) s c2 Hsep Hlast) by lra.
  apply Qle_bool_iff. lra.
Qed.

Lemma Qfloor_half (z : Z) (q : Q) : q == inject_Z z -> Qfloor (q + 1 / 2) = z.
Proof.
  intros Hq. change (1 / 2) with (1 # 2). apply Z.le_antisymm.
  - apply Z.lt_succ_r. rewrite Zlt_Qlt.
    apply Qle_lt_trans with (q + (1 # 2)); [ apply Qfloor_le | ].
    rewrite Hq. unfold Z.succ. rewrite inject_Z_plus.
    change (inject_Z 1) with 1. generalize (inject_Z z). intros. lra.
  - rewrite <- (Qfloor_Z z) at 1. apply Qfloor_resp_le.
    rewrite Hq. generalize (inject_Z z). intros. lra.
Qed.

(** Beyond the cap the formula of the last segment passes every bound. *)
Lemma lookup_unbounded (table : list BreakpointSegment) (s : BreakpointSegment)
    (h bound : Z) :
  last table = Some s -> well_separated table = true ->
  concLow s < concHigh s -> aqiLow s < aqiHigh s ->
  aqiHigh s == inject_Z h -> (0 <= h)%Z ->
  exists c : Q, table_cap table <= c /\ (bound < indexFor table c)%Z.
Proof.
  intros Hlast Hsep Hconc Haqi Hh Hpos. unfold table_cap. rewrite Hlast.
  set (step := (concHigh s - concLow s) / (aqiHigh s - aqiLow s)).
  assert (Hstep : 0 < step).
  { unfold step. apply Qlt_shift_div_l; lra. }
  set (extra := inject_Z (Z.max 0 bound) + 1).
  assert (Hextra : 0 < extra).
  { unfold extra. assert (0 <= inject_Z (Z.max 0 bound))
      by (change 0 with (inject_Z 0); rewrite <- Zle_Qle; lia). lra. }
  exists (concHigh s + extra * step).
  assert (Hc : concHigh s <= concHigh s + extra * step).
  { assert (0 < extra * step) by (apply Qmult_lt_0_compat; assumption). lra. }
  split; [ exact Hc | ].
  unfold indexFor. rewrite (locate_last table s _ Hsep Hlast) by lra.
  unfold segment_index.
  rewrite (Qfloor_half (h + Z.max 0 bound + 1)); [ lia | ].
  rewrite !inject_Z_plus, <- Hh. unfold extra, step. cbn [inject_Z].
  field. split; lra.
Qed.

Lemma last_segment (p : Pollutant) :
  (exists s, last (direct_table p) = Some s
             /\ concLow s < concHigh s /\ aqiLow s < aqiHigh s
             /\ aqiHigh s == inject_Z 500)
  /\ (exists s, last (forecast_table p) = Some s
                /\ concLow s < concHigh s /\ aqiLow s < aqiHigh s
                /\ aqiHigh s == inject_Z 500).
Proof.
  destruct p; split; eexists; (split; [ reflexivity | ]);
    repeat split; reflexivity.
Qed.

(** X3. There is no ceiling: from the upper bound of the last segment of
    its table on, every index function, on either path, is at least 500,
    does not decrease, and exceeds every bound; nothing saturates at 500. *)
Theorem index_beyond_last_cap (p : Pollutant) :
  no_ceiling (table_cap (direct_table p)) (direct_index p)
  /\ no_ceiling (table_cap (forecast_table p)) (forecast_index p).
Proof.
  destruct (last_segment p)
    as ((s & Hlast & Hconc & Haqi & Hh) & (s' & Hlast' & Hconc' & Haqi' & Hh')).
  split; split.
  - intros c1 c2 Hc1 Hc2. rewrite !direct_index_lookup.
    change (Num 500) with (Num (inject_Z 500)). rewrite !le_of_Z.
    assert (Hcap : indexFor (direct_table p) (table_cap (direct_table p)) = 500%Z)
      by (destruct p; reflexivity).
    rewrite <- Hcap.
    destruct (direct_table_cons p) as (s0 & rest & Htable).
    destruct (direct_table_checks p) as (Hsep & Hends).
    split; apply (lookup_mono_beyond_cap _ s0 rest);
      auto using direct_table_ok_from_low, Qle_refl.
  - intros bound. destruct (direct_table_checks p) as (Hsep & _).
    destruct (lookup_unbounded _ s 500 bound Hlast Hsep Hconc Haqi Hh)
      as (c & Hc & Hlt); [ lia | ].
    exists c. split; [ exact Hc | ]. rewrite direct_index_lookup.
    cbn [gt lt]. apply negb_true_iff.
    destruct (Qle_bool _ _) eqn:Hle; [ | reflexivity ].
    apply Qle_bool_iff in Hle. rewrite <- Zle_Qle in Hle. lia.
  - intros c1 c2 Hc1 Hc2. rewrite !forecast_index_lookup.
    change (Num 500) with (Num (inject_Z 500)). rewrite !le_of_Z.
    assert (Hcap : indexFor (forecast_table p) (table_cap (forecast_table p))
                   = 500%Z)
      by (destruct p; reflexivity).
    rewrite <- Hcap.
    destruct (forecast_table_cons p) as (s0 & rest & Htable).
    destruct (forecast_table_checks p) as (Hsep & Hends).
    split; apply (lookup_mono_beyond_cap _ s0 rest);
      auto using forecast_table_ok_from_low, Qle_refl.
  - intros bound. destruct (forecast_table_checks p) as (Hsep & _).
    destruct (lookup_unbounded _ s' 500 bound Hlast' Hsep Hconc' Haqi' Hh')
      as (c & Hc & Hlt); [ lia | ].
    exists c. split; [ exact Hc | ]. rewrite forecast_index_lookup.
    cbn [gt lt]. apply negb_true_iff.
    destruct (Qle_bool _ _) eqn:Hle; [ | reflexivity ].
    apply Qle_bool_iff in Hle. rewrite <- Zle_Qle in Hle. lia.
Qed.

Lemma index_beyond_last_cap_witness :
  direct_index PM25 600 = Num 566
  /\ (Num 500 <=? direct_index PM25 600)%js = true
  /\ (direct_index PM25 600 <=? direct_index PM25 700)%js = true
  /\ exists c : Q, 500.4 <= c /\ (direct_index PM25 c >? Num 1000)%js = true.
Proof.
  split; [ reflexivity | ].
  destruct (index_beyond_last_cap PM25) as ((Hmono & Hunbounded) & _).
  destruct (Hmono 600 700) as (Hfloor & Hle); [ discriminate | discriminate | ].
  split; [ exact Hfloor | ]. split; [ exact Hle | ].
  exact (Hunbounded 1000%Z).
Defined.

End ExtraIndex.

(** ** Aggregation: edge behaviour and callers *)

Section ExtraAggregate.

Lemma direct_index_of_positive (p : Pollutant) (value : number) :
  (value >? 0)%js = true ->
  not_NaN (direct_index p value)
  /\ (Num 0 <=? direct_index p value)%js = true.
Proof.
  destruct value as [ q | | | ]; intros Hpos; try discriminate Hpos.
  - rewrite direct_index_lookup. split; [ reflexivity | ].
    change (Num 0) with (Num (inject_Z 0)). apply le_of_Z.
    apply direct_lookup_nonneg.
    cbn in Hpos. apply negb_true_iff in Hpos.
    apply Qlt_le_weak, Qnot_le_lt. intros Hle.
    apply Qle_bool_iff in Hle. congruence.
  - destruct p; split; reflexivity.
Qed.

Lemma calculateAQI_bounds (reading : Pollutants) :
  not_NaN (AqiCalculator.calculateAQI reading)
  /\ (Num 0 <=? AqiCalculator.calculateAQI reading)%js = true.
Proof.
  pose proof (direct_aggregate reading) as Hagg.
  destruct (positive_subindices direct_index reading) as [ | x l ] eqn:Hsubs.
  - cbn in Hagg. rewrite Hagg. split; reflexivity.
  - destruct Hagg as [Hin _]. rewrite <- Hsubs in Hin.
    apply list_elem_of_In, positive_subindices_elem in Hin
      as (p & value & _ & Hpos & ->).
    now apply direct_index_of_positive.
Qed.

(** X4. Whatever the reading holds (negative values, [NaN], infinities,
    absent fields), [calculateAQI] returns neither [NaN] nor a negative
    number. *)
Theorem calculateAQI_never_NaN_nor_negative (reading : Pollutants) :
  not_NaN (AqiCalculator.calculateAQI reading)
  /\ (Num 0 <=? AqiCalculator.calculateAQI reading)%js = true.
Proof. apply calculateAQI_bounds. Qed.

Lemma fold_Math_max_NaN (l : list number) :
  forall a : number, a = NaN \/ NaN ∈ l -> fold_left Math_max l a = NaN.
Proof.
  induction l as [ | x l IH ]; intros a [Ha | Hin].
  - exact Ha.
  - inversion Hin.
  - subst a. cbn. apply IH. now left.
  - cbn. apply elem_of_cons in Hin as [<- | Hin].
    + apply IH. left. now destruct a.
    + apply IH. now right.
Qed.

(** X5. On the forecast path one [NaN] value is enough: whenever a present
    pollutant value is [NaN], [calculateAQIFromPollutants] returns [NaN],
    whatever the other values are. *)
Theorem calculateAQIFromPollutants_propagates_NaN (reading : Pollutants)
    (p : Pollutant) :
  value_of reading p = Some NaN ->
  PredictionController.calculateAQIFromPollutants reading = NaN.
Proof.
  intros Hp. unfold PredictionController.calculateAQIFromPollutants.
  rewrite forecast_indices_present.
  assert (Hin : NaN ∈ present_subindices forecast_index reading
                        [PM25; O3; PM10; CO; SO2; NO2]).
  { replace NaN with (forecast_index p NaN) by (destruct p; reflexivity).
    apply present_subindices_intro; [ | exact Hp ].
    apply list_elem_of_In. destruct p; cbn; auto 10. }
  destruct (present_subindices _ _ _) as [ | x l ] eqn:Hl; [ inversion Hin | ].
  cbn [length Nat.ltb Nat.leb]. unfold Math_max_spread.
  apply fold_Math_max_NaN. now right.
Qed.

Lemma calculateAQIFromPollutants_propagates_NaN_witness :
  PredictionController.calculateAQIFromPollutants NaN_pm10 = NaN
  /\ AqiCalculator.calculateAQI NaN_pm10 = 67.
Proof.
  split; [ | reflexivity ].
  apply (calculateAQIFromPollutants_propagates_NaN NaN_pm10 PM10). reflexivity.
Defined.

Lemma push_defaulted (index : number -> number) (field : option number)
    (indices : list number) :
  push_index AqiCalculator.measured index (Some (or_zero field)) indices
  = push_index AqiCalculator.measured index field indices.
Proof.
  unfold push_index, AqiCalculator.measured.
  destruct field as [ [ q | | | ] | ]; try reflexivity.
  cbn [or_zero]. destruct (Qeq_bool q 0) eqn:Hq; [ | reflexivity ].
  apply Qeq_bool_iff in Hq.
  assert (Hnot : (Num q >? 0)%js = false).
  { cbn. apply negb_false_iff, Qle_bool_iff. rewrite Hq. apply Qle_refl. }
  now rewrite Hnot.
Qed.

Lemma calculateAQI_defaulted (reading : Pollutants) :
  AqiCalculator.calculateAQI (defaulted reading)
  = AqiCalculator.calculateAQI reading.
Proof.
  unfold AqiCalculator.calculateAQI, AqiCalculator.indices, defaulted.
  cbn [pm25 pm10 o3 no2 so2 co].
  now rewrite !push_defaulted.
Qed.

(** X6. The defaults that the callers of [calculateAQI] put in
    ([value || 0] for each pollutant) never change the result: a field that
    is absent, zero or [NaN] is left out of the aggregation either way. *)
Theorem calculateAQI_ignores_defaults (reading : Pollutants) :
  AqiCalculator.calculateAQI (defaulted reading)
  = AqiCalculator.calculateAQI reading.
Proof. apply calculateAQI_defaulted. Qed.

(** X7. [saveSensorData] answers 201 exactly when the document is saved,
    and the AQI it stores and reports is [calculateAQI] of the six
    pollutant values of the request body as they were received; when saving
    fails it answers 500. *)
Theorem saveSensorData_reports_calculated_aqi
    (save : SensorController.SensorData -> outcome SensorController.SensorData)
    (body : SensorController.Body) :
  let calculatedAQI := AqiCalculator.calculateAQI (reading_of body) in
  exists document,
    SensorController.aqi document = calculatedAQI
    /\ match save document with
       | Returns data =>
           SensorController.saveSensorData save body
           = SensorController.Created data calculatedAQI
       | Throws _ =>
           SensorController.saveSensorData save body
           = SensorController.ServerError
       end.
Proof.
  cbv zeta. unfold SensorController.saveSensorData.
  change (SensorController.pollutants_of body) with (defaulted (reading_of body)).
  rewrite calculateAQI_defaulted.
  match goal with |- context [save ?d] => exists d end.
  split; [ reflexivity | destruct (save _); reflexivity ].
Qed.

(** X8. A measurement more never lowers the AQI of the direct-reading path:
    when a reading has every value of another one, its AQI is at least the
    other's. *)
Theorem calculateAQI_grows_with_reading (reading larger : Pollutants) :
  extends reading larger ->
  (AqiCalculator.calculateAQI reading <=? AqiCalculator.calculateAQI larger)%js
  = true.
Proof.
  intros Hext.
  pose proof (direct_aggregate reading) as Hsmall.
  pose proof (direct_aggregate larger) as Hlarge.
  destruct (positive_subindices direct_index reading) as [ | x l ] eqn:Hsubs.
  - cbn in Hsmall. rewrite Hsmall.
    apply calculateAQI_bounds.
  - destruct Hsmall as [Hin _]. rewrite <- Hsubs in Hin.
    apply list_elem_of_In in Hin.
    assert (Hin' : AqiCalculator.calculateAQI reading
                   ∈ positive_subindices direct_index larger).
    { apply positive_subindices_elem in Hin as (p & value & Hv & Hpos & Heq).
      apply positive_subindices_elem. exists p, value. auto. }
    destruct (positive_subindices direct_index larger) as [ | y l' ];
      [ inversion Hin' | ].
    destruct Hlarge as [_ Hall]. rewrite Forall_forall in Hall. auto.
Qed.

Lemma calculateAQI_grows_with_reading_witness :
  extends pm25_only sample_reading
  /\ AqiCalculator.calculateAQI pm25_only = Num 42
  /\ AqiCalculator.calculateAQI sample_reading = Num 67
  /\ (AqiCalculator.calculateAQI pm25_only
      <=? AqiCalculator.calculateAQI sample_reading)%js = true.
Proof.
  assert (Hext : extends pm25_only sample_reading)
    by (intros p value; destruct p; cbn; congruence).
  split; [ exact Hext | ]. split; [ reflexivity | ]. split; [ reflexivity | ].
  exact (calculateAQI_grows_with_reading pm25_only sample_reading Hext).
Defined.

Lemma is_aggregate_unique (subindices : list number) (a b : number) :
  Forall (fun x => exists z : Z, x = Num (inject_Z z)) subindices ->
  is_aggregate subindices a -> is_aggregate subindices b -> a = b.
Proof.
  intros Hint Ha Hb. destruct subindices as [ | x l ]; [ cbn in *; congruence | ].
  destruct Ha as [Ha_in Ha_all], Hb as [Hb_in Hb_all].
  rewrite Forall_forall in Hint, Ha_all, Hb_all.
  apply list_elem_of_In in Ha_in, Hb_in.
  destruct (Hint a Ha_in) as (za & ->). destruct (Hint b Hb_in) as (zb & ->).
  pose proof (Ha_all _ Hb_in) as H1. pose proof (Hb_all _ Ha_in) as H2.
  apply le_of_Z in H1, H2. f_equal. f_equal. lia.
Qed.

(** X9. The CO table is the only difference between the two aggregation
    functions: on a reading of the data model without a positive CO value
    they return the same AQI. *)
Theorem paths_agree_without_co (reading : Pollutants) :
  nonneg_reading reading -> no_positive_co reading ->
  AqiCalculator.calculateAQI reading
  = PredictionController.calculateAQIFromPollutants reading.
Proof.
  intros Hreading Hco.
  assert (Hsame : positive_subindices forecast_index reading
                  = positive_subindices direct_index reading).
  { unfold positive_subindices, all_pollutants.
    cbn [omap list_omap value_of].
    destruct (co reading) as [ value | ] eqn:Hvalue; [ | reflexivity ].
    now rewrite (Hco value Hvalue). }
  pose proof (direct_aggregate reading) as Hdirect.
  pose proof (forecast_aggregate reading Hreading) as Hforecast.
  rewrite Hsame in Hforecast.
  apply (is_aggregate_unique (positive_subindices direct_index reading));
    try assumption.
  apply Forall_forall. intros x Hx.
  apply positive_subindices_elem in Hx as (p & value & Hv & _ & ->).
  destruct (Hreading p value Hv) as (q & -> & _).
  rewrite direct_index_lookup. eauto.
Qed.

Lemma paths_agree_without_co_witness :
  nonneg_reading sample_reading /\ no_positive_co sample_reading
  /\ AqiCalculator.calculateAQI sample_reading
     = PredictionController.calculateAQIFromPollutants sample_reading.
Proof.
  assert (Hreading : nonneg_reading sample_reading).
  { intros p value. destruct p; cbn; intros Hv; inversion Hv;
      eexists; (split; [ reflexivity | discriminate ]). }
  assert (Hco : no_positive_co sample_reading) by (intros value Hv; discriminate Hv).
  split; [ exact Hreading | ]. split; [ exact Hco | ].
  exact (paths_agree_without_co sample_reading Hreading Hco).
Defined.

End ExtraAggregate.

(** ** The weather controller *)

Section ExtraWeather.
Import WeatherController.

Lemma mapped_values (openWeatherAQI : option number) :
  exists m : Q, mappedOpenWeatherAQI openWeatherAQI = Num m
                /\ 0 <= m /\ m <= 300.
Proof.
  unfold mappedOpenWeatherAQI.
  destruct openWeatherAQI as [ [ q | | | ] | ];
    try (exists 0; repeat split; discriminate).
  repeat (destruct (Qeq_bool q _);
          [ eexists; repeat split; discriminate | ]).
  exists 0; repeat split; discriminate.
Qed.

(** X10. The AQI that [getWeatherData] reports is the calculated AQI or
    the value mapped from the OpenWeatherMap index, it never differs from
    the mapped value by more than 50, and so it always lies between 0 and
    350; when the OpenWeatherMap index is not one of 1 to 5 (mapped value
    0), it is at most 50. *)
Theorem finalAQI_stays_near_mapped (components : Components)
    (openWeatherAQI : option number) :
  let calculatedAQI := AqiCalculator.calculateAQI (apiPollutants components) in
  let mapped := mappedOpenWeatherAQI openWeatherAQI in
  let final := finalAQI components openWeatherAQI in
  (final = calculatedAQI \/ final = mapped)
  /\ (Math_abs (final - mapped) <=? 50)%js = true
  /\ (Num 0 <=? final)%js = true
  /\ (final <=? 350)%js = true
  /\ (mapped = Num 0 -> (final <=? 50)%js = true).
Proof.
  cbv zeta. unfold finalAQI.
  destruct (mapped_values openWeatherAQI) as (m & -> & Hm0 & Hm300).
  destruct (calculateAQI_bounds (apiPollutants components)) as (Hnan & Hpos).
  destruct (AqiCalculator.calculateAQI (apiPollutants components))
    as [ q | | | ]; try discriminate.
  - apply le_Num in Hpos.
    change (Num q - Num m)%js with (Num (q + - m)).
    assert (Hself : (Math_abs (Num m - Num m) <=? 50)%js = true).
    { change (Num m - Num m)%js with (Num (m + - m)). cbn [Math_abs].
      destruct (Qle_bool 0 (m + - m)); cbn [le]; apply Qle_bool_iff; lra. }
    cbn [Math_abs gt lt].
    destruct (Qle_bool 0 (q + - m)) eqn:Hsign; cbn [negb].
    + destruct (Qle_bool (q + - m) 50) eqn:Hdiff; cbn [negb].
      * apply Qle_bool_iff in Hdiff, Hsign.
        repeat split; try (now right); try (now left).
        -- change (Num q - Num m)%js with (Num (q + - m)). cbn [Math_abs].
           rewrite (proj2 (Qle_bool_iff _ _) Hsign). cbn [le].
           now apply Qle_bool_iff.
        -- now apply le_Num.
        -- apply le_Num. lra.
        -- intros [= Hzero]. apply le_Num. rewrite Hzero in Hdiff. lra.
      * repeat split; try (now right); try assumption.
        -- now apply le_Num.
        -- apply le_Num. lra.
        -- intros [= Hzero]. apply le_Num. rewrite Hzero. discriminate.
    + destruct (Qle_bool (- (q + - m)) 50) eqn:Hdiff; cbn [negb].
      * apply Qle_bool_iff in Hdiff.
        assert (Hneg : q + - m <= 0).
        { apply Qlt_le_weak, Qnot_le_lt. intros H.
          apply Qle_bool_iff in H. congruence. }
        repeat split; try (now left).
        -- change (Num q - Num m)%js with (Num (q + - m)). cbn [Math_abs].
           rewrite Hsign. cbn [le]. now apply Qle_bool_iff.
        -- now apply le_Num.
        -- apply le_Num. lra.
        -- intros [= Hzero]. apply le_Num. rewrite Hzero in Hneg. lra.
      * repeat split; try (now right); try assumption.
        -- now apply le_Num.
        -- apply le_Num. lra.
        -- intros [= Hzero]. apply le_Num. rewrite Hzero. discriminate.
  - cbn. repeat split; try (now right).
    + change (Num m - Num m)%js with (Num (m + - m)). cbn [Math_abs].
      destruct (Qle_bool 0 (m + - m)); cbn [le]; apply Qle_bool_iff; lra.
    + now apply le_Num.
    + apply le_Num. lra.
    + intros [= Hzero]. apply le_Num. rewrite Hzero. discriminate.
Qed.

Lemma finalAQI_stays_near_mapped_witness :
  mappedOpenWeatherAQI None = Num 0
  /\ (finalAQI sample_components None <=? 50)%js = true.
Proof.
  split; [ reflexivity | ].
  apply (finalAQI_stays_near_mapped sample_components None). reflexivity.
Defined.

(** *** [getHistoricalData] *)

Lemma group_of_group_entry (date : string) (value : number)
    (grouped : list (string * DayGroup)) (key : string) :
  group_of key (group_entry date value grouped)
  = if String.eqb date key
    then Some (match group_of date grouped with
               | None => mkDayGroup 1 value
               | Some group =>
                   mkDayGroup (S (count group)) (totalAqi group + value)%js
               end)
    else group_of key grouped.
Proof.
  induction grouped as [ | [k group] rest IH ]; cbn [group_entry group_of].
  - destruct (String.eqb_spec date key) as [ -> | Hne ]; [ reflexivity | ].
    reflexivity.
  - destruct (String.eqb_spec k date) as [ -> | Hk ]; cbn [group_of].
    + destruct (String.eqb_spec date key) as [ -> | Hne ]; reflexivity.
    + destruct (String.eqb_spec k key) as [ Hkey | Hkey ].
      * destruct (String.eqb_spec date key) as [ Hdate | _ ]; congruence.
      * exact IH.
Qed.

Lemma keys_group_entry (date : string) (value : number)
    (grouped : list (string * DayGroup)) :
  (group_entry date value grouped).*1
  = match group_of date grouped with
    | Some _ => grouped.*1
    | None => grouped.*1 ++ [date]
    end.
Proof.
  induction grouped as [ | [k group] rest IH ]; cbn [group_entry group_of];
    [ reflexivity | ].
  destruct (String.eqb_spec k date) as [ -> | Hk ]; [ reflexivity | ].
  cbn. rewrite IH. now destruct (group_of date rest).
Qed.

Lemma group_of_keys (grouped : list (string * DayGroup)) (key : string) :
  key ∈ grouped.*1 <-> group_of key grouped <> None.
Proof.
  induction grouped as [ | [k group] rest IH ]; cbn [group_of].
  - split; [ intros H; inversion H | congruence ].
  - cbn. rewrite elem_of_cons.
    destruct (String.eqb_spec k key) as [ -> | Hk ].
    + split; [ discriminate | now left ].
    + rewrite <- IH. split; [ intros [ | ]; congruence | now right ].
Qed.

Lemma group_of_elem (grouped : list (string * DayGroup)) (key : string)
    (group : DayGroup) :
  NoDup grouped.*1 -> (key, group) ∈ grouped -> group_of key grouped = Some group.
Proof.
  induction grouped as [ | [k g] rest IH ]; intros Hnodup Hin;
    [ inversion Hin | ].
  cbn in Hnodup. apply NoDup_cons in Hnodup as [Hk Hrest].
  cbn [group_of]. apply elem_of_cons in Hin as [ [= -> ->] | Hin ].
  - now rewrite String.eqb_refl.
  - destruct (String.eqb_spec k key) as [ -> | _ ]; [ | now apply IH ].
    exfalso. apply Hk. apply list_elem_of_fmap. now exists (key, group).
Qed.

Lemma day_values_snoc (data : list HistoryEntry) (entry : HistoryEntry)
    (date : string) :
  day_values (data ++ [entry]) date
  = day_values data date
    ++ (if String.eqb (day entry) date then [or_zero (aqi entry)] else []).
Proof.
  unfold day_values. rewrite filter_app, map_app. f_equal.
  rewrite filter_cons, filter_nil.
  destruct (String.eqb_spec (day entry) date) as [ Heq | Hne ].
  - now rewrite decide_True.
  - now rewrite decide_False.
Qed.

(** The groups after the loop: for each date the number and the total of
    the values of that date. *)
Lemma groupedByDay_groups (data : list HistoryEntry) :
  NoDup (groupedByDay data).*1
  /\ forall date,
       group_of date (groupedByDay data)
       = match day_values data date with
         | [] => None
         | values => Some (mkDayGroup (length values) (total values))
         end.
Proof.
  induction data as [ | entry data IH ] using rev_ind.
  - split; [ constructor | reflexivity ].
  - destruct IH as [Hnodup Hgroups].
    unfold groupedByDay in *. rewrite fold_left_app. cbn [fold_left].
    set (grouped := fold_left _ data []) in *.
    split.
    + rewrite keys_group_entry.
      destruct (group_of (day entry) grouped) eqn:Hfound; [ exact Hnodup | ].
      apply NoDup_app. split; [ exact Hnodup | ].
      split; [ | apply NoDup_singleton ].
      intros key Hkey Hin. apply list_elem_of_singleton in Hin as ->.
      apply group_of_keys in Hkey. congruence.
    + intros date. rewrite group_of_group_entry, day_values_snoc.
      destruct (String.eqb_spec (day entry) date) as [ <- | Hne ].
      * rewrite Hgroups.
        destruct (day_values data (day entry)) as [ | v vs ] eqn:Hvalues;
          [ reflexivity | ].
        cbn [app total length count totalAqi].
        rewrite fold_left_app, length_app. cbn [fold_left length].
        do 2 f_equal. lia.
      * rewrite Hgroups, app_nil_r. reflexivity.
Qed.

(** X11. [getHistoricalData] returns exactly one row for each date that
    occurs in the data, and the AQI of the row is the rounded mean of that
    date's values ([entry.aqi || 0], added in order and divided by their
    number). *)
Theorem getHistoricalData_daily_means (data : list HistoryEntry) :
  let rows := getHistoricalData (Some data) in
  NoDup rows.*1
  /\ (forall date, date ∈ rows.*1 <-> exists entry, entry ∈ data /\ day entry = date)
  /\ (forall date value, (date, value) ∈ rows ->
        value = Math_round (total (day_values data date)
                            / of_nat (length (day_values data date)))%js).
Proof.
  cbv zeta. destruct (groupedByDay_groups data) as [Hnodup Hgroups].
  assert (Hrows : getHistoricalData (Some data)
                  = map (fun '(date, group) =>
                           (date, Math_round (totalAqi group / of_nat (count group))%js))
                      (groupedByDay data))
    by (destruct data; reflexivity).
  assert (Hkeys : (getHistoricalData (Some data)).*1 = (groupedByDay data).*1).
  { rewrite Hrows. clear. induction (groupedByDay data) as [ | [k g] rest IH ];
      [ reflexivity | cbn; now rewrite IH ]. }
  split; [ now rewrite Hkeys | ]. split.
  - intros date. rewrite Hkeys, group_of_keys, Hgroups. unfold day_values.
    split.
    + intros Hsome.
      destruct (filter _ data) as [ | entry others ] eqn:Hfilter;
        [ cbn in Hsome; congruence | ].
      assert (Hin : entry ∈ filter (fun e => day e = date) data)
        by (rewrite Hfilter; left).
      apply list_elem_of_filter in Hin as [Hday Hin]. eauto.
    + intros (entry & Hin & Hday).
      assert (Hfiltered : entry ∈ filter (fun e => day e = date) data)
        by (apply list_elem_of_filter; auto).
      destruct (filter _ data); [ inversion Hfiltered | discriminate ].
  - intros date value Hin. rewrite Hrows in Hin.
    apply list_elem_of_fmap in Hin as ([key group] & [= -> ->] & Hin).
    pose proof (group_of_elem _ _ _ Hnodup Hin) as Hfound.
    rewrite Hgroups in Hfound.
    destruct (day_values data key); [ discriminate | ].
    injection Hfound as <-. reflexivity.
Qed.

Lemma getHistoricalData_daily_means_witness :
  ("Jan 5", Num 51) ∈ getHistoricalData (Some sample_history)
  /\ Num 51
     = Math_round (total (day_values sample_history "Jan 5")
                   / of_nat (length (day_values sample_history "Jan 5")))%js.
Proof.
  assert (Hin : ("Jan 5", Num 51) ∈ getHistoricalData (Some sample_history))
    by (apply list_elem_of_In; left; reflexivity).
  split; [ exact Hin | ].
  apply (getHistoricalData_daily_means sample_history). exact Hin.
Defined.

Example getHistoricalData_sample :
  getHistoricalData (Some sample_history) = [("Jan 5", Num 51); ("Jan 6", Num 45)]
  /\ getHistoricalData (Some []) = [] /\ getHistoricalData None = [].
Proof. repeat split; reflexivity. Qed.

End ExtraWeather.

(** ** The prediction pipeline: inputs, requests and responses *)

Section ExtraPipeline.
Import PredictionController PredictionInput.
Local Open Scope nat_scope.

Lemma or_zero_not_NaN (x : option number) : not_NaN (or_zero x).
Proof.
  destruct x as [ [ q | | | ] | ]; try reflexivity.
  cbn. now destruct (Qeq_bool q 0).
Qed.

Lemma processSensorData_shape (sensorData : list Pollutants) :
  Forall (fun point => length point = 6) (processSensorData sensorData).
Proof.
  unfold processSensorData. apply Forall_map, Forall_forall. now intros.
Qed.

(** X12. [processSensorData] turns every document into a vector of exactly
    six numbers, none of which is [NaN] (an absent, zero or [NaN] field
    becomes 0), and keeps the number and the order of the documents. *)
Theorem processSensorData_vectors (sensorData : list Pollutants) :
  length (processSensorData sensorData) = length sensorData
  /\ Forall (fun point => length point = 6 /\ Forall not_NaN point)
       (processSensorData sensorData)
  /\ forall k reading, sensorData !! k = Some reading ->
       processSensorData sensorData !! k
       = Some [ or_zero (pm25 reading); or_zero (pm10 reading);
                or_zero (o3 reading); or_zero (no2 reading);
                or_zero (so2 reading); or_zero (co reading) ].
Proof.
  unfold processSensorData. split; [ apply length_map | ]. split.
  - apply Forall_map, Forall_forall. intros reading _.
    split; [ reflexivity | ]. repeat constructor; apply or_zero_not_NaN.
  - intros k reading Hk. now rewrite list_lookup_fmap, Hk.
Qed.

Lemma processSensorData_vectors_witness :
  sample_documents !! 1%nat
  = Some {| pm25 := None; pm10 := Some NaN; o3 := Some (Num 0);
            no2 := None; so2 := Some (Num 2); co := None |}
  /\ processSensorData sample_documents !! 1%nat
     = Some [Num 0; Num 0; Num 0; Num 0; Num 2; Num 0].
Proof.
  split; [ reflexivity | ].
  exact (proj2 (proj2 (processSensorData_vectors sample_documents))
           1%nat _ eq_refl).
Defined.

(** X13. The sensor route of the prediction endpoint: whatever documents
    the collection holds, when the predictor fails the forecast computed
    from them has 24 points whose pollutant values and AQI are all [NaN]. *)
Theorem sensor_forecast_on_failure (w : World) (sensorData : list Pollutants) :
  predictor_failure w (pad (processSensorData sensorData)) = true ->
  completion (makePrediction w (processSensorData sensorData))
  = Returns (replicate 24 NaN_point).
Proof.
  intros Hfailure.
  destruct (completion_cases w (processSensorData sensorData))
    as [(_ & Hc) | (Hf & _)]; [ | congruence ].
  rewrite Hc. apply generateFallbackPrediction_NaN.
  apply pad_features; [ reflexivity | apply processSensorData_shape ].
Qed.

Lemma sensor_forecast_on_failure_witness :
  predictor_failure offline (pad (processSensorData sample_documents)) = true
  /\ completion (makePrediction offline (processSensorData sample_documents))
     = Returns (replicate 24 NaN_point).
Proof.
  split; [ reflexivity | ].
  apply (sensor_forecast_on_failure offline sample_documents). reflexivity.
Defined.

(** X15. Columns past the feature count of the series never come back:
    [denormalizeData] gives the same result, or throws in the same way, for
    a response and for the response with every vector cut to the length of
    the first point of the original series. *)
Theorem denormalizeData_discards_extra_columns (points : list json)
    (first : list number) (rest : list (list number)) :
  denormalizeData (JArr points) (first :: rest)
  = denormalizeData (JArr (map (truncated (length first)) points))
      (first :: rest).
Proof.
  unfold denormalizeData.
  set (mins := column_mins _ _). set (maxs := column_maxs _ _).
  induction points as [ | point points IH ]; [ reflexivity | ].
  cbn [map mapM]. rewrite IH.
  destruct point; try reflexivity.
  cbn [truncated]. rewrite take_take, Nat.min_id. reflexivity.
Qed.

(** X16. The fallback forecaster looks at the last 72 points only: the
    points before them have no influence on what it returns. *)
Theorem generateFallbackPrediction_ignores_old_points (w : World)
    (older recent : list (list number)) :
  72 <= length recent ->
  generateFallbackPrediction w (older ++ recent)
  = generateFallbackPrediction w recent.
Proof.
  intros Hlen.
  assert (Hslice : slice_last 72 (older ++ recent) = slice_last 72 recent).
  { unfold slice_last. rewrite length_app.
    rewrite drop_app_ge by lia. f_equal. lia. }
  assert (Hwindow : dataToUse (older ++ recent) = dataToUse recent).
  { unfold dataToUse. rewrite Hslice.
    assert (H24 : (24 <=? length (slice_last 72 recent)) = true)
      by (apply Nat.leb_le; rewrite length_slice_last; lia).
    now rewrite H24. }
  unfold generateFallbackPrediction. now rewrite Hwindow.
Qed.

Lemma generateFallbackPrediction_ignores_old_points_witness :
  generateFallbackPrediction offline
    (series_of_length_10 ++ declining_series ++ declining_series ++ declining_series)
  = generateFallbackPrediction offline
      (declining_series ++ declining_series ++ declining_series).
Proof.
  apply (generateFallbackPrediction_ignores_old_points offline
           series_of_length_10
           (declining_series ++ declining_series ++ declining_series)).
  vm_compute. lia.
Defined.

End ExtraPipeline.

(** ** Categories of the alert e-mails *)

Section ExtraEmail.
Import Breakpoints BreakpointChecks EmailController.

Lemma bands_of_tables (p : Pollutant) (s : BreakpointSegment) :
  s ∈ direct_table p \/ s ∈ forecast_table p ->
  In (band_of s)
    [ (0, 50); (51, 100); (101, 150); (151, 200); (201, 300); (301, 400);
      (401, 500); (301, 500) ].
Proof.
  intros [Hin | Hin]; apply list_elem_of_In in Hin; destruct p; cbn in Hin;
    repeat (destruct Hin as [<- | Hin]; [ cbn; tauto | ]); destruct Hin.
Qed.

Lemma category_constant_on_band (lo hi q : Q) :
  In (lo, hi)
    [ (0, 50); (51, 100); (101, 150); (151, 200); (201, 300); (301, 400);
      (401, 500); (301, 500) ] ->
  lo <= q -> q <= hi ->
  getAQICategory (Num q) = getAQICategory (Num hi)
  /\ getColorForAQI (Num q) = getColorForAQI (Num hi).
Proof.
  intros Hin Hlo Hhi. unfold getAQICategory, getColorForAQI.
  repeat (destruct Hin as [[= <- <-] | Hin];
          [ repeat match goal with
              | |- context [(Num q <=? Num ?b)%js] =>
                  let H := fresh "H" in
                  destruct (Num q <=? Num b)%js eqn:H;
                  [ apply le_Num in H
                  | assert (~ q <= b) by (rewrite <- le_Num; congruence);
                    clear H ]
              end;
            solve [ split; reflexivity | exfalso; lra ]
          | ]).
  destruct Hin.
Qed.

(** X20. The category and the colour that the alert e-mail shows for a
    sub-index are those of the segment the concentration lies in: for
    [concLow <= c <= concHigh] in a segment of the table of a pollutant, on
    either path, [getAQICategory] and [getColorForAQI] of the index equal
    their values at the segment's upper index bound. *)
Theorem category_of_index_is_band_category (p : Pollutant)
    (s : BreakpointSegment) (c : Q) :
  concLow s <= c -> c <= concHigh s ->
  (s ∈ direct_table p ->
   getAQICategory (direct_index p c) = band_category s
   /\ getColorForAQI (direct_index p c) = getColorForAQI (Num (aqiHigh s)))
  /\ (s ∈ forecast_table p ->
      getAQICategory (forecast_index p c) = band_category s
      /\ getColorForAQI (forecast_index p c) = getColorForAQI (Num (aqiHigh s))).
Proof.
  intros Hlow Hhigh. unfold band_category. split; intros Hin.
  - destruct (direct_table_checks p) as (Hsep & Hends).
    rewrite direct_index_lookup.
    destruct (indexFor_within_band _ s c Hsep Hends Hin Hlow Hhigh).
    apply (category_constant_on_band (aqiLow s)); [ | assumption | assumption ].
    apply (bands_of_tables p s). now left.
  - destruct (forecast_table_checks p) as (Hsep & Hends).
    rewrite forecast_index_lookup.
    destruct (indexFor_within_band _ s c Hsep Hends Hin Hlow Hhigh).
    apply (category_constant_on_band (aqiLow s)); [ | assumption | assumption ].
    apply (bands_of_tables p s). now right.
Qed.

Lemma category_of_index_is_band_category_witness :
  getAQICategory (direct_index PM25 20) = "Moderate"
  /\ getColorForAQI (direct_index PM25 20) = "#ffff00".
Proof.
  apply (category_of_index_is_band_category PM25 (mkSegment 12.1 35.4 51 100) 20);
    [ discriminate | discriminate | ].
  apply list_elem_of_In. cbn. auto.
Defined.

End ExtraEmail.

(** ** Binary64 rounding *)

Section Rounding.
Import Binary64.

Lemma pow2_pos (e : Z) : 0 < 2 ^ e.
Proof. apply Qpower_0_lt. reflexivity. Qed.

Lemma pow2_succ (e : Z) : 2 ^ (e + 1) == 2 * 2 ^ e.
Proof. rewrite Qpower_plus by discriminate. change (2 ^ 1) with 2. ring. Qed.

Lemma pow2_pred (e : Z) : 2 ^ (e - 1) == 2 ^ e * (1 # 2).
Proof.
  unfold Z.sub. rewrite Qpower_plus by discriminate. reflexivity.
Qed.

Lemma pow2_le (a b : Z) : (a <= b)%Z -> 2 ^ a <= 2 ^ b.
Proof. intros H. apply Qpower_le_compat_l; [ exact H | discriminate ]. Qed.

Lemma pow2_of_Z (n : Z) : (0 <= n)%Z -> inject_Z (2 ^ n) == 2 ^ n.
Proof. intros H. now rewrite Zpower_Qpower. Qed.

(** [ilog2] brackets the magnitude between two powers of 2. *)
Lemma ilog2_spec (q : Q) :
  ~ q == 0 -> 2 ^ ilog2 q <= Qabs q /\ Qabs q < 2 ^ (ilog2 q + 1).
Proof.
  intros Hq. unfold ilog2.
  set (n := Z.abs (Qnum q)). set (d := Zpos (Qden q)).
  assert (Hn : (0 < n)%Z).
  { unfold n. destruct q as [num den]. cbn.
    assert (num <> 0%Z); [ | lia ].
    intros ->. apply Hq. reflexivity. }
  assert (Hd : (0 < d)%Z) by reflexivity.
  destruct (Z.log2_spec n Hn) as [Hn1 Hn2].
  destruct (Z.log2_spec d Hd) as [Hd1 Hd2].
  pose proof (Z.log2_nonneg n) as Hln. pose proof (Z.log2_nonneg d) as Hld.
  set (ln := Z.log2 n) in *. set (ld := Z.log2 d) in *.
  assert (Habs : Qabs q == inject_Z n / inject_Z d).
  { destruct q as [num den]. unfold n, d. cbn [Qabs Qnum Qden].
    rewrite (Qmake_Qdiv (Z.abs num) den). reflexivity. }
  assert (HA : inject_Z (2 ^ ln) == 2 ^ ln) by now apply pow2_of_Z.
  assert (HB : inject_Z (2 ^ ld) == 2 ^ ld) by now apply pow2_of_Z.
  assert (HA' : inject_Z (2 ^ Z.succ ln) == 2 * 2 ^ ln).
  { rewrite pow2_of_Z by lia. apply pow2_succ. }
  assert (HB' : inject_Z (2 ^ Z.succ ld) == 2 * 2 ^ ld).
  { rewrite pow2_of_Z by lia. apply pow2_succ. }
  rewrite Zle_Qle in Hn1, Hd1. rewrite Zlt_Qlt in Hn2, Hd2, Hn, Hd.
  rewrite HA in Hn1. rewrite HB in Hd1. rewrite HA' in Hn2. rewrite HB' in Hd2.
  change (inject_Z 0) with 0 in Hn, Hd.
  assert (He : 2 ^ (ln - ld) == 2 ^ ln / 2 ^ ld).
  { apply Qpower_minus. discriminate. }
  pose proof (pow2_pos ln) as HAp. pose proof (pow2_pos ld) as HBp.
  set (A := 2 ^ ln) in *. set (B := 2 ^ ld) in *.
  set (N := inject_Z n) in *. set (D := inject_Z d) in *.
  assert (Hlow : 2 ^ (ln - ld - 1) <= N / D).
  { rewrite pow2_pred, He. apply Qle_shift_div_l; [ exact Hd | ].
    apply Qle_trans with (A / B * (1 # 2) * (2 * B)).
    - apply Qmult_le_l. 
      + apply Qmult_lt_0_compat; [ | reflexivity ].
        apply Qlt_shift_div_l; [ exact HBp | lra ].
      + lra.
    - assert (Heq : A / B * (1 # 2) * (2 * B) == A) by (field; lra).
      rewrite Heq. exact Hn1. }
  assert (Hhigh : N / D < 2 ^ (ln - ld + 1)).
  { rewrite pow2_succ, He. apply Qlt_shift_div_r; [ exact Hd | ].
    apply Qlt_le_trans with (2 * A); [ exact Hn2 | ].
    assert (Heq : 2 * A == 2 * (A / B) * B) by (field; lra).
    rewrite Heq. apply Qmult_le_l; [ | exact Hd1 ].
    assert (0 < A / B) by (apply Qlt_shift_div_l; [ exact HBp | lra ]). lra. }
  destruct (Qle_bool (2 ^ (ln - ld)) (Qabs q)) eqn:Htest.
  - apply Qle_bool_iff in Htest. split; [ exact Htest | ].
    now rewrite Habs.
  - assert (Hlt : Qabs q < 2 ^ (ln - ld)).
    { apply Qnot_le_lt. intros H. apply Qle_bool_iff in H. congruence. }
    split.
    + now rewrite Habs.
    + replace (ln - ld - 1 + 1)%Z with (ln - ld)%Z by lia. exact Hlt.
Qed.

Lemma round_even_error (x : Q) :
  Qabs (inject_Z (round_even x) - x) <= 1 # 2.
Proof.
  unfold round_even. pose proof (Qfloor_le x) as Hlo.
  pose proof (Qlt_floor x) as Hhi. rewrite inject_Z_plus in Hhi.
  change (inject_Z 1) with 1 in Hhi.
  apply Qabs_Qle_condition.
  destruct (Qcompare_spec (x - inject_Z (Qfloor x)) (1 # 2)) as [Heq | Hlt | Hgt].
  - destruct (Z.even (Qfloor x)).
    + generalize dependent (inject_Z (Qfloor x)). intros f; intros. lra.
    + rewrite inject_Z_plus. change (inject_Z 1) with 1.
      generalize dependent (inject_Z (Qfloor x)). intros f; intros. lra.
  - generalize dependent (inject_Z (Qfloor x)). intros f; intros. lra.
  - rewrite inject_Z_plus. change (inject_Z 1) with 1.
    generalize dependent (inject_Z (Qfloor x)). intros f; intros. lra.
Qed.

Lemma round_even_Z (z : Z) : round_even (inject_Z z) = z.
Proof.
  unfold round_even. rewrite Qfloor_Z.
  destruct (Qcompare_spec (inject_Z z - inject_Z z) (1 # 2)) as [Heq | Hlt | Hgt].
  - exfalso. generalize dependent (inject_Z z). intros f; intros. lra.
  - reflexivity.
  - exfalso. generalize dependent (inject_Z z). intros f; intros. lra.
Qed.

Lemma round_even_mono (x y : Q) : x <= y -> (round_even x <= round_even y)%Z.
Proof.
  intros Hxy. pose proof (Qfloor_resp_le x y Hxy) as Hf.
  apply Zle_lt_or_eq in Hf as [Hlt | Heq].
  - (* different floors *)
    apply Z.le_trans with (Qfloor x + 1)%Z.
    + unfold round_even. destruct (Qcompare _ _); [ destruct (Z.even _) | | ]; lia.
    + apply Z.le_trans with (Qfloor y); [ lia | ].
      unfold round_even. destruct (Qcompare _ _); [ destruct (Z.even _) | | ]; lia.
  - unfold round_even. rewrite <- Heq.
    destruct (Qcompare_spec (x - inject_Z (Qfloor x)) (1 # 2)) as [Hx | Hx | Hx];
      destruct (Qcompare_spec (y - inject_Z (Qfloor x)) (1 # 2)) as [Hy | Hy | Hy];
      try destruct (Z.even (Qfloor x)); try lia;
      exfalso; generalize dependent (inject_Z (Qfloor x)); intros f; intros; lra.
Qed.

Lemma ulp_exponent_min (q : Q) : (-1074 <= ulp_exponent q)%Z.
Proof. unfold ulp_exponent. lia. Qed.

Lemma nearest_error (q : Q) :
  Qabs (nearest q - q) <= 2 ^ ulp_exponent q * (1 # 2).
Proof.
  unfold nearest. set (e := ulp_exponent q).
  pose proof (pow2_pos e) as He.
  pose proof (round_even_error (q / 2 ^ e)) as Hr.
  set (m := inject_Z (round_even (q / 2 ^ e))) in *.
  assert (Heq : m * 2 ^ e - q == (m - q / 2 ^ e) * 2 ^ e) by (field; lra).
  rewrite Heq, Qabs_Qmult, (Qabs_pos (2 ^ e)) by lra.
  rewrite (Qmult_comm (2 ^ e)). apply Qmult_le_compat_r; lra.
Qed.

(** The unit in the last place is at most [2 ^ -52] times the magnitude,
    unless it is the spacing of the subnormal doubles. *)
Lemma ulp_bound (q : Q) :
  ~ q == 0 ->
  2 ^ ulp_exponent q <= 2 ^ (-52) * Qabs q \/ ulp_exponent q = (-1074)%Z.
Proof.
  intros Hq. unfold ulp_exponent.
  destruct (Z.max_spec (ilog2 q - 52) (-1074)) as [[_ ->] | [_ ->]];
    [ now right | left ].
  destruct (ilog2_spec q Hq) as [Hlo _].
  unfold Z.sub. rewrite Qpower_plus by discriminate.
  rewrite (Qmult_comm (2 ^ ilog2 q)).
  apply Qmult_le_l; [ reflexivity | exact Hlo ].
Qed.

Lemma pow2_lt_inv (a b : Z) : 2 ^ a < 2 ^ b -> (a < b)%Z.
Proof. intros H. apply (Qpower_lt_compat_l_inv 2); [ exact H | reflexivity ]. Qed.

Lemma ilog2_mono (p q : Q) : 0 < p -> p <= q -> (ilog2 p <= ilog2 q)%Z.
Proof.
  intros Hp Hpq.
  destruct (ilog2_spec p) as [Hlo _]; [ lra | ].
  destruct (ilog2_spec q) as [_ Hhi]; [ lra | ].
  rewrite Qabs_pos in Hlo, Hhi by lra.
  assert (H : (ilog2 p < ilog2 q + 1)%Z) by (apply pow2_lt_inv; lra). lia.
Qed.

Lemma ulp_exponent_mono (p q : Q) :
  0 < p -> p <= q -> (ulp_exponent p <= ulp_exponent q)%Z.
Proof.
  intros Hp Hpq. pose proof (ilog2_mono p q Hp Hpq). unfold ulp_exponent. lia.
Qed.

Lemma round_even_nonneg (x : Q) : 0 <= x -> (0 <= round_even x)%Z.
Proof.
  intros Hx. rewrite <- (round_even_Z 0). apply round_even_mono. exact Hx.
Qed.

Lemma nearest_nonneg (q : Q) : 0 <= q -> 0 <= nearest q.
Proof.
  intros Hq. unfold nearest. pose proof (pow2_pos (ulp_exponent q)) as He.
  apply Qmult_le_0_compat; [ | lra ].
  change 0 with (inject_Z 0). rewrite <- Zle_Qle. apply round_even_nonneg.
  apply Qle_shift_div_l; [ exact He | lra ].
Qed.

Lemma nearest_mono_pos (p q : Q) : 0 < p -> p <= q -> nearest p <= nearest q.
Proof.
  intros Hp Hpq. pose proof (ulp_exponent_mono p q Hp Hpq) as He.
  unfold nearest.
  set (e1 := ulp_exponent p) in *. set (e2 := ulp_exponent q) in *.
  pose proof (pow2_pos e1) as H1. pose proof (pow2_pos e2) as H2.
  apply Zle_lt_or_eq in He as [Hlt | Heq].
  - (* the larger lies in a higher binade *)
    assert (He2 : e2 = (ilog2 q - 52)%Z).
    { unfold e2, ulp_exponent in *. pose proof (ulp_exponent_min p).
      fold e1 in H. lia. }
    assert (Hi1 : (ilog2 p <= e1 + 52)%Z) by (unfold e1, ulp_exponent; lia).
    destruct (ilog2_spec p) as [_ Hphi]; [ lra | ].
    destruct (ilog2_spec q) as [Hqlo _]; [ lra | ].
    rewrite Qabs_pos in Hphi, Hqlo by lra.
    assert (Hm1 : inject_Z (round_even (p / 2 ^ e1)) <= 2 ^ 53).
    { rewrite <- (pow2_of_Z 53) by lia. rewrite <- Zle_Qle.
      rewrite <- (round_even_Z (2 ^ 53)). apply round_even_mono.
      rewrite (pow2_of_Z 53) by lia.
      apply Qle_shift_div_r; [ exact H1 | ].
      rewrite <- Qpower_plus by discriminate.
      apply Qle_trans with (2 ^ (ilog2 p + 1)); [ lra | ].
      apply pow2_le. lia. }
    assert (Hm2 : 2 ^ 52 <= inject_Z (round_even (q / 2 ^ e2))).
    { rewrite <- (pow2_of_Z 52) by lia. rewrite <- Zle_Qle.
      rewrite <- (round_even_Z (2 ^ 52)) at 1. apply round_even_mono.
      rewrite (pow2_of_Z 52) by lia.
      apply Qle_shift_div_l; [ exact H2 | ].
      rewrite <- Qpower_plus by discriminate.
      replace (52 + e2)%Z with (ilog2 q) by lia. exact Hqlo. }
    apply Qle_trans with (2 ^ 53 * 2 ^ e1);
      [ apply Qmult_le_compat_r; lra | ].
    apply Qle_trans with (2 ^ 52 * 2 ^ e2);
      [ | apply Qmult_le_compat_r; lra ].
    rewrite <- !Qpower_plus by discriminate. apply pow2_le. lia.
  - rewrite <- Heq. apply Qmult_le_compat_r; [ | lra ].
    rewrite <- Zle_Qle. apply round_even_mono.
    apply Qmult_le_compat_r; [ exact Hpq | ].
    apply Qlt_le_weak, Qinv_lt_0_compat. exact H1.
Qed.

Lemma round_even_unique (x : Q) (z : Z) :
  Qabs (inject_Z z - x) < 1 # 2 -> round_even x = z.
Proof.
  intros Hz. apply Qabs_Qlt_condition in Hz as [Hlo Hhi].
  pose proof (round_even_error x) as Hr.
  apply Qabs_Qle_condition in Hr as [Hrlo Hrhi].
  assert (H : inject_Z (round_even x) - inject_Z z < 1
              /\ inject_Z z - inject_Z (round_even x) < 1) by (split; lra).
  destruct H as [H1 H2].
  assert (H1' : inject_Z (round_even x) < inject_Z (z + 1))
    by (rewrite inject_Z_plus; change (inject_Z 1) with 1; lra).
  assert (H2' : inject_Z z < inject_Z (round_even x + 1))
    by (rewrite inject_Z_plus; change (inject_Z 1) with 1; lra).
  rewrite <- Zlt_Qlt in H1', H2'. lia.
Qed.

Lemma Qfloor_opp_frac (x : Q) :
  ~ x == inject_Z (Qfloor x) -> Qfloor (- x) = (- Qfloor x - 1)%Z.
Proof.
  intros Hfrac. pose proof (Qfloor_le x) as Hlo.
  pose proof (Qlt_floor x) as Hhi. rewrite inject_Z_plus in Hhi.
  change (inject_Z 1) with 1 in Hhi.
  pose proof (Qfloor_le (- x)) as Hlo'.
  pose proof (Qlt_floor (- x)) as Hhi'. rewrite inject_Z_plus in Hhi'.
  change (inject_Z 1) with 1 in Hhi'.
  assert (Hstrict : inject_Z (Qfloor x) < x).
  { apply Qle_lteq in Hlo as [H | H]; [ exact H | ]. symmetry in H. contradiction. }
  assert (H1 : inject_Z (Qfloor (- x)) < inject_Z (- Qfloor x)).
  { rewrite inject_Z_opp. lra. }
  assert (H2 : inject_Z (- Qfloor x - 2) < inject_Z (Qfloor (- x))).
  { unfold Z.sub. rewrite inject_Z_plus, inject_Z_opp.
    change (inject_Z (- (2))) with (- (2)). lra. }
  rewrite <- Zlt_Qlt in H1, H2. lia.
Qed.

Lemma round_even_opp (x : Q) : round_even (- x) = (- round_even x)%Z.
Proof.
  destruct (Qeq_dec x (inject_Z (Qfloor x))) as [Hint | Hfrac].
  - assert (Hx : round_even x = Qfloor x).
    { apply round_even_unique, Qabs_Qlt_condition. rewrite <- Hint.
      split; lra. }
    rewrite Hx. apply round_even_unique, Qabs_Qlt_condition.
    rewrite inject_Z_opp, <- Hint. split; lra.
  - pose proof (Qfloor_opp_frac x Hfrac) as Hfl.
    pose proof (Qfloor_le x) as Hlo.
    pose proof (Qlt_floor x) as Hhi. rewrite inject_Z_plus in Hhi.
    change (inject_Z 1) with 1 in Hhi.
    unfold round_even. rewrite Hfl.
    assert (Hf' : inject_Z (- Qfloor x - 1) == - inject_Z (Qfloor x) - 1).
    { unfold Z.sub. rewrite inject_Z_plus, inject_Z_opp. reflexivity. }
    assert (Heven : Z.even (- Qfloor x - 1) = negb (Z.even (Qfloor x))).
    { replace (- Qfloor x - 1)%Z with (- (Qfloor x + 1))%Z by lia.
      rewrite Z.even_opp, Z.even_add. now destruct (Z.even (Qfloor x)). }
    rewrite Heven.
    destruct (Qcompare_spec (x - inject_Z (Qfloor x)) (1 # 2)) as [Hx | Hx | Hx];
      destruct (Qcompare_spec (- x - inject_Z (- Qfloor x - 1)) (1 # 2))
        as [Hy | Hy | Hy];
      rewrite Hf' in Hy;
      try (exfalso; generalize dependent (inject_Z (Qfloor x)); intros f; intros;
           lra).
    + destruct (Z.even (Qfloor x)); cbn [negb]; lia.
    + lia.
    + lia.
Qed.

Lemma ilog2_opp (q : Q) : ilog2 (- q) = ilog2 q.
Proof.
  unfold ilog2. destruct q as [n d]. cbn [Qopp Qnum Qden Qabs].
  now rewrite Z.abs_opp.
Qed.

Lemma nearest_opp (q : Q) : nearest (- q) == - nearest q.
Proof.
  unfold nearest, ulp_exponent. rewrite ilog2_opp.
  set (e := Z.max (ilog2 q - 52) (-1074)).
  assert (Harg : - q / 2 ^ e == - (q / 2 ^ e)).
  { pose proof (pow2_pos e). field. lra. }
  assert (Hm : round_even (- q / 2 ^ e) = (- round_even (q / 2 ^ e))%Z).
  { rewrite <- round_even_opp. 
    apply Z.le_antisymm; apply round_even_mono; rewrite Harg; apply Qle_refl. }
  rewrite Hm, inject_Z_opp. ring.
Qed.

Lemma nearest_zero (q : Q) : q == 0 -> nearest q == 0.
Proof.
  intros Hq. apply Qle_antisym.
  - assert (H : 0 <= nearest (- q)) by (apply nearest_nonneg; lra).
    rewrite nearest_opp in H. lra.
  - apply nearest_nonneg. lra.
Qed.

Lemma nearest_mono (p q : Q) : p <= q -> nearest p <= nearest q.
Proof.
  intros Hpq.
  destruct (Qlt_le_dec 0 p) as [Hp | Hp].
  - now apply nearest_mono_pos.
  - destruct (Qlt_le_dec q 0) as [Hq | Hq].
    + assert (H : nearest (- q) <= nearest (- p))
        by (apply nearest_mono_pos; lra).
      rewrite !nearest_opp in H. lra.
    + apply Qle_trans with 0.
      * assert (H : 0 <= nearest (- p)) by (apply nearest_nonneg; lra).
        rewrite nearest_opp in H. lra.
      * now apply nearest_nonneg.
Qed.

Lemma nearest_proper (p q : Q) : p == q -> nearest p == nearest q.
Proof.
  intros Hpq. apply Qle_antisym; apply nearest_mono; rewrite Hpq; apply Qle_refl.
Qed.

Lemma nearest_pow2_1023 : nearest (2 ^ 1023) == 2 ^ 1023.
Proof. vm_compute. reflexivity. Qed.

Lemma nearest_least : nearest (2 ^ (-1074)) == 2 ^ (-1074).
Proof. vm_compute. reflexivity. Qed.

Lemma nearest_bounded (q : Q) :
  Qabs q <= 2 ^ 1023 -> Qabs (nearest q) <= 2 ^ 1023.
Proof.
  intros Hq. apply Qabs_Qle_condition in Hq as [Hlo Hhi].
  apply Qabs_Qle_condition. split.
  - apply nearest_mono in Hlo. rewrite nearest_opp, nearest_pow2_1023 in Hlo.
    exact Hlo.
  - apply nearest_mono in Hhi. now rewrite nearest_pow2_1023 in Hhi.
Qed.

(** Below the overflow threshold the result is the nearest double. *)
Lemma round64_finite (q : Q) :
  Qabs q <= 2 ^ 1023 -> round64 q = Num (Qred (nearest q)).
Proof.
  intros Hq. unfold round64.
  destruct (Qle_bool (2 ^ 1024) (Qabs (Qred (nearest q)))) eqn:Hover;
    [ | reflexivity ].
  apply Qle_bool_iff in Hover. rewrite Qred_correct in Hover.
  pose proof (nearest_bounded q Hq) as Hb.
  assert (Hlt : 2 ^ 1023 < 2 ^ 1024)
    by (apply Qpower_lt_compat_l; [ lia | reflexivity ]).
  lra.
Qed.

Lemma round64_not_NaN (q : Q) : not_NaN (round64 q).
Proof.
  unfold round64, not_NaN.
  destruct (Qle_bool _ _); [ destruct (Qle_bool _ _) | ]; reflexivity.
Qed.

Lemma round64_mono (p q : Q) :
  p <= q -> (round64 p <=? round64 q)%js = true.
Proof.
  intros Hpq. pose proof (nearest_mono p q Hpq) as Hn. unfold round64.
  pose proof (pow2_pos 1024) as Hpos.
  destruct (Qle_bool (2 ^ 1024) (Qabs (Qred (nearest p)))) eqn:Hp;
    destruct (Qle_bool (2 ^ 1024) (Qabs (Qred (nearest q)))) eqn:Hq.
  - destruct (Qle_bool 0 p) eqn:Hsp; destruct (Qle_bool 0 q) eqn:Hsq;
      try reflexivity.
    apply Qle_bool_iff in Hsp.
    assert (Hcontra : Qle_bool 0 q = true) by (apply Qle_bool_iff; lra).
    congruence.
  - destruct (Qle_bool 0 p) eqn:Hsp; [ | reflexivity ]. exfalso.
    apply Qle_bool_iff in Hsp, Hp. rewrite Qred_correct in Hp.
    rewrite Qabs_pos in Hp by now apply nearest_nonneg.
    assert (Hq' : Qle_bool (2 ^ 1024) (Qabs (Qred (nearest q))) = true).
    { apply Qle_bool_iff. rewrite Qred_correct.
      apply Qle_trans with (nearest q); [ lra | apply Qle_Qabs ]. }
    congruence.
  - destruct (Qle_bool 0 q) eqn:Hsq; [ reflexivity | ]. exfalso.
    apply Qle_bool_iff in Hq. rewrite Qred_correct in Hq.
    assert (Hneg : q <= 0).
    { apply Qlt_le_weak, Qnot_le_lt. intros H. apply Qle_bool_iff in H.
      congruence. }
    assert (Hnq : nearest q <= 0).
    { assert (H : 0 <= nearest (- q)) by (apply nearest_nonneg; lra).
      rewrite nearest_opp in H. lra. }
    rewrite Qabs_neg in Hq by exact Hnq.
    assert (Hp' : Qle_bool (2 ^ 1024) (Qabs (Qred (nearest p))) = true).
    { apply Qle_bool_iff. rewrite Qred_correct.
      rewrite Qabs_neg by lra. lra. }
    congruence.
  - cbn [le]. apply Qle_bool_iff. now rewrite !Qred_correct.
Qed.

(** The error of one rounding. *)
Lemma round64_error (q : Q) :
  Qabs q <= 2 ^ 1023 ->
  exists r : Q,
    round64 q = Num r
    /\ Qabs r <= 2 ^ 1023
    /\ Qabs (r - q) <= 2 ^ (-53) * Qabs q + 2 ^ (-1075).
Proof.
  intros Hq. exists (Qred (nearest q)).
  split; [ now apply round64_finite | ].
  rewrite Qred_correct. split; [ now apply nearest_bounded | ].
  pose proof (nearest_error q) as Herr.
  pose proof (Qabs_nonneg q) as Habs.
  destruct (Qeq_dec q 0) as [Hzero | Hnz].
  - rewrite (nearest_zero q Hzero), Hzero. vm_compute. discriminate.
  - destruct (ulp_bound q Hnz) as [Hulp | Hsub].
    + apply Qle_trans with (2 ^ ulp_exponent q * (1 # 2)); [ exact Herr | ].
      apply Qle_trans with (2 ^ (-52) * Qabs q * (1 # 2));
        [ apply Qmult_le_compat_r; [ exact Hulp | discriminate ] | ].
      assert (H53 : 2 ^ (-52) * Qabs q * (1 # 2) == 2 ^ (-53) * Qabs q).
      { change (2 ^ (-52)) with (1 # 4503599627370496).
        change (2 ^ (-53)) with (1 # 9007199254740992). ring. }
      rewrite H53. pose proof (pow2_pos (-1075)). lra.
    + rewrite Hsub in Herr.
      assert (H75 : 2 ^ (-1074) * (1 # 2) == 2 ^ (-1075)).
      { symmetry. exact (pow2_pred (-1074)). }
      rewrite H75 in Herr.
      assert (0 <= 2 ^ (-53) * Qabs q)
        by (apply Qmult_le_0_compat; [ discriminate | exact Habs ]).
      lra.
Qed.

(** The accumulated error of a value taken through [normalizeData] and
    back through [denormalizeData]: five roundings. *)
Lemma roundtrip_algebra (x mn mx M a r tr p : Q) :
  Qabs mn <= M -> Qabs mx <= M -> M <= 2 ^ 1022 ->
  mn <= x -> x <= mx ->
  Qabs (a - (x - mn)) <= 2 ^ (-53) * Qabs (x - mn) + 2 ^ (-1075) ->
  0 <= a -> a <= r ->
  Qabs (r - (mx - mn)) <= 2 ^ (-53) * Qabs (mx - mn) + 2 ^ (-1075) ->
  Qabs (tr - a) <= 2 ^ (-53) * a + 2 ^ (-1075) * r ->
  0 <= tr -> tr <= r ->
  Qabs (p - tr) <= 2 ^ (-53) * Qabs tr + 2 ^ (-1075) ->
  Qabs (p + mn) <= 2 ^ 1023
  /\ forall s : Q,
       Qabs (s - (p + mn)) <= 2 ^ (-53) * Qabs (p + mn) + 2 ^ (-1075) ->
       Qabs (s - x) <= 2 ^ (-50) * M + 2 ^ (-1072).
Proof.
  intros Hmn Hmx HM Hlo Hhi Ha Ha0 Har Hr Htr Htr0 Htr1 Hp.
  rewrite (Qabs_pos (x - mn)) in Ha by lra.
  rewrite (Qabs_pos (mx - mn)) in Hr by lra.
  rewrite (Qabs_pos tr) in Hp by lra.
  apply Qabs_Qle_condition in Hmn, Hmx, Ha, Hr, Htr, Hp.
  assert (Hz : 2 ^ (-1075) * r
               <= (1 # 9223372036854775808) * (mx - mn) + 2 ^ (-1075)).
  { apply Qle_trans
      with (2 ^ (-1075) * ((mx - mn) + 2 ^ (-53) * (mx - mn) + 2 ^ (-1075))).
    - apply Qmult_le_l; [ reflexivity | lra ].
    - assert (Heq : 2 ^ (-1075) * ((mx - mn) + 2 ^ (-53) * (mx - mn) + 2 ^ (-1075))
                    == (2 ^ (-1075) * (1 + 2 ^ (-53))) * (mx - mn)
                       + 2 ^ (-1075) * 2 ^ (-1075)) by ring.
      rewrite Heq. apply Qplus_le_compat.
      + apply Qmult_le_compat_r; [ | lra ]. vm_compute. discriminate.
      + rewrite <- (Qmult_1_r (2 ^ (-1075))) at 3.
        apply Qmult_le_l; [ reflexivity | vm_compute; discriminate ]. }
  assert (H50 : 2 ^ (-50) == 8 * (1 # 9007199254740992)) by reflexivity.
  assert (H72 : 2 ^ (-1072) == 8 * 2 ^ (-1075)) by reflexivity.
  assert (H23 : 2 ^ 1023 == 2 * 2 ^ 1022) by reflexivity.
  assert (HB : 1 <= 2 ^ 1022) by (vm_compute; discriminate).
  assert (He : 0 < 2 ^ (-1075)) by reflexivity.
  assert (He1 : 2 ^ (-1075) <= 1 # 1024) by (vm_compute; discriminate).
  change (2 ^ (-53)) with (1 # 9007199254740992) in *.
  assert (Hsum : Qabs (p + mn)
                 <= M + (6 # 9007199254740992) * M + 3 * 2 ^ (-1075)).
  { apply Qabs_Qle_condition.
    generalize dependent (2 ^ (-1075) * r). intros z; intros.
    generalize dependent (2 ^ (-1075)). intros e; intros.
    split; lra. }
  split.
  - rewrite H23. 
    generalize dependent (2 ^ (-1075) * r). intros z; intros.
    generalize dependent (2 ^ (-1075)). intros e; intros.
    generalize dependent (2 ^ 1022). intros B; intros. lra.
  - intros s Hs. rewrite H50, H72.
    apply Qabs_Qle_condition in Hs. apply Qabs_Qle_condition.
    generalize dependent (Qabs (p + mn)). intros w; intros.
    generalize dependent (2 ^ (-1075) * r). intros z; intros.
    generalize dependent (2 ^ (-1075)). intros e; intros.
    split; lra.
Qed.

End Rounding.

Section Doubles.
Import Binary64.

Lemma double_Num (q : Q) :
  double (Num q) ->
  round64 q = Num (Qred (nearest q)) /\ nearest q == q.
Proof.
  unfold double, rounded, round64.
  destruct (Qle_bool (2 ^ 1024) (Qabs (Qred (nearest q)))).
  - destruct (Qle_bool 0 q); intros [].
  - intros H. change (Qred (nearest q) == q) in H.
    rewrite Qred_correct in H. auto.
Qed.

(** Every double is a multiple of the least positive double. *)
Lemma nearest_grid (q : Q) :
  exists k : Z, nearest q == inject_Z k * 2 ^ (-1074).
Proof.
  unfold nearest. pose proof (ulp_exponent_min q) as He.
  set (e := ulp_exponent q) in *. set (m := round_even (q / 2 ^ e)).
  exists (m * 2 ^ (e + 1074))%Z.
  rewrite inject_Z_mult, pow2_of_Z by lia.
  rewrite <- Qmult_assoc, <- Qpower_plus by discriminate.
  replace (e + 1074 + -1074)%Z with e by lia. reflexivity.
Qed.

Lemma double_gap (p q : Q) :
  double (Num p) -> double (Num q) -> p < q -> 2 ^ (-1074) <= q - p.
Proof.
  intros Hp Hq Hlt.
  apply double_Num in Hp as [_ Hp]. apply double_Num in Hq as [_ Hq].
  destruct (nearest_grid p) as (kp & Hkp). destruct (nearest_grid q) as (kq & Hkq).
  rewrite Hp in Hkp. rewrite Hq in Hkq.
  pose proof (pow2_pos (-1074)) as Hg.
  assert (Hk : (kp < kq)%Z).
  { rewrite Zlt_Qlt. apply Qmult_lt_r with (2 ^ (-1074)); [ exact Hg | ].
    now rewrite <- Hkp, <- Hkq. }
  assert (Hk1 : inject_Z kp + 1 <= inject_Z kq).
  { change 1 with (inject_Z 1). rewrite <- inject_Z_plus, <- Zle_Qle. lia. }
  assert (Hdiff : q - p == (inject_Z kq - inject_Z kp) * 2 ^ (-1074))
    by (rewrite Hkp, Hkq; ring).
  rewrite Hdiff. rewrite <- (Qmult_1_l (2 ^ (-1074))) at 1.
  apply Qmult_le_compat_r; lra.
Qed.

(** What a rounding below the overflow threshold gives, with its sign and
    its order. *)
Lemma round64_spec (q : Q) :
  Qabs q <= 2 ^ 1023 ->
  exists r : Q,
    round64 q = Num r
    /\ Qabs r <= 2 ^ 1023
    /\ Qabs (r - q) <= 2 ^ (-53) * Qabs q + 2 ^ (-1075)
    /\ (0 <= q -> 0 <= r)
    /\ (2 ^ (-1074) <= q -> 0 < r)
    /\ (forall x : Q, double (Num x) -> x <= q -> x <= r)
    /\ (forall x : Q, double (Num x) -> q <= x -> r <= x).
Proof.
  intros Hq. destruct (round64_error q Hq) as (r & Hr & Hb & Herr).
  exists r. repeat split; try assumption.
  - intros Hpos. rewrite round64_finite in Hr by exact Hq.
    injection Hr as <-. rewrite Qred_correct. now apply nearest_nonneg.
  - intros Hpos. rewrite round64_finite in Hr by exact Hq.
    injection Hr as <-. rewrite Qred_correct.
    apply Qlt_le_trans with (2 ^ (-1074)); [ apply pow2_pos | ].
    rewrite <- nearest_least. now apply nearest_mono.
  - intros x Hx Hle. rewrite round64_finite in Hr by exact Hq.
    injection Hr as <-. rewrite Qred_correct.
    apply double_Num in Hx as [_ Hx]. rewrite <- Hx. now apply nearest_mono.
  - intros x Hx Hle. rewrite round64_finite in Hr by exact Hq.
    injection Hr as <-. rewrite Qred_correct.
    apply double_Num in Hx as [_ Hx]. rewrite <- Hx. now apply nearest_mono.
Qed.

Lemma moderate_Num (q : Q) :
  moderate (Num q) -> double (Num q) /\ Qabs q <= 2 ^ 1022.
Proof. intros (q' & [= <-] & Hd & Hb). auto. Qed.

Lemma double_one : double (Num 1).
Proof. vm_compute. reflexivity. Qed.

Lemma sum_bounded (p q : Q) :
  Qabs p <= 2 ^ 1022 -> Qabs q <= 2 ^ 1022 -> Qabs (p + - q) <= 2 ^ 1023.
Proof.
  intros Hp Hq. apply Qabs_Qle_condition in Hp, Hq. apply Qabs_Qle_condition.
  assert (H23 : 2 ^ 1023 == 2 * 2 ^ 1022) by reflexivity.
  rewrite H23. generalize dependent (2 ^ 1022). intros B; intros. split; lra.
Qed.

(** One value through [normalizeData] and back through [denormalizeData],
    in binary64. *)
Lemma roundtrip_entry (mins maxs : list number) (i : nat) (x mn mx : Q) :
  mins !! i = Some (Num mn) -> maxs !! i = Some (Num mx) ->
  moderate (Num x) -> moderate (Num mn) -> moderate (Num mx) ->
  ~ mn == mx -> mn <= x -> x <= mx -> 0 <= x ->
  exists t y : Q,
    normalize_entry mins maxs i (Num x) = Num t
    /\ 0 <= t /\ t <= 1
    /\ denormalize_entry mins maxs i (JNum (Num t)) = Returns (Num y)
    /\ Qabs (y - x) <= tolerance mn mx.
Proof.
  intros Hmins Hmaxs Hx Hmn Hmx Hne Hlo Hhi Hpos.
  apply moderate_Num in Hx as [Hxd Hxb], Hmn as [Hmnd Hmnb], Hmx as [Hmxd Hmxb].
  unfold normalize_entry, denormalize_entry. rewrite Hmins, Hmaxs.
  cbn [strict_eq].
  destruct (Qeq_bool mn mx) eqn:Heq;
    [ apply Qeq_bool_iff in Heq; contradiction | ].
  change (sub (Num x) (Num mn)) with (round64 (x + - mn)).
  change (sub (Num mx) (Num mn)) with (round64 (mx + - mn)).
  change (mul (Num mx) (Num 2)) with (round64 (mx * 2)).
  destruct (round64_spec (x + - mn)) as (a & Ha & _ & Haerr & Ha0 & _);
    [ now apply sum_bounded | ].
  destruct (round64_spec (mx + - mn)) as (r & Hr & Hrb & Hrerr & _ & Hr0 & _);
    [ now apply sum_bounded | ].
  assert (Hgap : 2 ^ (-1074) <= mx + - mn).
  { apply (double_gap mn mx Hmnd Hmxd).
    apply Qle_lteq in Hlo as [Hlo | Hlo]; [ lra | ].
    apply Qle_lteq in Hhi as [Hhi | Hhi]; [ lra | ].
    exfalso. apply Hne. now rewrite Hlo. }
  specialize (Ha0 ltac:(lra)). specialize (Hr0 Hgap).
  assert (Har : a <= r).
  { pose proof (round64_mono (x + - mn) (mx + - mn) ltac:(lra)) as Hm.
    rewrite Ha, Hr in Hm. now apply le_Num in Hm. }
  rewrite Ha, Hr.
  assert (Hdiv : div (Num a) (Num r) = round64 (a / r)).
  { unfold div. rewrite div_Num by lra. reflexivity. }
  rewrite Hdiv.
  assert (Hq0 : 0 <= a / r) by (apply Qle_shift_div_l; lra).
  assert (Hq1 : a / r <= 1) by (apply Qle_shift_div_r; lra).
  destruct (round64_spec (a / r))
    as (t & Ht & _ & Hterr & Ht0 & _ & _ & Ht1).
  { rewrite Qabs_pos by exact Hq0.
    apply Qle_trans with 1; [ exact Hq1 | vm_compute; discriminate ]. }
  specialize (Ht0 Hq0). specialize (Ht1 1 double_one Hq1).
  exists t. rewrite Ht.
  unfold ToNumber. cbn [ToString_throws numeric_value mbind outcome_bind].
  change (mul (Num t) (Num r)) with (round64 (t * r)).
  assert (Htr0 : 0 <= t * r) by (apply Qmult_le_0_compat; lra).
  assert (Htr1 : t * r <= r).
  { rewrite <- (Qmult_1_l r) at 2. apply Qmult_le_compat_r; lra. }
  destruct (round64_spec (t * r)) as (p & Hp & _ & Hperr & _).
  { rewrite Qabs_pos by exact Htr0. apply Qabs_Qle_condition in Hrb. lra. }
  rewrite Hp. change (add (Num p) (Num mn)) with (round64 (p + mn)).
  assert (Htra : Qabs (t * r - a) <= 2 ^ (-53) * a + 2 ^ (-1075) * r).
  { assert (Heq' : t * r - a == (t - a / r) * r) by (field; lra).
    rewrite Heq', Qabs_Qmult, (Qabs_pos r) by lra.
    rewrite (Qabs_pos (a / r)) in Hterr by exact Hq0.
    apply Qle_trans with ((2 ^ (-53) * (a / r) + 2 ^ (-1075)) * r).
    - apply Qmult_le_compat_r; lra.
    - assert (Heq'' : (2 ^ (-53) * (a / r) + 2 ^ (-1075)) * r
                      == 2 ^ (-53) * a + 2 ^ (-1075) * r) by (field; lra).
      rewrite Heq''. apply Qle_refl. }
  set (M := Qmax (Qabs mn) (Qabs mx)).
  assert (HM : M <= 2 ^ 1022) by (apply Q.max_lub; assumption).
  destruct (roundtrip_algebra x mn mx M a r (t * r) p) as (Hsum & Htotal);
    try assumption.
  { apply Q.le_max_l. }
  { apply Q.le_max_r. }
  destruct (round64_spec (p + mn) Hsum) as (s & Hs & _ & Hserr & _).
  rewrite Hs. specialize (Htotal s Hserr).
  change (Qabs (s - x) <= tolerance mn mx) in Htotal.
  destruct (round64_spec (mx * 2)) as (c & Hc & _ & _ & _ & _ & Hcap & _).
  { assert (H23 : 2 ^ 1023 == 2 * 2 ^ 1022) by reflexivity.
    rewrite H23, Qabs_Qmult. change (Qabs 2) with 2.
    rewrite Qmult_comm. apply Qmult_le_l; [ reflexivity | exact Hmxb ]. }
  rewrite Hc. specialize (Hcap x Hxd ltac:(lra)).
  cbn [Math_min le]. destruct (Qle_bool s c) eqn:Hsc; cbn [Math_max le].
  - destruct (Qle_bool 0 s) eqn:Hs0.
    + exists s. repeat split; assumption.
    + exists 0. repeat split; try assumption. 
      assert (Hneg : s < 0).
      { apply Qnot_le_lt. intros H. apply Qle_bool_iff in H. congruence. }
      apply Qabs_Qle_condition in Htotal. apply Qabs_Qle_condition.
      generalize dependent (tolerance mn mx). intros tol; intros. split; lra.
  - assert (Hgt : c < s).
    { apply Qnot_le_lt. intros H. apply Qle_bool_iff in H. congruence. }
    assert (Hc0 : Qle_bool 0 c = true) by (apply Qle_bool_iff; lra).
    rewrite Hc0. exists c. repeat split; try assumption.
    apply Qabs_Qle_condition in Htotal. apply Qabs_Qle_condition.
    generalize dependent (tolerance mn mx). intros tol; intros. split; lra.
Qed.

End Doubles.

(** ** The round trip through normalization, in binary64 *)

Section ColumnMember.
Import PredictionController.
Local Open Scope nat_scope.

Variable op : number -> number -> number.
Hypothesis op_select : forall a b, not_NaN a -> not_NaN b ->
  op a b = a \/ op a b = b.

(** A fitted bound is the initial one or a value of the feature. *)
Lemma column_fold_member (n : nat) (data : list (list number)) :
  forall acc : list number,
    length acc = n ->
    Forall (fun point => length point = n) data ->
    Forall (Forall finite) data ->
    Forall not_NaN acc ->
    forall i m,
      fold_left (fun acc point => forEach_update (fun _ => op) 0 acc point)
        data acc !! i = Some m ->
      acc !! i = Some m \/ exists k, cell data k i = Some m.
Proof.
  induction data as [ | point data IH ]; intros acc Hacc Hrect Hfin Hnan i m.
  - cbn. auto.
  - apply Forall_cons in Hrect as [Hpoint Hrect].
    apply Forall_cons in Hfin as [Hpfin Hfin].
    cbn [fold_left]. rewrite forEach_update_zip_with by congruence.
    assert (Hfinite : forall v, v ∈ point -> not_NaN v).
    { intros v Hv. rewrite Forall_forall in Hpfin.
      destruct (Hpfin v Hv) as (q & ->). reflexivity. }
    intros Hm. apply IH in Hm as [Hm | (k & Hk)]; try assumption.
    + apply lookup_zip_with_Some in Hm as (a & v & -> & Ha & Hv).
      destruct (op_select a v) as [-> | ->].
      * rewrite Forall_forall in Hnan. eauto using list_elem_of_lookup_2.
      * eauto using list_elem_of_lookup_2.
      * now left.
      * right. exists 0. unfold cell. cbn. exact Hv.
    + right. exists (S k). exact Hk.
    + rewrite length_zip_with. lia.
    + apply Forall_forall. intros y Hy.
      apply list_elem_of_lookup in Hy as (j & Hj).
      apply lookup_zip_with_Some in Hj as (a & v & -> & Ha & Hv).
      destruct (op_select a v) as [-> | ->].
      * rewrite Forall_forall in Hnan. eauto using list_elem_of_lookup_2.
      * eauto using list_elem_of_lookup_2.
      * rewrite Forall_forall in Hnan. eauto using list_elem_of_lookup_2.
      * eauto using list_elem_of_lookup_2.
Qed.

End ColumnMember.

Section RoundTrip64.
Import PredictionController.
Local Open Scope nat_scope.

Lemma Math_max_select (a b : number) :
  not_NaN a -> not_NaN b -> Math_max a b = a \/ Math_max a b = b.
Proof. intros Ha Hb. destruct (Math_max_cases a b Ha Hb) as (H & _). exact H. Qed.

Lemma Math_min_select (a b : number) :
  not_NaN a -> not_NaN b -> Math_min a b = a \/ Math_min a b = b.
Proof. intros Ha Hb. destruct (Math_min_cases a b Ha Hb) as (H & _). exact H. Qed.

Lemma moderate_finite (data : list (list number)) :
  Forall (Forall Binary64.moderate) data -> Forall (Forall finite) data.
Proof.
  intros Hdata. eapply Forall_impl; [ exact Hdata | ].
  intros point Hpoint. eapply Forall_impl; [ exact Hpoint | ].
  intros a (q & -> & _). now exists q.
Qed.

Lemma cell_moderate (data : list (list number)) (k i : nat) (a : number) :
  Forall (Forall Binary64.moderate) data -> cell data k i = Some a ->
  Binary64.moderate a.
Proof.
  intros Hdata Hcell. unfold cell in Hcell.
  destruct (data !! k) as [ point | ] eqn:Hk; [ | discriminate ].
  cbn in Hcell. rewrite Forall_forall in Hdata.
  pose proof (Hdata point (list_elem_of_lookup_2 _ _ _ Hk)) as Hpoint.
  rewrite Forall_forall in Hpoint. eauto using list_elem_of_lookup_2.
Qed.

(** The fitted bounds of a feature of a series of moderate doubles are
    moderate doubles that enclose the values of the feature. *)
Lemma column_bounds (n : nat) (data : list (list number)) (i : nat) :
  data <> [] ->
  Forall (fun point => length point = n) data ->
  Forall (Forall Binary64.moderate) data ->
  i < n ->
  exists mn mx : Q,
    column_mins n data !! i = Some (Num mn)
    /\ column_maxs n data !! i = Some (Num mx)
    /\ Binary64.moderate (Num mn) /\ Binary64.moderate (Num mx)
    /\ forall k x, cell data k i = Some (Num x) -> (mn <= x /\ x <= mx)%Q.
Proof.
  intros Hne Hrect Hmod Hi. pose proof (moderate_finite data Hmod) as Hfin.
  destruct (column_mins_bound n data i Hne Hrect Hfin Hi) as (mn & Hmn & Hlo).
  destruct (column_maxs_bound n data i Hne Hrect Hfin Hi) as (mx & Hmx & Hhi).
  exists mn, mx. split; [ exact Hmn | ]. split; [ exact Hmx | ].
  split; [ | split ].
  - destruct (column_fold_member Math_min Math_min_select n data
                (replicate n Infinity)) with (i := i) (m := Num mn)
      as [Hinit | (k & Hk)]; try assumption.
    + apply length_replicate.
    + now apply Forall_replicate.
    + apply lookup_replicate in Hinit as [[=] _].
    + eauto using cell_moderate.
  - destruct (column_fold_member Math_max Math_max_select n data
                (replicate n NegInfinity)) with (i := i) (m := Num mx)
      as [Hinit | (k & Hk)]; try assumption.
    + apply length_replicate.
    + now apply Forall_replicate.
    + apply lookup_replicate in Hinit as [[=] _].
    + eauto using cell_moderate.
  - intros k x Hcell. split; eauto.
Qed.

Lemma normalizeData64_Returns (n : nat) (data : list (list number)) :
  data <> [] ->
  Forall (fun point => length point = n) data ->
  Binary64.normalizeData data
  = Returns (map (imap (Binary64.normalize_entry (column_mins n data)
                          (column_maxs n data))) data).
Proof.
  intros Hne Hrect. destruct data as [ | first rest ]; [ congruence | ].
  apply Forall_cons in Hrect as [<- _]. reflexivity.
Qed.

Lemma denormalize_entry64_JNum (mins maxs : list number) (i : nat) (v : number) :
  Binary64.denormalize_entry mins maxs i (JNum v)
  = Returns (Binary64.restored_value mins maxs (i, JNum v)).
Proof.
  unfold Binary64.restored_value, Binary64.denormalize_entry. cbn [fst snd].
  destruct (mins !! i); [ | reflexivity ].
  destruct (maxs !! i); [ | reflexivity ].
  destruct (_ === _)%js; reflexivity.
Qed.

Lemma denormalizeData64_Returns (n : nat) (data normalized : list (list number)) :
  data <> [] ->
  Forall (fun point => length point = n) data ->
  Binary64.denormalizeData (json_of_series normalized) data
  = Returns (map (fun point =>
                    map (Binary64.restored_value (column_mins n data) (column_maxs n data))
                      (imap pair (take n (map JNum point))))
               normalized).
Proof.
  intros Hne Hrect. destruct data as [ | first rest ]; [ congruence | ].
  apply Forall_cons in Hrect as [<- _].
  unfold Binary64.denormalizeData, json_of_series.
  set (mins := column_mins _ _). set (maxs := column_maxs _ _).
  rewrite (mapM_Returns _
             (fun point =>
                match point with
                | JArr vals =>
                    map (Binary64.restored_value mins maxs)
                      (imap pair (take (length first) vals))
                | _ => []
                end)).
  - now rewrite map_map.
  - intros point Hpoint.
    apply list_elem_of_fmap in Hpoint as (numbers & -> & _).
    apply mapM_Returns. intros [j val] Hin.
    apply list_elem_of_lookup in Hin as (pos & Hpos).
    rewrite list_lookup_imap in Hpos.
    destruct (take (length first) (map JNum numbers) !! pos) as [ leaf | ] eqn:Hleaf;
      [ | discriminate ].
    injection Hpos as <- <-.
    apply lookup_take_Some in Hleaf as [Hleaf _].
    rewrite list_lookup_fmap in Hleaf.
    destruct (numbers !! pos) as [ v | ]; [ | discriminate ].
    injection Hleaf as <-. apply denormalize_entry64_JNum.
Qed.



(** Nor is a value restored when the difference of the fitted bounds
    overflows: the normalized value of [2 ^ 1023] between [- 2 ^ 1023] and
    [2 ^ 1023] is [Infinity / Infinity]. *)
Example extreme_value_is_not_restored :
  Binary64.normalizeData Binary64.extreme_series = Returns [[NaN]; [Num 0%Q]]
  /\ Binary64.denormalizeData (json_of_series [[NaN]; [Num 0%Q]])
       Binary64.extreme_series
     = Returns [[NaN]; [NaN]].
Proof. split; vm_compute; reflexivity. Qed.


Lemma declining_series_moderate :
  Forall (Forall Binary64.moderate) declining_series.
Proof.
  apply Forall_map, Forall_forall. intros k Hk.
  apply list_elem_of_In in Hk. cbn in Hk.
  repeat (destruct Hk as [<- | Hk];
          [ repeat constructor; eexists;
            (split; [ reflexivity | ]);
            (split; [ vm_compute; reflexivity | vm_compute; discriminate ])
          | ]).
  destruct Hk.
Qed.


(** In binary64 the value 60 of the declining series is not restored
    exactly: it comes back as 59.99999999999999. *)
Example roundtrip_is_not_exact :
  (restored ← (normalized ← Binary64.normalizeData declining_series;
               Binary64.denormalizeData (json_of_series normalized)
                 declining_series);
   Returns (cell restored 10 0))
  = Returns (Some (Num (8444249301319679 # 140737488355328))).
Proof. vm_compute. reflexivity. Qed.

End RoundTrip64.
